(** * weeklyplan: calendar, period registry and plan-hours aggregation

    A shallow embedding of the core of the weekly-plan system
    ([app/utils.py], [app/crud.py], [app/scheduler.py]) and the proofs of
    the properties its specification states about it, followed by further
    operations of these files, of [app/exporter.py] and of [app/web.py] and
    by properties read off their code.

    Representation choices, fixed once for the whole development:
    - a [datetime.date] is its proleptic Gregorian ordinal
      ([date.toordinal()], 0001-01-01 = 1, a Monday, to 9999-12-31 =
      3652059); date comparison is comparison of ordinals.  The functions
      that do date arithmetic come twice.  Under their own names they
      compute on ordinals, [d + timedelta(days=n)] being [d + n]: this is
      the value the source returns whenever it returns.  In the module
      [checked] the same functions raise [OverflowError] and [ValueError]
      where [datetime.date] does, and the lemmas [checked_..._eq] relate
      the two.  What a call does for an arbitrary date is stated on the
      functions of [checked];
    - a Python [float] is an IEEE 754 binary64 value, [spec_float] with the
      operations of [SpecFloat] at precision 53 and emax 1024;
    - a table is the list of its rows in rowid order; a Python [set] of
      dates is a [gset]; the dictionary built by [get_plan_item_stats] and
      the directory of per-user e-mail configurations are [gmap]s. *)

From Stdlib Require Import ZArith Lia List Bool Sorted String.
From Stdlib.Floats Require Import SpecFloat.
From stdpp Require Import base decidable option list sorting strings gmap fin_maps.

Local Open Scope Z_scope.

(* ===================================================================== *)
(** * datetime.date, as far as the sources use it *)
(* ===================================================================== *)

Module datetime.

(** A date is its ordinal. *)
Definition date : Type := Z.

(** [timedelta(days=n)] added to a date, on ordinals: the date the sum is
    when it is one.  [checked.add_days] is the operation with its
    [OverflowError]. *)
Definition add_days (d : date) (n : Z) : date := d + n.

(** [_is_leap(year)] *)
Definition is_leap (year : Z) : bool :=
  (year mod 4 =? 0) && (negb (year mod 100 =? 0) || (year mod 400 =? 0)).

(** [_days_before_year(year)]: number of days before January 1st of year. *)
Definition days_before_year (year : Z) : Z :=
  let y := year - 1 in
  y * 365 + y / 4 - y / 100 + y / 400.

(** The table [_DAYS_BEFORE_MONTH] (non-leap year). *)
Definition DAYS_BEFORE_MONTH (month : Z) : Z :=
  match month with
  | 1 => 0 | 2 => 31 | 3 => 59 | 4 => 90 | 5 => 120 | 6 => 151
  | 7 => 181 | 8 => 212 | 9 => 243 | 10 => 273 | 11 => 304 | 12 => 334
  | _ => 0
  end.

(** The table [_DAYS_IN_MONTH] (non-leap year). *)
Definition DAYS_IN_MONTH (month : Z) : Z :=
  match month with
  | 1 => 31 | 2 => 28 | 3 => 31 | 4 => 30 | 5 => 31 | 6 => 30
  | 7 => 31 | 8 => 31 | 9 => 30 | 10 => 31 | 11 => 30 | 12 => 31
  | _ => 0
  end.

(** [_days_before_month(year, month)] *)
Definition days_before_month (year month : Z) : Z :=
  DAYS_BEFORE_MONTH month + (if (2 <? month) && is_leap year then 1 else 0).

(** [_ymd2ord(year, month, day)] *)
Definition ymd2ord (year month day : Z) : Z :=
  days_before_year year + days_before_month year month + day.

Definition DI400Y : Z := 146097.
Definition DI100Y : Z := 36524.
Definition DI4Y : Z := 1461.

(** [_ord2ymd(n)]: ordinal to (year, month, day). *)
Definition ord2ymd (n : Z) : Z * Z * Z :=
  let n := n - 1 in
  let n400 := n / DI400Y in
  let n := n mod DI400Y in
  let year := n400 * 400 + 1 in
  let n100 := n / DI100Y in
  let n := n mod DI100Y in
  let n4 := n / DI4Y in
  let n := n mod DI4Y in
  let n1 := n / 365 in
  let n := n mod 365 in
  let year := year + n100 * 100 + n4 * 4 + n1 in
  if (n1 =? 4) || (n100 =? 4) then (year - 1, 12, 31)
  else
    let leapyear := (n1 =? 3) && (negb (n4 =? 24) || (n100 =? 3)) in
    let month := Z.shiftr (n + 50) 5 in
    let preceding :=
      DAYS_BEFORE_MONTH month + (if (2 <? month) && leapyear then 1 else 0) in
    if n <? preceding then
      let month := month - 1 in
      let preceding :=
        preceding
        - (DAYS_IN_MONTH month + (if (month =? 2) && leapyear then 1 else 0)) in
      (year, month, n - preceding + 1)
    else (year, month, n - preceding + 1).

(** The attributes [d.year], [d.month], [d.day]. *)
Definition year (d : date) : Z := fst (fst (ord2ymd d)).
Definition month (d : date) : Z := snd (fst (ord2ymd d)).
Definition day (d : date) : Z := snd (ord2ymd d).

(** [date(year, month, day)] for a valid triple. *)
Definition mkdate (y m d : Z) : date := ymd2ord y m d.

(** [d.isoweekday()]: [self.toordinal() % 7 or 7]. *)
Definition isoweekday (d : date) : Z :=
  let r := d mod 7 in if r =? 0 then 7 else r.

(** [_isoweek1monday(year)] *)
Definition isoweek1monday (year : Z) : Z :=
  let THURSDAY := 3 in
  let firstday := ymd2ord year 1 1 in
  let firstweekday := (firstday + 6) mod 7 in
  let week1monday := firstday - firstweekday in
  if THURSDAY <? firstweekday then week1monday + 7 else week1monday.

(** [d.isocalendar()]: (ISO year, ISO week, ISO weekday). *)
Definition isocalendar (d : date) : Z * Z * Z :=
  let year := year d in
  let week1monday := isoweek1monday year in
  let today := d in
  let week := (today - week1monday) / 7 in
  let day := (today - week1monday) mod 7 in
  if week <? 0 then
    let year := year - 1 in
    let week1monday := isoweek1monday year in
    let week := (today - week1monday) / 7 in
    let day := (today - week1monday) mod 7 in
    (year, week + 1, day + 1)
  else if (52 <=? week) && (isoweek1monday (year + 1) <=? today) then
    (year + 1, 0 + 1, day + 1)
  else (year, week + 1, day + 1).

End datetime.

Import datetime.

(* ===================================================================== *)
(** * app/utils.py *)
(* ===================================================================== *)

(** [iso_week_period(for_date)], on ordinals: what the call returns for the
    dates up to 9999-12-26, for which it returns
    ([checked_iso_week_period_eq]). *)
Definition iso_week_period (for_date : date) : Z * Z * date * date :=
  let '(iso_year, iso_week, iso_weekday) := isocalendar for_date in
  let monday := add_days for_date (- (iso_weekday - 1)) in
  let sunday := add_days monday 6 in
  (iso_year, iso_week, monday, sunday).

(** [week_in_month(monday)] *)
Definition week_in_month (monday : date) : Z := (day monday - 1) / 7 + 1.

(** [week_in_month_for_period(monday)] *)
Definition week_in_month_for_period (monday : date) : Z :=
  let anchor := add_days monday 3 in
  week_in_month anchor.

(** One pass through the body of the [while] loop of [workdays_in_range]:
    the list [days] after the day [cur] has been looked at. *)
Definition workdays_step (holidays workdays : gset date) (cur : date)
    (days : list date) : list date :=
  if bool_decide (cur ∈ workdays) then days ++ [cur]
  else if (isoweekday cur <=? 5) && negb (bool_decide (cur ∈ holidays))
       then days ++ [cur]
       else days.

(** The loop [while cur <= end_date: ...; cur += timedelta(days=1)],
    unrolled on its variant [end_date + 1 - cur], on ordinals: the list the
    loop leaves when it ends ([checked_workdays_loop]). *)
Fixpoint workdays_loop (variant : nat) (holidays workdays : gset date)
    (end_date cur : date) (days : list date) : list date :=
  match variant with
  | O => days
  | S variant' =>
      if cur <=? end_date then
        workdays_loop variant' holidays workdays end_date (add_days cur 1)
          (workdays_step holidays workdays cur days)
      else days
  end.

(** [workdays_in_range(start_date, end_date, *, holidays=None, workdays=None)] *)
Definition workdays_in_range (start_date end_date : date)
    (holidays workdays : option (gset date)) : list date :=
  let holidays := default ∅ holidays in
  let workdays := default ∅ workdays in
  workdays_loop (Z.to_nat (end_date + 1 - start_date)) holidays workdays
    end_date start_date [].

(** [workday_range(start_date, end_date, *, holidays=None, workdays=None)] *)
Definition workday_range (start_date end_date : date)
    (holidays workdays : option (gset date))
    : option date * option date * Z :=
  let days := workdays_in_range start_date end_date holidays workdays in
  match days with
  | [] => (None, None, 0)
  | d0 :: _ => (Some d0, Some (List.last days d0), Z.of_nat (length days))
  end.

(** The day-by-day rule of the specification, as a predicate on a day. *)
Definition effective_workday (holidays workdays : gset date) (d : date) : Prop :=
  d ∈ workdays ∨ ((d ∉ workdays) ∧ (isoweekday d ≤ 5) ∧ (d ∉ holidays)).

#[global] Instance effective_workday_dec holidays workdays d :
  Decision (effective_workday holidays workdays d).
Proof. unfold effective_workday. apply _. Defined.

(* ===================================================================== *)
(** * Python floats *)
(* ===================================================================== *)

Module pyfloat.

Definition float : Type := spec_float.

Definition prec : Z := 53.
Definition emax : Z := 1024.

(** [x + y] on floats. *)
Definition add (x y : float) : float := SFadd prec emax x y.

(** [0.0] *)
Definition zero : float := S754_zero false.

(** The float written as the decimal literal [num / den], for integers
    [num] and [den > 0] that floats hold exactly (every integer below 2^53
    is one): the correctly rounded quotient is the float nearest to the
    decimal, which is what the reader of literals and [float(Decimal(...))]
    return. *)
Definition decimal (num den : Z) : float :=
  match num, den with
  | Zpos n, Zpos d =>
      SFdiv prec emax (S754_finite false n 0) (S754_finite false d 0)
  | Zneg n, Zpos d =>
      SFdiv prec emax (S754_finite true n 0) (S754_finite false d 0)
  | _, _ => zero
  end.

(** [bool(x)]: a float is false exactly when it is a zero. *)
Definition truthy (x : float) : bool :=
  match x with
  | S754_zero _ => false
  | _ => true
  end.

(** The integer nearest to [a / b] for [b > 0], ties to the even one. *)
Definition div_half_even (a b : Z) : Z :=
  let q := a / b in
  let r := a mod b in
  match 2 * r ?= b with
  | Lt => q
  | Gt => q + 1
  | Eq => if Z.even q then q else q + 1
  end.

(** The integer nearest to [a / b] for [b > 0], ties upwards. *)
Definition div_half_up (a b : Z) : Z := (2 * a + b) / (2 * b).

(** The number of tenths nearest to the exact value [m * 2^e]. *)
Definition tenths (rnd : Z -> Z -> Z) (m : positive) (e : Z) : Z :=
  if 0 <=? e then 10 * Zpos m * 2 ^ e
  else rnd (10 * Zpos m) (2 ^ (- e)).

(** Rounding a float to one decimal with the tie rule [rnd]: the exact
    binary value is rounded to a number of tenths and that decimal is
    read back as the nearest float, keeping the sign. *)
Definition round1_with (rnd : Z -> Z -> Z) (x : float) : float :=
  match x with
  | S754_finite s m e =>
      match tenths rnd m e with
      | Zpos n => SFdiv prec emax (S754_finite s n 0) (S754_finite false 10 0)
      | _ => S754_zero s
      end
  | _ => x
  end.

(** The builtin [round(x, 1)] on a float: CPython prints the exact value
    with one digit after the point, correctly rounded with ties to even
    ([_Py_dg_dtoa], mode 3), and reads the digits back with
    [_Py_dg_strtod]; a NaN, an infinity or a zero is returned as it is. *)
Definition round1 (x : float) : float := round1_with div_half_even x.

(** Rounding to one decimal with ties upwards, which the specification
    names. *)
Definition round1_half_up (x : float) : float := round1_with div_half_up x.

End pyfloat.

Import pyfloat.

(* ===================================================================== *)
(** * app/models.py *)
(* ===================================================================== *)

Module WeekPeriod.
Record t := mk {
  id : Z;
  year : Z;        (* ISO year *)
  month : Z;
  week_no : Z;     (* ISO week *)
  start_date : date;
  end_date : date
}.
Definition with_id (i : Z) (p : t) : t :=
  mk i (year p) (month p) (week_no p) (start_date p) (end_date p).
Definition with_month (m : Z) (p : t) : t :=
  mk (id p) (year p) m (week_no p) (start_date p) (end_date p).
End WeekPeriod.

Module WeeklyPlan.
Record t := mk {
  id : Z;
  period_id : Z;
  owner_user_id : Z;
  status : string      (* draft/submitted/approved/rejected *)
}.
Definition with_status (s : string) (p : t) : t :=
  mk (id p) (period_id p) (owner_user_id p) s.
End WeeklyPlan.

Module PlanItemDetail.
Record t := mk {
  id : Z;
  item_id : Z;
  hours : option float;
  sort_no : Z
}.
End PlanItemDetail.

Module PlanItem.
Record t := mk {
  id : Z;
  plan_id : Z;
  estimated_hours : option float;
  sort_no : Z;
  details : list PlanItemDetail.t   (* the relationship [details] *)
}.
End PlanItem.

Module OperationLog.
Record t := mk {
  action : string;
  object_id : option Z;
  period : Z * Z;
  owner_user_id : Z
}.
End OperationLog.

(** The database, one list of rows per table. *)
Record Db := mkDb {
  week_period : list WeekPeriod.t;
  weekly_plan : list WeeklyPlan.t;
  plan_item : list PlanItem.t;
  operation_log : list OperationLog.t
}.

Definition empty_db : Db := mkDb [] [] [] [].

(** What a call does: it returns a value or raises. *)
Inductive exn := IntegrityError | ValueError (msg : string) | OverflowError.

Inductive outcome (A : Type) :=
| Returned (a : A)
| Raised (e : exn).
Arguments Returned {A} a.
Arguments Raised {A} e.

(* ===================================================================== *)
(** * app/crud.py *)
(* ===================================================================== *)

(** The primary key given to a new row: one more than the largest in use. *)
Definition next_id (ids : list Z) : Z := 1 + foldr Z.max 0 ids.

(** [select(WeekPeriod).where(and_(year == ..., week_no == ...))], read
    with [db.scalar]: the first matching row, or [None]. *)
Definition same_week (year week_no : Z) (p : WeekPeriod.t) : bool :=
  (WeekPeriod.year p =? year) && (WeekPeriod.week_no p =? week_no).

Definition select_period (rows : list WeekPeriod.t) (year week_no : Z)
    : option WeekPeriod.t :=
  List.find (same_week year week_no) rows.

(** [existing.month = month; db.commit()]: the row with the primary key of
    [existing] is updated in place. *)
Definition update_month (pk month : Z) (rows : list WeekPeriod.t)
    : list WeekPeriod.t :=
  List.map (fun p => if WeekPeriod.id p =? pk
                     then WeekPeriod.with_month month p else p) rows.

(** [db.add(period); db.commit(); db.refresh(period)] against the rows the
    table holds at commit time.  The constraint [uq_year_weekno] of the
    table makes the commit raise [IntegrityError] when a row of the same
    (year, week_no) is there. *)
Definition insert_period (rows : list WeekPeriod.t) (period : WeekPeriod.t)
    : outcome (list WeekPeriod.t * WeekPeriod.t) :=
  if existsb (same_week (WeekPeriod.year period) (WeekPeriod.week_no period)) rows
  then Raised IntegrityError
  else
    let period := WeekPeriod.with_id (next_id (WeekPeriod.id <$> rows)) period in
    Returned (rows ++ [period], period).

Definition set_week_period (rows : list WeekPeriod.t) (db : Db) : Db :=
  mkDb rows (weekly_plan db) (plan_item db) (operation_log db).

(** The constraint [uq_year_weekno] of the table [week_period]. *)
Definition week_key (p : WeekPeriod.t) : Z * Z :=
  (WeekPeriod.year p, WeekPeriod.week_no p).

Definition uq_year_weekno (rows : list WeekPeriod.t) : Prop :=
  NoDup (week_key <$> rows).

(** A row of [week_period] as [ensure_period] writes it: year, week and
    boundaries are those of the ISO week of some date. *)
Definition iso_week_row (p : WeekPeriod.t) : Prop :=
  exists d : date,
    iso_week_period d
    = (WeekPeriod.year p, WeekPeriod.week_no p,
       WeekPeriod.start_date p, WeekPeriod.end_date p).

(** [ensure_period(db, for_date)], run while other sessions commit the rows
    [concurrent] to [week_period] between the SELECT of this call and its
    COMMIT.  The function has no handler: an exception raised by the commit
    leaves it.  The week is computed on ordinals: this is the call for a
    date up to 9999-12-26 ([checked_ensure_period_among_eq]). *)
Definition ensure_period_among (concurrent : list WeekPeriod.t) (db : Db)
    (for_date : date) : outcome (Db * WeekPeriod.t) :=
  let '(year, week_no, start_date, end_date) := iso_week_period for_date in
  let existing := select_period (week_period db) year week_no in
  match existing with
  | Some existing =>
      let anchor := add_days start_date 3 in
      let month := datetime.month anchor in
      if negb (WeekPeriod.month existing =? month) then
        let rows := update_month (WeekPeriod.id existing) month
                      (week_period db ++ concurrent) in
        Returned (set_week_period rows db, WeekPeriod.with_month month existing)
      else Returned (set_week_period (week_period db ++ concurrent) db, existing)
  | None =>
      let period :=
        WeekPeriod.mk 0 year (datetime.month (add_days start_date 3)) week_no
          start_date end_date in
      match insert_period (week_period db ++ concurrent) period with
      | Returned (rows, period) => Returned (set_week_period rows db, period)
      | Raised e => Raised e
      end
  end.

(** [ensure_period(db, for_date)] with no other session at work. *)
Definition ensure_period (db : Db) (for_date : date)
    : outcome (Db * WeekPeriod.t) :=
  ensure_period_among [] db for_date.

(** [db.get(models.WeeklyPlan, plan_id)] *)
Definition db_get_plan (db : Db) (plan_id : Z) : option WeeklyPlan.t :=
  List.find (fun p => WeeklyPlan.id p =? plan_id) (weekly_plan db).

(** [get_plan(db, plan_id)] *)
Definition get_plan (db : Db) (plan_id : Z) : option WeeklyPlan.t :=
  db_get_plan db plan_id.

(** [set_plan_status(db, plan_id=..., status=...)] *)
Definition set_plan_status (db : Db) (plan_id : Z) (status : string)
    : Db * option WeeklyPlan.t :=
  match db_get_plan db plan_id with
  | None => (db, None)
  | Some plan =>
      let plan' := WeeklyPlan.with_status status plan in
      (mkDb (week_period db)
            (List.map (fun p => if WeeklyPlan.id p =? plan_id
                                then WeeklyPlan.with_status status p else p)
                      (weekly_plan db))
            (plan_item db) (operation_log db),
       Some plan')
  end.

(** The relationship [plan.items]. *)
Definition plan_items (db : Db) (plan_id : Z) : list PlanItem.t :=
  List.filter (fun it => PlanItem.plan_id it =? plan_id) (plan_item db).

(** [float(item.estimated_hours or 0)] *)
Definition estimated_or_0 (it : PlanItem.t) : float :=
  match PlanItem.estimated_hours it with
  | Some h => if truthy h then h else zero
  | None => zero
  end.

(** The loop [for d in details: if d.hours is None: continue;
    acc += float(d.hours)], from the accumulator [acc]. *)
Definition add_detail_hours (acc : float) (details : list PlanItemDetail.t)
    : float :=
  fold_left (fun acc d => match PlanItemDetail.hours d with
                          | None => acc
                          | Some h => add acc h
                          end) details acc.

(** [if item.details:]: a list is true when it is not empty. *)
Definition has_details (it : PlanItem.t) : bool :=
  match PlanItem.details it with [] => false | _ :: _ => true end.

(** [sum_plan_hours(db, plan_id=...)] *)
Definition sum_plan_hours (db : Db) (plan_id : Z) : float :=
  match db_get_plan db plan_id with
  | None => zero
  | Some plan =>
      fold_left
        (fun total item =>
           if has_details item
           then add_detail_hours total (PlanItem.details item)
           else add total (estimated_or_0 item))
        (plan_items db (WeeklyPlan.id plan)) zero
  end.

(** One entry of the dictionary [get_plan_item_stats] returns. *)
Record Stat := mkStat { estimated : float; actual : float; items : Z }.

Definition zero_stat : Stat := mkStat zero zero 0.

(** The hours an item adds to [actual] in [get_plan_item_stats]. *)
Definition item_actual (it : PlanItem.t) : float :=
  if has_details it then add_detail_hours zero (PlanItem.details it)
  else estimated_or_0 it.

(** The body of [for it in items:]. *)
Definition stats_step (stats : gmap Z Stat) (it : PlanItem.t) : gmap Z Stat :=
  let s := default zero_stat (stats !! PlanItem.plan_id it) in
  let est := estimated_or_0 it in
  <[ PlanItem.plan_id it :=
       mkStat (add (estimated s) est) (add (actual s) (item_actual it))
              (items s + 1) ]> stats.

(** What the body of [for it in items:] does to the entry of the plan of
    the item. *)
Definition count_item (s : Stat) (it : PlanItem.t) : Stat :=
  mkStat (add (estimated s) (estimated_or_0 it))
         (add (actual s) (item_actual it)) (items s + 1).

(** [select(PlanItem).where(PlanItem.plan_id.in_(plan_ids))] *)
Definition select_items (db : Db) (plan_ids : list Z) : list PlanItem.t :=
  List.filter (fun it => bool_decide (PlanItem.plan_id it ∈ plan_ids))
    (plan_item db).

(** The last loop: both sums of an entry are rounded to one decimal. *)
Definition round_stat (v : Stat) : Stat :=
  mkStat (round1 (estimated v)) (round1 (actual v)) (items v).

(** [get_plan_item_stats(db, plan_ids)] *)
Definition get_plan_item_stats (db : Db) (plan_ids : list Z) : gmap Z Stat :=
  match plan_ids with
  | [] => ∅
  | _ :: _ =>
      let stats : gmap Z Stat :=
        fold_left (fun m pid => <[ pid := zero_stat ]> m) plan_ids ∅ in
      let items := select_items db plan_ids in
      let stats := fold_left stats_step items stats in
      round_stat <$> stats
  end.

(** [add_operation_log(db, ...)], for the two calls of the scheduler. *)
Definition add_operation_log (db : Db) (entry : OperationLog.t) : Db :=
  mkDb (week_period db) (weekly_plan db) (plan_item db)
       (operation_log db ++ [entry]).

(* ===================================================================== *)
(** * app/emailer.py and app/scheduler.py *)
(* ===================================================================== *)

(** [datetime.time] and [datetime.datetime]. *)
Record time := mkTime { hour : Z; minute : Z; second : Z; microsecond : Z }.

(** [t1 < t2] on times: the order of the tuples (hour, minute, second,
    microsecond). *)
Definition time_ltb (t1 t2 : time) : bool :=
  (hour t1 <? hour t2)
  || ((hour t1 =? hour t2)
      && ((minute t1 <? minute t2)
          || ((minute t1 =? minute t2)
              && ((second t1 <? second t2)
                  || ((second t1 =? second t2)
                      && (microsecond t1 <? microsecond t2)))))).

Record datetime := mkDatetime { date_of : date; time_of : time }.

(** The text of the entry "schedule_time", as far as the sources tell
    texts apart: the empty string, a string of white space, "H" and "H:M"
    with the integers [int] reads from the parts, and everything else
    ([int] raising). *)
Inductive hhmm_text :=
| Empty
| Blank
| HH (h : Z)
| HHMM (h m : Z)
| Unreadable.

(** [_parse_hhmm(value)] *)
Definition parse_hhmm (value : hhmm_text) : option time :=
  match value with
  | Empty | Blank | Unreadable => None
  | HH h =>
      if (h <? 0) || (23 <? h) then None else Some (mkTime h 0 0 0)
  | HHMM h m =>
      if (h <? 0) || (23 <? h) || (m <? 0) || (59 <? m) then None
      else Some (mkTime h m 0 0)
  end.

(** The period key [f"{period.year}-W{period.week_no}"]: the text is
    determined by, and determines, the pair of integers. *)
Definition period_key : Type := Z * Z.

(** A per-user e-mail configuration (one JSON file [<user_id>.json]); the
    SMTP entries only feed [send_plan_email]. *)
Record EmailConfig := mkEmailConfig {
  schedule_enabled : bool;
  schedule_weekday : option Z;
  schedule_time : option hhmm_text;
  last_auto_sent_key : option period_key;
  last_auto_sent_at : option datetime
}.

(** [now.isoformat(timespec="seconds")]: the date and the time of [now]
    without the microseconds. *)
Definition isoformat_seconds (now : datetime) : datetime :=
  let t := time_of now in
  mkDatetime (date_of now) (mkTime (hour t) (minute t) (second t) 0).

(** [cfg["last_auto_sent_key"] = key;
    cfg["last_auto_sent_at"] = now.isoformat(timespec="seconds")] *)
Definition mark_sent (key : period_key) (now : datetime) (cfg : EmailConfig)
    : EmailConfig :=
  mkEmailConfig (schedule_enabled cfg) (schedule_weekday cfg)
    (schedule_time cfg) (Some key) (Some (isoformat_seconds now)).

(** The handler [user_email_config_save] of the web layer: the form
    replaces the schedule and carries [last_auto_sent_*] over from the
    stored configuration. *)
Definition user_email_config_save (user_id : Z) (enabled : bool) (weekday : Z)
    (at_time : hhmm_text) (cfgs : gmap Z EmailConfig) : gmap Z EmailConfig :=
  let existing := cfgs !! user_id in
  <[ user_id :=
       mkEmailConfig enabled (Some weekday)
         (Some (match at_time with Empty | Blank => HHMM 9 0 | t => t end))
         (existing ≫= last_auto_sent_key) (existing ≫= last_auto_sent_at) ]> cfgs.

(** The state the scheduler works on: the database, the directory of
    configurations, and the calls of [send_plan_email] made so far, each
    recorded with the user and the period key it was made for. *)
Record World := mkWorld {
  world_db : Db;
  email_configs : gmap Z EmailConfig;
  sent : list (Z * period_key)
}.

(** The query for the submitted plan of a user in a period, read with
    [.first()]. *)
Definition select_submitted_plan (db : Db) (period_id user_id : Z)
    : option WeeklyPlan.t :=
  List.find (fun p => (WeeklyPlan.period_id p =? period_id)
                      && (WeeklyPlan.owner_user_id p =? user_id)
                      && String.eqb (WeeklyPlan.status p) "submitted")
            (weekly_plan db).

(** The body of [for user_id, cfg in iter_user_email_configs():] for one
    configuration read at the start of the tick.  [smtp plan cfg] tells
    whether [send_plan_email(plan, cfg)] returns ([true]) or raises. *)
Definition auto_send_user (now : datetime) (period : WeekPeriod.t)
    (smtp : WeeklyPlan.t -> EmailConfig -> bool)
    (w : World) (entry : Z * EmailConfig) : World :=
  let '(user_id, cfg) := entry in
  let key : period_key := (WeekPeriod.year period, WeekPeriod.week_no period) in
  if negb (schedule_enabled cfg) then w
  else
    let weekday := match schedule_weekday cfg with
                   | Some 0 | None => 1
                   | Some n => n
                   end in
    let send_at := parse_hhmm (match schedule_time cfg with
                               | Some Empty | None => HHMM 9 0
                               | Some t => t
                               end) in
    match send_at with
    | None => w
    | Some send_at =>
        if negb (isoweekday (date_of now) =? weekday) then w
        else if time_ltb (time_of now) send_at then w
        else if bool_decide (last_auto_sent_key cfg = Some key) then w
        else
          let db := world_db w in
          let plan := select_submitted_plan db (WeekPeriod.id period) user_id in
          match plan with
          | Some plan =>
              let action : string :=
                if smtp plan cfg then "email_auto_send"
                else "email_auto_send_failed" in
              let db := add_operation_log db
                          (OperationLog.mk action (Some (WeeklyPlan.id plan))
                             key user_id) in
              mkWorld db
                (<[ user_id := mark_sent key now cfg ]> (email_configs w))
                (sent w ++ [(user_id, key)])
          | None =>
              mkWorld db
                (<[ user_id := mark_sent key now cfg ]> (email_configs w))
                (sent w)
          end
    end.

(** [try_auto_send_week_plans()], with the clock reading [now] and the
    behaviour [smtp] of the mail server as inputs. *)
Definition try_auto_send_week_plans (now : datetime)
    (smtp : WeeklyPlan.t -> EmailConfig -> bool) (w : World) : World :=
  match ensure_period (world_db w) (date_of now) with
  | Raised _ => w
  | Returned (db, period) =>
      fold_left (auto_send_user now period smtp)
        (map_to_list (email_configs w))
        (mkWorld db (email_configs w) (sent w))
  end.

(** The key a configuration holds as last sent, if any. *)
Definition last_key (w : World) (user_id : Z) : option period_key :=
  email_configs w !! user_id ≫= last_auto_sent_key.

(** The guards of the loop body, up to the query for the plan: the
    configuration is due at [now] for the period [key]. *)
Definition due (now : datetime) (key : period_key) (cfg : EmailConfig) : bool :=
  schedule_enabled cfg
  && match parse_hhmm (match schedule_time cfg with
                       | Some Empty | None => HHMM 9 0
                       | Some t => t
                       end) with
     | None => false
     | Some send_at =>
         (isoweekday (date_of now)
          =? match schedule_weekday cfg with
             | Some 0 | None => 1
             | Some n => n
             end)
         && negb (time_ltb (time_of now) send_at)
         && negb (bool_decide (last_auto_sent_key cfg = Some key))
     end.

(** What the loop of a tick does to the directory of configurations. *)
Definition save_if_due (now : datetime) (key : period_key)
    (cfgs : gmap Z EmailConfig) (entry : Z * EmailConfig) : gmap Z EmailConfig :=
  if due now key (snd entry)
  then <[ fst entry := mark_sent key now (snd entry) ]> cfgs
  else cfgs.

(** What happens to the world between and at scheduler ticks. *)
Inductive event :=
| Tick (now : datetime) (smtp : WeeklyPlan.t -> EmailConfig -> bool)
| SaveConfig (user_id : Z) (enabled : bool) (weekday : Z) (at_time : hhmm_text)
| DbChange (db : Db).

Definition step (w : World) (ev : event) : World :=
  match ev with
  | Tick now smtp => try_auto_send_week_plans now smtp w
  | SaveConfig user_id enabled weekday at_time =>
      mkWorld (world_db w)
        (user_email_config_save user_id enabled weekday at_time (email_configs w))
        (sent w)
  | DbChange db => mkWorld db (email_configs w) (sent w)
  end.

Definition run (w : World) (evs : list event) : World := fold_left step evs w.

(** The dates at which the ticks of a run read the clock. *)
Definition tick_dates (evs : list event) : list date :=
  omap (fun ev => match ev with
                  | Tick now _ => Some (date_of now)
                  | _ => None
                  end) evs.

(** The period key of a date: ISO year and ISO week. *)
Definition key_of_date (d : date) : period_key :=
  let '(year, week_no, _, _) := iso_week_period d in (year, week_no).

(** The ticks of a run read the clock in time order. *)
Definition chronological (evs : list event) : Prop :=
  StronglySorted Z.le (tick_dates evs).

(** The state of the guard after ticks at the dates [past]: no attempt is
    recorded twice, and the week of a recorded attempt either is the key
    the user's configuration holds, or was followed by a tick of another
    week. *)
Definition guarded (past : list date) (w : World) : Prop :=
  NoDup (sent w)
  /\ forall user_id k,
       (user_id, k) ∈ sent w ->
       exists d1, d1 ∈ past /\ key_of_date d1 = k
         /\ (last_key w user_id = Some k
             \/ exists d2, d2 ∈ past /\ d1 <= d2 /\ key_of_date d2 <> k).

(** A user due on Wednesdays at 09:00 with a submitted plan in the first
    period of the table. *)
Definition sample_world : World :=
  mkWorld
    (mkDb [] [WeeklyPlan.mk 1 1 1 "submitted"] [] [])
    {[ 1 := mkEmailConfig true (Some 3) (Some (HHMM 9 0)) None None ]}
    [].

(** Wednesday 2024-01-31: a tick at 10:00 at which the mail server fails,
    a save of the schedule by the user, and a tick at 10:01. *)
Definition sample_events : list event :=
  [Tick (mkDatetime (mkdate 2024 1 31) (mkTime 10 0 0 0)) (fun _ _ => false);
   SaveConfig 1 true 3 (HHMM 8 30);
   Tick (mkDatetime (mkdate 2024 1 31) (mkTime 10 1 0 0)) (fun _ _ => true)].

(* ===================================================================== *)
(** * The results of the operations, as the caller sees them *)
(* ===================================================================== *)

(** What a caller may get back from an operation that takes a plan id. *)
Inductive result :=
| RNone                        (* None *)
| RPlan (p : WeeklyPlan.t)
| RFloat (x : float).

Definition result_of_get_plan (db : Db) (plan_id : Z) : result :=
  match get_plan db plan_id with Some p => RPlan p | None => RNone end.

Definition result_of_set_plan_status (db : Db) (plan_id : Z) (status : string)
    : result :=
  match snd (set_plan_status db plan_id status) with
  | Some p => RPlan p
  | None => RNone
  end.

Definition result_of_sum_plan_hours (db : Db) (plan_id : Z) : result :=
  RFloat (sum_plan_hours db plan_id).

(* ===================================================================== *)
(** * Well-formed hours, the specification's words, and sample data *)
(* ===================================================================== *)

(** [x] is a binary64 value: a NaN, an infinity, a zero, or a mantissa and
    an exponent in canonical form. *)
Definition is_float (x : float) : bool := valid_binary prec emax x.

Definition hours_ok (h : option float) : bool :=
  match h with Some x => is_float x | None => true end.

(** Every hours entry of the item and of its details is a float. *)
Definition item_ok (it : PlanItem.t) : bool :=
  hours_ok (PlanItem.estimated_hours it)
  && forallb (fun d => hours_ok (PlanItemDetail.hours d)) (PlanItem.details it).

(** The exponent invariant of sums: no finite value is finer than the
    smallest subnormal. *)
Definition fine (x : float) : Prop :=
  match x with
  | S754_finite _ _ e => SpecFloat.emin prec emax <= e
  | _ => True
  end.

(** The state of an accumulator: it started at [0.0] and floats were added
    to it. *)
Definition accumulator (x : float) : Prop := fine x /\ x <> S754_zero true.

(** [itemActualHours(item)] in the words of the specification: with at
    least one detail, the sum of the detail hours, a null counting as 0;
    else the estimate, or 0. *)
Definition itemActualHours (it : PlanItem.t) : float :=
  match PlanItem.details it with
  | [] => match PlanItem.estimated_hours it with
          | Some h => if truthy h then h else zero
          | None => zero
          end
  | details =>
      fold_left (fun acc d => add acc (default zero (PlanItemDetail.hours d)))
        details zero
  end.

(** The hours entries of the details of an item that are not null. *)
Definition detail_hours (it : PlanItem.t) : list float :=
  omap PlanItemDetail.hours (PlanItem.details it).

(** The hours an item contributes, one by one: the hours of its details
    that are not null, or its estimate when it has no detail. *)
Definition item_terms (it : PlanItem.t) : list float :=
  if has_details it then detail_hours it else [estimated_or_0 it].

(** A database with one plan and the items given. *)
Definition one_plan_db (items : list PlanItem.t) : Db :=
  mkDb [] [WeeklyPlan.mk 1 1 1 "draft"] items [].

(** Plan 1 with one item of 3.05 estimated hours and no details. *)
Definition db_3_05 : Db :=
  one_plan_db [PlanItem.mk 1 1 (Some (decimal 305 100)) 1 []].

(** Plan 1 with one item of 0.25 estimated hours and no details: 0.25 is a
    float exactly, half-way between 0.2 and 0.3. *)
Definition db_0_25 : Db :=
  one_plan_db [PlanItem.mk 1 1 (Some (decimal 25 100)) 1 []].

(** Plan 1 with two items of 140737488355328.3 and 140737488355328.9
    estimated hours and no details: hours with one decimal whose float sum,
    281474976710657.25, is exactly half-way between two tenths. *)
Definition db_tenths : Db :=
  one_plan_db
    [PlanItem.mk 1 1 (Some (decimal 1407374883553283 10)) 1 [];
     PlanItem.mk 2 1 (Some (decimal 1407374883553289 10)) 2 []].

(** Plan 1 with an item of 1e16 estimated hours and no details, and an
    item with two details of 1.0 hours. *)
Definition db_regrouped : Db :=
  one_plan_db
    [PlanItem.mk 1 1 (Some (decimal 10000000000000000 1)) 1 [];
     PlanItem.mk 2 1 None 2
       [PlanItemDetail.mk 1 2 (Some (decimal 1 1)) 1;
        PlanItemDetail.mk 2 2 (Some (decimal 1 1)) 2]].

(** Plan 1 with one item (2.0 estimated hours, details of 2.5 hours and of
    no hours) and plan 2 with no item. *)
Definition db_two_plans : Db :=
  mkDb []
    [WeeklyPlan.mk 1 1 1 "draft"; WeeklyPlan.mk 2 1 2 "draft"]
    [PlanItem.mk 1 1 (Some (decimal 2 1)) 1
       [PlanItemDetail.mk 1 1 (Some (decimal 25 10)) 1;
        PlanItemDetail.mk 2 1 None 2]]
    [].

(** C10 as the specification states it. *)
Definition actual_is_rounded_sum : Prop :=
  forall (db : Db) (p : WeeklyPlan.t),
    get_plan db (WeeklyPlan.id p) = Some p ->
    actual <$> (get_plan_item_stats db [WeeklyPlan.id p] !! WeeklyPlan.id p)
    = Some (round1 (sum_plan_hours db (WeeklyPlan.id p))).

(** C7 as the specification states it, for the two operations it names. *)
Definition not_found_is_absent : Prop :=
  forall (db : Db) (plan_id : Z),
    db_get_plan db plan_id = None ->
    result_of_get_plan db plan_id = RNone
    /\ result_of_sum_plan_hours db plan_id = RNone.

(* ===================================================================== *)
(** * Further operations of the sources *)
(* ===================================================================== *)

(** ** The calendar *)

(** [calendar.monthrange(year, month)[1]]: the number of days of a month. *)
Definition days_in_month (year month : Z) : Z :=
  DAYS_IN_MONTH month + (if (month =? 2) && is_leap year then 1 else 0).

(** The second half of [_ord2ymd]: the month and the day of day [n] of a
    year, counted from 0. *)
Definition month_and_day (leapyear : bool) (n : Z) : Z * Z :=
  let month := Z.shiftr (n + 50) 5 in
  let preceding :=
    DAYS_BEFORE_MONTH month + (if (2 <? month) && leapyear then 1 else 0) in
  if n <? preceding then
    let month := month - 1 in
    let preceding :=
      preceding
      - (DAYS_IN_MONTH month + (if (month =? 2) && leapyear then 1 else 0)) in
    (month, n - preceding + 1)
  else (month, n - preceding + 1).

(** What [month_and_day] has to satisfy on a day, as a test to run on the
    days of a year. *)
Definition month_and_day_ok (leapyear : bool) (n : Z) : bool :=
  let '(m, dd) := month_and_day leapyear n in
  (1 <=? m) && (m <=? 12) && (1 <=? dd)
  && (dd <=? DAYS_IN_MONTH m + (if (m =? 2) && leapyear then 1 else 0))
  && (DAYS_BEFORE_MONTH m + (if (2 <? m) && leapyear then 1 else 0) + dd =? n + 1).

(** ** app/crud.py: the week periods *)

(** The primary key of the table [week_period]. *)
Definition pk_week_period (rows : list WeekPeriod.t) : Prop :=
  NoDup (WeekPeriod.id <$> rows).

(** The month of a row is the month of the Thursday of its week. *)
Definition month_of_thursday (p : WeekPeriod.t) : Prop :=
  WeekPeriod.month p
  = datetime.month (add_days (WeekPeriod.start_date p) 3).

(** [_migrate_week_period_month(db)] *)
Definition migrate_week_period_month (db : Db) : Db :=
  set_week_period
    (List.map
       (fun p =>
          let anchor := add_days (WeekPeriod.start_date p) 3 in
          let month := datetime.month anchor in
          if negb (WeekPeriod.month p =? month)
          then WeekPeriod.with_month month p else p)
       (week_period db))
    db.

(** The database a call of [ensure_period] that returns leaves. *)
Definition after_ensure_period (db : Db) (for_date : date) : Db :=
  match ensure_period db for_date with
  | Returned (db1, _) => db1
  | Raised _ => db
  end.

(** The keys of a list in the order in which they first occur. *)
Fixpoint first_occurrences (keys : list (Z * Z)) (seen : list (Z * Z))
    : list (Z * Z) :=
  match keys with
  | [] => []
  | k :: keys =>
      if bool_decide (k ∈ seen) then first_occurrences keys seen
      else k :: first_occurrences keys (k :: seen)
  end.

(** [periods_by_id[p.id] = p] on a dictionary kept as the list of its
    items in insertion order: a key that is there keeps its place. *)
Fixpoint dict_set (k : Z) (v : WeekPeriod.t) (items : list (Z * WeekPeriod.t))
    : list (Z * WeekPeriod.t) :=
  match items with
  | [] => [(k, v)]
  | (k', v') :: rest =>
      if k' =? k then (k, v) :: rest else (k', v') :: dict_set k v rest
  end.

(** [sorted(xs, key=...)] for an integer key: the stable sort, by
    insertion from the right. *)
Fixpoint insert_by_key {A} (key : A -> Z) (x : A) (l : list A) : list A :=
  match l with
  | [] => [x]
  | y :: l' =>
      if key x <=? key y then x :: l else y :: insert_by_key key x l'
  end.

Definition sorted_by_key {A} (key : A -> Z) (l : list A) : list A :=
  foldr (insert_by_key key) [] l.

(** The loop [while monday <= last_day: p = ensure_period(db, monday);
    periods_by_id[p.id] = p; monday += timedelta(days=7)], unrolled on a
    variant. *)
Fixpoint ensure_month_loop (variant : nat) (db : Db) (last_day monday : date)
    (periods_by_id : list (Z * WeekPeriod.t))
    : outcome (Db * list (Z * WeekPeriod.t)) :=
  match variant with
  | O => Returned (db, periods_by_id)
  | S variant' =>
      if monday <=? last_day then
        match ensure_period db monday with
        | Raised e => Raised e
        | Returned (db, p) =>
            ensure_month_loop variant' db last_day (add_days monday 7)
              (dict_set (WeekPeriod.id p) p periods_by_id)
        end
      else Returned (db, periods_by_id)
  end.

(** [ensure_month_periods(db, year=..., month=...)], on ordinals: the call
    for a month of the years 1 to 9999 but December 9999
    ([checked_ensure_month_periods_eq]). *)
Definition ensure_month_periods (db : Db) (year month : Z)
    : outcome (Db * list WeekPeriod.t) :=
  if (month <? 1) || (12 <? month)
  then Raised (ValueError "month must be in 1..12")
  else
    let first_day := mkdate year month 1 in
    let last_day := mkdate year month (days_in_month year month) in
    let monday := add_days first_day (- (isoweekday first_day - 1)) in
    match ensure_month_loop (Z.to_nat (last_day + 1 - monday)) db last_day
            monday [] with
    | Raised e => Raised e
    | Returned (db, periods_by_id) =>
        Returned (db, sorted_by_key WeekPeriod.start_date (snd <$> periods_by_id))
    end.

(** The Mondays the loop of [ensure_month_periods] goes through. *)
Fixpoint mondays_upto (variant : nat) (last_day monday : date) : list date :=
  match variant with
  | O => []
  | S variant' =>
      if monday <=? last_day
      then monday :: mondays_upto variant' last_day (add_days monday 7)
      else []
  end.

(** A database with the weeks of January 2024 but the first. *)
Definition db_january : Db :=
  after_ensure_period
    (after_ensure_period empty_db (mkdate 2024 1 17)) (mkdate 2024 1 10).

(** ** app/crud.py: the weekly plans *)

(** The constraint [uq_owner_period] and the primary key of the table
    [weekly_plan]. *)
Definition owner_period (p : WeeklyPlan.t) : Z * Z :=
  (WeeklyPlan.period_id p, WeeklyPlan.owner_user_id p).

Definition uq_owner_period (rows : list WeeklyPlan.t) : Prop :=
  NoDup (owner_period <$> rows).

Definition pk_weekly_plan (rows : list WeeklyPlan.t) : Prop :=
  NoDup (WeeklyPlan.id <$> rows).

(** [select(WeeklyPlan).where(and_(period_id == ..., owner_user_id == ...))],
    read with [db.scalar]. *)
Definition select_plan (rows : list WeeklyPlan.t) (period_id owner_user_id : Z)
    : option WeeklyPlan.t :=
  List.find (fun p => (WeeklyPlan.period_id p =? period_id)
                      && (WeeklyPlan.owner_user_id p =? owner_user_id)) rows.

Definition set_weekly_plan (rows : list WeeklyPlan.t) (db : Db) : Db :=
  mkDb (week_period db) rows (plan_item db) (operation_log db).

(** [ensure_weekly_plan(db, period_id=..., owner_user_id=...)], with no
    other session at work; the default SQLite database does not enforce the
    foreign keys of the new row. *)
Definition ensure_weekly_plan (db : Db) (period_id owner_user_id : Z)
    : Db * WeeklyPlan.t :=
  match select_plan (weekly_plan db) period_id owner_user_id with
  | Some existing => (db, existing)
  | None =>
      let plan :=
        WeeklyPlan.mk (next_id (WeeklyPlan.id <$> weekly_plan db))
          period_id owner_user_id "draft" in
      (set_weekly_plan (weekly_plan db ++ [plan]) db, plan)
  end.

(** [get_user_plans_by_period_ids(db, owner_user_id=..., period_ids=...)]:
    the dictionary [{p.period_id: p for p in rows}], in which a later row
    replaces an earlier one of the same period. *)
Definition get_user_plans_by_period_ids (db : Db) (owner_user_id : Z)
    (period_ids : list Z) : gmap Z WeeklyPlan.t :=
  match period_ids with
  | [] => ∅
  | _ :: _ =>
      let rows :=
        List.filter
          (fun p => (WeeklyPlan.owner_user_id p =? owner_user_id)
                    && bool_decide (WeeklyPlan.period_id p ∈ period_ids))
          (weekly_plan db) in
      fold_left (fun m p => <[ WeeklyPlan.period_id p := p ]> m) rows ∅
  end.

(** Two users with a plan each in period 1, the first submitted. *)
Definition db_plans : Db :=
  mkDb [] [WeeklyPlan.mk 1 1 1 "submitted"; WeeklyPlan.mk 2 1 2 "draft"] [] [].

(** ** app/scheduler.py: a tick, attempt by attempt *)

(** The attempt the loop body of [try_auto_send_week_plans] makes for a
    configuration, on a database with the plans of [db]: none unless the
    configuration is due and the user has a submitted plan in the period. *)
Definition attempt (now : datetime) (period : WeekPeriod.t) (db : Db)
    (entry : Z * EmailConfig) : option (Z * period_key) :=
  if due now (week_key period) (snd entry)
     && bool_decide (is_Some (select_submitted_plan db (WeekPeriod.id period)
                                (fst entry)))
  then Some (fst entry, week_key period)
  else None.

(** The schedule of a configuration: what the scheduler reads and never
    writes. *)
Definition schedule (cfg : EmailConfig) : bool * option Z * option hhmm_text :=
  (schedule_enabled cfg, schedule_weekday cfg, schedule_time cfg).

(** The log entry of an attempt is one of the two the scheduler writes. *)
Definition auto_send_entry (e : OperationLog.t) : Prop :=
  (OperationLog.action e = "email_auto_send"
   \/ OperationLog.action e = "email_auto_send_failed")
  /\ is_Some (OperationLog.object_id e).

(** Wednesday 2024-01-31 at 10:00: the user of [sample_world], without the
    plan. *)
Definition sample_world_no_plan : World :=
  mkWorld empty_db (email_configs sample_world) [].

Definition sample_now : datetime :=
  mkDatetime (mkdate 2024 1 31) (mkTime 10 0 0 0).

(** The plan of the user is submitted on Thursday and the scheduler ticks
    again on Friday and on Sunday. *)
Definition sample_late_events : list event :=
  [DbChange (world_db sample_world);
   Tick (mkDatetime (mkdate 2024 2 2) (mkTime 10 0 0 0)) (fun _ _ => true);
   SaveConfig 1 true 7 (HHMM 8 0);
   Tick (mkDatetime (mkdate 2024 2 4) (mkTime 10 0 0 0)) (fun _ _ => true)].

(** ** app/crud.py and app/exporter.py: the items of a plan *)

Definition set_plan_item (rows : list PlanItem.t) (db : Db) : Db :=
  mkDb (week_period db) (weekly_plan db) rows (operation_log db).

(** The primary key of the table [plan_item]. *)
Definition pk_plan_item (rows : list PlanItem.t) : Prop :=
  NoDup (PlanItem.id <$> rows).

(** [db.scalar(select(func.coalesce(func.max(PlanItem.sort_no), 0))
    .where(PlanItem.plan_id == plan_id)) or 0] *)
Definition max_sort_no (db : Db) (plan_id : Z) : Z :=
  match PlanItem.sort_no <$> plan_items db plan_id with
  | [] => 0
  | n :: ns => foldr Z.max n ns
  end.

(** [add_item(db, plan_id=..., ..., estimated_hours=...)], as far as the
    columns of the model go.  [column] is what the column
    [Numeric(6, 1)] gives back for the hours written to it. *)
Definition add_item (column : option float -> option float) (db : Db)
    (plan_id : Z) (estimated_hours : option float) : Db * PlanItem.t :=
  let max_sort := max_sort_no db plan_id in
  let item :=
    PlanItem.mk (next_id (PlanItem.id <$> plan_item db)) plan_id
      (column estimated_hours) (max_sort + 1) [] in
  (set_plan_item (plan_item db ++ [item]) db, item).

(** [db.get(models.PlanItem, item_id)] *)
Definition db_get_item (db : Db) (item_id : Z) : option PlanItem.t :=
  List.find (fun it => PlanItem.id it =? item_id) (plan_item db).

(** [delete_item(db, item_id=...)]; the details go with the item. *)
Definition delete_item (db : Db) (item_id : Z) : Db :=
  match db_get_item db item_id with
  | None => db
  | Some item =>
      set_plan_item
        (List.filter (fun it => negb (PlanItem.id it =? PlanItem.id item))
           (plan_item db))
        db
  end.

(** The items of every plan are in the order of their [sort_no]. *)
Definition in_sort_order (db : Db) : Prop :=
  forall plan_id,
    StronglySorted Z.lt (PlanItem.sort_no <$> plan_items db plan_id).

(** [_item_total_hours(item)] of the exporter. *)
Definition item_total_hours (item : PlanItem.t) : float :=
  match PlanItem.details item with
  | _ :: _ =>
      fold_left (fun total d => match PlanItemDetail.hours d with
                                | None => total
                                | Some h => add total h
                                end)
        (PlanItem.details item) zero
  | [] =>
      match PlanItem.estimated_hours item with
      | Some h => if truthy h then h else zero
      | None => zero
      end
  end.

(** The two totals of the last row of the sheet [export_plan_xlsx]
    writes: the loop over [sorted(plan.items, key=lambda x: x.sort_no)]. *)
Definition export_totals (db : Db) (plan : WeeklyPlan.t) : float * float :=
  let items :=
    sorted_by_key PlanItem.sort_no (plan_items db (WeeklyPlan.id plan)) in
  fold_left
    (fun '(total_est, total_sum) item =>
       let est := match PlanItem.estimated_hours item with
                  | Some h => h
                  | None => zero
                  end in
       let item_sum := item_total_hours item in
       (add total_est est, add total_sum item_sum))
    items (zero, zero).

(** ** app/web.py: the weeks of a month *)

(** [[p for p in month_periods_all if p.month == selected_month]] of the
    page of a user's plans. *)
Definition month_periods (month_periods_all : list WeekPeriod.t)
    (selected_month : Z) : list WeekPeriod.t :=
  List.filter (fun p => WeekPeriod.month p =? selected_month) month_periods_all.

(* ===================================================================== *)
(** * The limits of [datetime.date] *)
(* ===================================================================== *)

(** ** The range of [datetime.date] *)

(** [MINYEAR], [MAXYEAR] and [_MAXORDINAL], the ordinal of [date.max]
    (9999-12-31). *)
Definition MINYEAR : Z := 1.
Definition MAXYEAR : Z := 9999.
Definition MAXORDINAL : Z := 3652059.

(** The ordinals that are dates: 0001-01-01 to 9999-12-31. *)
Definition is_date (d : Z) : Prop := 1 <= d <= MAXORDINAL.

(** The dates whose ISO week lies within the range of dates: 0001-01-01 to
    9999-12-26, the last Sunday.  The week of 9999-12-27 would end on
    10000-01-02. *)
Definition whole_week (d : Z) : Prop := 1 <= d <= MAXORDINAL - 5.

#[global] Instance is_date_dec d : Decision (is_date d).
Proof. unfold is_date. apply _. Defined.

#[global] Instance whole_week_dec d : Decision (whole_week d).
Proof. unfold whole_week. apply _. Defined.

(** Calls in sequence: an exception raised by a call leaves the caller. *)
#[global] Instance outcome_ret : MRet outcome := fun A a => Returned a.
#[global] Instance outcome_bind : MBind outcome :=
  fun A B f x => match x with Returned a => f a | Raised e => Raised e end.

Module checked.

(** [d + timedelta(days=n)]: [date.__add__] raises [OverflowError] when
    the ordinal of the result is not in 1..[_MAXORDINAL]. *)
Definition add_days (d : date) (n : Z) : outcome date :=
  let o := d + n in
  if (0 <? o) && (o <=? MAXORDINAL) then Returned o else Raised OverflowError.

(** [iso_week_period(for_date)] *)
Definition iso_week_period (for_date : date) : outcome (Z * Z * date * date) :=
  let '(iso_year, iso_week, iso_weekday) := isocalendar for_date in
  monday ← add_days for_date (- (iso_weekday - 1));
  sunday ← add_days monday 6;
  mret (iso_year, iso_week, monday, sunday).

(** The loop [while cur <= end_date: ...; cur += timedelta(days=1)],
    unrolled on its variant [end_date + 1 - cur]: the step to the next day
    is taken after every day looked at, also after [end_date]. *)
Fixpoint workdays_loop (variant : nat) (holidays workdays : gset date)
    (end_date cur : date) (days : list date) : outcome (list date) :=
  match variant with
  | O => Returned days
  | S variant' =>
      if cur <=? end_date then
        let days := workdays_step holidays workdays cur days in
        cur ← add_days cur 1;
        workdays_loop variant' holidays workdays end_date cur days
      else Returned days
  end.

(** [workdays_in_range(start_date, end_date, *, holidays=None, workdays=None)] *)
Definition workdays_in_range (start_date end_date : date)
    (holidays workdays : option (gset date)) : outcome (list date) :=
  let holidays := default ∅ holidays in
  let workdays := default ∅ workdays in
  workdays_loop (Z.to_nat (end_date + 1 - start_date)) holidays workdays
    end_date start_date [].

(** [workday_range(start_date, end_date, *, holidays=None, workdays=None)] *)
Definition workday_range (start_date end_date : date)
    (holidays workdays : option (gset date))
    : outcome (option date * option date * Z) :=
  days ← workdays_in_range start_date end_date holidays workdays;
  match days with
  | [] => mret (None, None, 0)
  | d0 :: _ => mret (Some d0, Some (List.last days d0), Z.of_nat (length days))
  end.

(** [ensure_period(db, for_date)], run while other sessions commit the rows
    [concurrent] between the SELECT of this call and its COMMIT. *)
Definition ensure_period_among (concurrent : list WeekPeriod.t) (db : Db)
    (for_date : date) : outcome (Db * WeekPeriod.t) :=
  '(year, week_no, start_date, end_date) ← iso_week_period for_date;
  let existing := select_period (week_period db) year week_no in
  match existing with
  | Some existing =>
      anchor ← add_days start_date 3;
      let month := datetime.month anchor in
      if negb (WeekPeriod.month existing =? month) then
        let rows := update_month (WeekPeriod.id existing) month
                      (week_period db ++ concurrent) in
        Returned (set_week_period rows db, WeekPeriod.with_month month existing)
      else Returned (set_week_period (week_period db ++ concurrent) db, existing)
  | None =>
      anchor ← add_days start_date 3;
      let period :=
        WeekPeriod.mk 0 year (datetime.month anchor) week_no
          start_date end_date in
      match insert_period (week_period db ++ concurrent) period with
      | Returned (rows, period) => Returned (set_week_period rows db, period)
      | Raised e => Raised e
      end
  end.

(** [ensure_period(db, for_date)] with no other session at work. *)
Definition ensure_period (db : Db) (for_date : date)
    : outcome (Db * WeekPeriod.t) :=
  ensure_period_among [] db for_date.

(** The database a call of [ensure_period] leaves: a call that raises in
    [iso_week_period] has written nothing. *)
Definition after_ensure_period (db : Db) (for_date : date) : Db :=
  match ensure_period db for_date with
  | Returned (db1, _) => db1
  | Raised _ => db
  end.

(** An argument that the constructor of [date] can read as a C [int]. *)
Definition fits_int (n : Z) : bool := (- 2 ^ 31 <=? n) && (n <? 2 ^ 31).

(** [date(year, month, day)]: [OverflowError] for an argument that is no C
    [int], [ValueError] for a year outside [MINYEAR..MAXYEAR], a month
    outside 1..12 or a day the month does not have, in this order.  The
    text of the message is not kept. *)
Definition mkdate (year month day : Z) : outcome date :=
  if negb (fits_int year && fits_int month && fits_int day)
  then Raised OverflowError
  else if (year <? MINYEAR) || (MAXYEAR <? year)
  then Raised (ValueError "year is out of range")
  else if (month <? 1) || (12 <? month)
  then Raised (ValueError "month must be in 1..12")
  else if (day <? 1) || (days_in_month year month <? day)
  then Raised (ValueError "day is out of range for month")
  else Returned (datetime.mkdate year month day).

(** The loop [while monday <= last_day: p = ensure_period(db, monday);
    periods_by_id[p.id] = p; monday += timedelta(days=7)], unrolled on a
    variant. *)
Fixpoint ensure_month_loop (variant : nat) (db : Db) (last_day monday : date)
    (periods_by_id : list (Z * WeekPeriod.t))
    : outcome (Db * list (Z * WeekPeriod.t)) :=
  match variant with
  | O => Returned (db, periods_by_id)
  | S variant' =>
      if monday <=? last_day then
        '(db, p) ← ensure_period db monday;
        let periods_by_id := dict_set (WeekPeriod.id p) p periods_by_id in
        monday ← add_days monday 7;
        ensure_month_loop variant' db last_day monday periods_by_id
      else Returned (db, periods_by_id)
  end.

(** [ensure_month_periods(db, year=..., month=...)].  The rows that calls
    of [ensure_period] have committed before a later step raises stay in
    the table; the result [Raised] does not show them. *)
Definition ensure_month_periods (db : Db) (year month : Z)
    : outcome (Db * list WeekPeriod.t) :=
  first_day ← mkdate year month 1;
  last_day ← mkdate year month (days_in_month year month);
  monday ← add_days first_day (- (isoweekday first_day - 1));
  '(db, periods_by_id) ←
    ensure_month_loop (Z.to_nat (last_day + 1 - monday)) db last_day monday [];
  mret (db, sorted_by_key WeekPeriod.start_date (snd <$> periods_by_id)).

End checked.

(** ** The specification's words on every date *)

(** C2 as the specification states it: for every range of dates. *)
Definition workdays_in_range_every_range : Prop :=
  forall (start_date end_date : date) (holidays workdays : option (gset date)),
    is_date start_date -> is_date end_date ->
    exists days,
      checked.workdays_in_range start_date end_date holidays workdays
      = Returned days
      /\ forall d : date,
           d ∈ days <->
           start_date <= d <= end_date
           /\ effective_workday (default ∅ holidays) (default ∅ workdays) d.

(** C3 as the specification states it: for every date and every state of
    the store. *)
Definition ensure_period_twice_every_date : Prop :=
  forall (db : Db) (d : date),
    is_date d ->
    exists db1 p db2 p',
      checked.ensure_period db d = Returned (db1, p)
      /\ checked.ensure_period db1 d = Returned (db2, p')
      /\ WeekPeriod.id p' = WeekPeriod.id p
      /\ length (week_period db2) = length (week_period db1).

(** C4 as the specification states it: for every date, on a table whose
    rows were written from ISO weeks. *)
Definition ensure_period_month_every_date : Prop :=
  forall (db : Db) (d : date),
    is_date d -> Forall iso_week_row (week_period db) ->
    exists db1 p,
      checked.ensure_period db d = Returned (db1, p)
      /\ WeekPeriod.month p
         = datetime.month (add_days (WeekPeriod.start_date p) 3).

(** ** Sample plans for the two aggregation paths *)

(** Plan 1 with an item whose details carry 1.0 and 2.0 hours, followed by
    an item of 0.5 estimated hours and an item with one detail of 1.5
    hours. *)
Definition db_details_first : Db :=
  one_plan_db
    [PlanItem.mk 1 1 None 1
       [PlanItemDetail.mk 1 1 (Some (decimal 1 1)) 1;
        PlanItemDetail.mk 2 1 (Some (decimal 2 1)) 2];
     PlanItem.mk 2 1 (Some (decimal 5 10)) 2 [];
     PlanItem.mk 3 1 (Some (decimal 4 1)) 3
       [PlanItemDetail.mk 3 3 (Some (decimal 15 10)) 1]].

(** Plan 1 with an item of 1.0 estimated hours, followed by an item whose
    details carry 1.0 and 2.0 hours and an item whose details carry 0.5
    and 0.5 hours. *)
Definition db_details_later : Db :=
  one_plan_db
    [PlanItem.mk 1 1 (Some (decimal 1 1)) 1 [];
     PlanItem.mk 2 1 None 2
       [PlanItemDetail.mk 1 2 (Some (decimal 1 1)) 1;
        PlanItemDetail.mk 2 2 (Some (decimal 2 1)) 2];
     PlanItem.mk 3 1 None 3
       [PlanItemDetail.mk 3 3 (Some (decimal 5 10)) 1;
        PlanItemDetail.mk 4 3 (Some (decimal 5 10)) 2]].

(* ===================================================================== *)
(** * Properties: the calendar *)
(* ===================================================================== *)

Section Calendar.

Ltac euclid := Z.to_euclidean_division_equations; lia.

Lemma days_before_year_succ y :
  days_before_year (y + 1)
  = days_before_year y + 365 + (if is_leap y then 1 else 0).
Proof.
  unfold days_before_year, is_leap.
  replace (y + 1 - 1) with y by lia.
  destruct (y mod 4 =? 0) eqn:E4; destruct (y mod 100 =? 0) eqn:E100;
    destruct (y mod 400 =? 0) eqn:E400; simpl;
    rewrite ?Z.eqb_eq, ?Z.eqb_neq in *; euclid.
Qed.

(** The year [_ord2ymd] computes is the one the day falls in. *)
Lemma year_bounds d :
  days_before_year (year d) < d <= days_before_year (year d + 1).
Proof.
  unfold year, ord2ymd, DI400Y, DI100Y, DI4Y.
  set (n0 := d - 1).
  set (n400 := n0 / 146097). set (r1 := n0 mod 146097).
  set (n100 := r1 / 36524). set (r2 := r1 mod 36524).
  set (n4 := r2 / 1461). set (r3 := r2 mod 1461).
  set (n1 := r3 / 365). set (r4 := r3 mod 365).
  assert (n0 = 146097 * n400 + r1 /\ 0 <= r1 < 146097)
    by (subst n400 r1; split; [apply Z.div_mod|apply Z.mod_pos_bound]; lia).
  assert (r1 = 36524 * n100 + r2 /\ 0 <= r2 < 36524)
    by (subst n100 r2; split; [apply Z.div_mod|apply Z.mod_pos_bound]; lia).
  assert (r2 = 1461 * n4 + r3 /\ 0 <= r3 < 1461)
    by (subst n4 r3; split; [apply Z.div_mod|apply Z.mod_pos_bound]; lia).
  assert (r3 = 365 * n1 + r4 /\ 0 <= r4 < 365)
    by (subst n1 r4; split; [apply Z.div_mod|apply Z.mod_pos_bound]; lia).
  clearbody n400 r1 n100 r2 n4 r3 n1 r4.
  assert (0 <= n100 <= 4) by lia.
  assert (0 <= n4 <= 24) by lia.
  assert (0 <= n1 <= 4) by lia.
  destruct ((n1 =? 4) || (n100 =? 4)) eqn:E.
  - cbn [fst snd]. unfold days_before_year.
    apply orb_true_iff in E. rewrite !Z.eqb_eq in E. euclid.
  - apply orb_false_iff in E. rewrite !Z.eqb_neq in E.
    cbv zeta.
    match goal with
    | |- context [if ?a <? ?b then _ else _] => destruct (a <? b)
    end; cbn [fst snd]; unfold days_before_year; euclid.
Qed.

Lemma ymd2ord_jan1 y : ymd2ord y 1 1 = days_before_year y + 1.
Proof. unfold ymd2ord, days_before_month. simpl. lia. Qed.

(** The Monday of ISO week 1 is a Monday within three days of January 1st. *)
Lemma isoweek1monday_spec y :
  isoweek1monday y mod 7 = 1 /\
  days_before_year y - 2 <= isoweek1monday y <= days_before_year y + 4.
Proof.
  unfold isoweek1monday. rewrite ymd2ord_jan1.
  destruct (3 <? (days_before_year y + 1 + 6) mod 7) eqn:E;
    [apply Z.ltb_lt in E | apply Z.ltb_ge in E]; euclid.
Qed.

(** An ISO year has 52 or 53 whole weeks. *)
Lemma isoweek1monday_succ y :
  isoweek1monday (y + 1) = isoweek1monday y + 364 \/
  isoweek1monday (y + 1) = isoweek1monday y + 371.
Proof.
  pose proof (isoweek1monday_spec y) as [M1 B1].
  pose proof (isoweek1monday_spec (y + 1)) as [M2 B2].
  pose proof (days_before_year_succ y) as S.
  destruct (is_leap y); euclid.
Qed.

Lemma isoweek1monday_grows y (n : nat) :
  isoweek1monday y + 364 * Z.of_nat n <= isoweek1monday (y + Z.of_nat n).
Proof.
  induction n as [|n IH].
  - replace (y + Z.of_nat 0) with y by lia. lia.
  - replace (y + Z.of_nat (S n)) with (y + Z.of_nat n + 1) by lia.
    destruct (isoweek1monday_succ (y + Z.of_nat n)); lia.
Qed.

Lemma isoweek1monday_lt y y' :
  y < y' -> isoweek1monday (y + 1) <= isoweek1monday y'.
Proof.
  intros H.
  pose proof (isoweek1monday_grows (y + 1) (Z.to_nat (y' - (y + 1)))) as G.
  replace (y + 1 + Z.of_nat (Z.to_nat (y' - (y + 1)))) with y' in G by lia.
  lia.
Qed.

(** A day lies in the weeks of one ISO year only. *)
Lemma iso_year_unique d y y' :
  isoweek1monday y <= d < isoweek1monday (y + 1) ->
  isoweek1monday y' <= d < isoweek1monday (y' + 1) -> y = y'.
Proof.
  intros H H'.
  destruct (Z.lt_trichotomy y y') as [L|[E|L]]; [|exact E|];
    apply isoweek1monday_lt in L; lia.
Qed.

(** What [isocalendar] returns: the ISO year whose weeks hold the day,
    the week counted from the Monday of week 1, and the weekday. *)
Lemma isocalendar_spec d :
  let '(Y, W, D) := isocalendar d in
  isoweek1monday Y <= d < isoweek1monday (Y + 1) /\
  d = isoweek1monday Y + 7 * (W - 1) + (D - 1) /\
  1 <= D <= 7 /\ 1 <= W.
Proof.
  unfold isocalendar.
  pose proof (year_bounds d) as YB. set (y := year d) in *. clearbody y.
  pose proof (isoweek1monday_spec (y - 1)) as [Ma Ba].
  pose proof (isoweek1monday_spec y) as [Mb Bb].
  pose proof (isoweek1monday_spec (y + 1)) as [Mc Bc].
  pose proof (isoweek1monday_spec (y + 1 + 1)) as [Md Bd].
  pose proof (days_before_year_succ (y - 1)) as Sa.
  replace (y - 1 + 1) with y in Sa by lia.
  pose proof (days_before_year_succ y) as Sb.
  pose proof (days_before_year_succ (y + 1)) as Sc.
  pose proof (isoweek1monday_succ y) as Stb.
  destruct (is_leap (y - 1)), (is_leap y), (is_leap (y + 1)).
  all: destruct ((d - isoweek1monday y) / 7 <? 0) eqn:E1;
    [apply Z.ltb_lt in E1 | apply Z.ltb_ge in E1].
  all: try (destruct ((52 <=? (d - isoweek1monday y) / 7)
                      && (isoweek1monday (y + 1) <=? d)) eqn:E2;
    [apply andb_true_iff in E2; destruct E2 as [E2 E3];
     apply Z.leb_le in E2; apply Z.leb_le in E3
    |apply andb_false_iff in E2; rewrite Z.leb_gt, Z.leb_gt in E2]).
  all: cbv zeta; replace (y - 1 + 1) with y by lia.
  all: euclid.
Qed.

(** [iso_week_period]: the Monday is the Monday of the numbered week, the
    date lies in Monday..Sunday, and the week lies in the ISO year. *)
Lemma iso_week_period_spec d :
  let '(Y, W, monday, sunday) := iso_week_period d in
  monday = isoweek1monday Y + 7 * (W - 1) /\
  sunday = monday + 6 /\ monday <= d <= sunday /\
  isoweek1monday Y <= monday /\ monday + 7 <= isoweek1monday (Y + 1) /\
  1 <= W.
Proof.
  unfold iso_week_period, add_days.
  pose proof (isocalendar_spec d) as S.
  destruct (isocalendar d) as [[Y W] D].
  destruct S as ([L U] & E & HD & HW).
  pose proof (isoweek1monday_spec Y) as [M1 _].
  pose proof (isoweek1monday_spec (Y + 1)) as [M2 _].
  repeat split; try lia. euclid.
Qed.

(** The ISO weekday [isocalendar] returns is [isoweekday]. *)
Lemma isocalendar_weekday d : snd (isocalendar d) = isoweekday d.
Proof.
  pose proof (isocalendar_spec d) as S.
  destruct (isocalendar d) as [[Y W] D]. cbn [snd].
  destruct S as (_ & E & HD & _).
  pose proof (isoweek1monday_spec Y) as [M1 _].
  unfold isoweekday.
  destruct (d mod 7 =? 0) eqn:E0;
    [apply Z.eqb_eq in E0 | apply Z.eqb_neq in E0]; euclid.
Qed.

(** The (ISO year, ISO week) pair names one week: dates with the same
    pair have the same Monday. *)
Lemma key_of_date_monday d d' :
  key_of_date d = key_of_date d' ->
  snd (fst (iso_week_period d)) = snd (fst (iso_week_period d')).
Proof.
  unfold key_of_date.
  pose proof (iso_week_period_spec d) as S.
  pose proof (iso_week_period_spec d') as S'.
  destruct (iso_week_period d) as [[[Y W] mon] sun].
  destruct (iso_week_period d') as [[[Y' W'] mon'] sun'].
  cbn [fst snd]. intros [= -> ->]. lia.
Qed.

(** The days between two days of one ISO week are days of that week. *)
Lemma key_of_date_between d1 d2 d3 :
  d1 <= d2 <= d3 -> key_of_date d1 = key_of_date d3 ->
  key_of_date d2 = key_of_date d1.
Proof.
  unfold key_of_date. intros Hle.
  pose proof (iso_week_period_spec d1) as S1.
  pose proof (iso_week_period_spec d2) as S2.
  pose proof (iso_week_period_spec d3) as S3.
  destruct (iso_week_period d1) as [[[Y1 W1] mon1] sun1].
  destruct (iso_week_period d2) as [[[Y2 W2] mon2] sun2].
  destruct (iso_week_period d3) as [[[Y3 W3] mon3] sun3].
  intros [= <- <-].
  assert (Y2 = Y1) as -> by (apply (iso_year_unique d2); lia).
  f_equal. lia.
Qed.

End Calendar.

(* ===================================================================== *)
(** * Properties: the workday calculator *)
(* ===================================================================== *)

Section Workdays.

Context (holidays workdays : gset date).

(** One pass of the loop appends the day exactly when the rule of the
    specification admits it. *)
Lemma workdays_step_rule cur days :
  workdays_step holidays workdays cur days
  = days ++ filter (effective_workday holidays workdays) [cur].
Proof.
  unfold workdays_step. rewrite filter_cons, filter_nil.
  unfold effective_workday.
  destruct (bool_decide_reflect (cur ∈ workdays)) as [Hw|Hw].
  - rewrite decide_True by (left; exact Hw). reflexivity.
  - destruct (Z.leb_spec (isoweekday cur) 5) as [H5|H5];
      destruct (bool_decide_reflect (cur ∈ holidays)) as [Hh|Hh]; cbn.
    + rewrite decide_False by (intros [?|(? & ? & ?)]; tauto).
      symmetry. apply app_nil_r.
    + rewrite decide_True by (right; tauto). reflexivity.
    + rewrite decide_False by (intros [?|(? & ? & ?)]; tauto).
      symmetry. apply app_nil_r.
    + rewrite decide_False by (intros [?|(? & ? & ?)]; [tauto|lia]).
      symmetry. apply app_nil_r.
Qed.

(** The loop, started with its variant, walks the days [cur..end_date]. *)
Lemma workdays_loop_spec variant end_date : forall cur days,
  variant = Z.to_nat (end_date + 1 - cur) ->
  workdays_loop variant holidays workdays end_date cur days
  = days ++ filter (effective_workday holidays workdays)
              (seqZ cur (end_date + 1 - cur)).
Proof.
  induction variant as [|n IH]; intros cur days Hv; cbn [workdays_loop].
  - rewrite seqZ_nil by lia. rewrite filter_nil. symmetry. apply app_nil_r.
  - assert (cur <= end_date) as Hle by lia.
    apply Z.leb_le in Hle as ->.
    rewrite IH by (unfold add_days; lia).
    rewrite workdays_step_rule, (seqZ_cons cur) by lia.
    rewrite !(filter_cons _ cur), filter_nil.
    unfold add_days.
    replace (end_date + 1 - (cur + 1)) with (Z.pred (end_date + 1 - cur)) by lia.
    replace (cur + 1) with (Z.succ cur) by lia.
    destruct (decide (effective_workday holidays workdays cur)).
    + rewrite <- app_assoc. reflexivity.
    + rewrite app_nil_r. reflexivity.
Qed.

Lemma seqZ_sorted len : forall m, StronglySorted Z.lt (seqZ m len).
Proof.
  intros m. destruct (Z.le_gt_cases len 0) as [Hn|Hp].
  - rewrite seqZ_nil by lia. constructor.
  - rewrite <- (Z2Nat.id len) by lia.
    generalize (Z.to_nat len) as n. clear. intros n. revert m.
    induction n as [|n IH]; intros m.
    + rewrite seqZ_nil by lia. constructor.
    + rewrite seqZ_cons by lia.
      replace (Z.pred (Z.of_nat (S n))) with (Z.of_nat n) by lia.
      constructor; [apply IH|].
      apply Forall_forall. intros x Hx%elem_of_seqZ. lia.
Qed.

Lemma filter_sorted (P : Z -> Prop) `{!forall x, Decision (P x)} l :
  StronglySorted Z.lt l -> StronglySorted Z.lt (filter P l).
Proof.
  induction 1 as [|x l Hs IH Hx].
  - constructor.
  - rewrite filter_cons. destruct (decide (P x)); [|exact IH].
    constructor; [exact IH|].
    apply Forall_forall. intros y [_ Hy]%list_elem_of_filter.
    rewrite Forall_forall in Hx. auto.
Qed.

End Workdays.

(** The result of [workdays_in_range] is the range, filtered by the rule. *)
Lemma workdays_in_range_filter (start_date end_date : date)
    (holidays workdays : option (gset date)) :
  workdays_in_range start_date end_date holidays workdays
  = filter (effective_workday (default ∅ holidays) (default ∅ workdays))
      (seqZ start_date (end_date + 1 - start_date)).
Proof.
  unfold workdays_in_range.
  rewrite workdays_loop_spec by reflexivity. reflexivity.
Qed.

Lemma workdays_in_range_elem_of (start_date end_date : date)
    (holidays workdays : option (gset date)) (d : date) :
  d ∈ workdays_in_range start_date end_date holidays workdays <->
  start_date <= d <= end_date
  /\ effective_workday (default ∅ holidays) (default ∅ workdays) d.
Proof.
  rewrite workdays_in_range_filter, list_elem_of_filter, elem_of_seqZ.
  split; intros [? ?]; split; try assumption; lia.
Qed.

Lemma workdays_in_range_sorted (start_date end_date : date)
    (holidays workdays : option (gset date)) :
  StronglySorted Z.lt
    (workdays_in_range start_date end_date holidays workdays).
Proof.
  rewrite workdays_in_range_filter. apply filter_sorted, seqZ_sorted.
Qed.

(** On ordinals: [workdays_in_range] returns exactly the days of
    [start_date..end_date], in ascending order, that the day-by-day rule
    admits: a day in the workdays override set; or else a day whose ISO
    weekday is at most 5 and that is not in the holidays set. The override is
    looked at first, so it beats both the holiday set and the weekend. *)
Lemma workdays_in_range_spec (start_date end_date : date)
    (holidays workdays : option (gset date)) :
  let H := default ∅ holidays in
  let W := default ∅ workdays in
  let days := workdays_in_range start_date end_date holidays workdays in
  days = filter (effective_workday H W)
           (seqZ start_date (end_date + 1 - start_date))
  /\ (forall d : date,
        d ∈ days <->
        start_date <= d <= end_date /\
        (d ∈ W \/ ((d ∉ W) /\ (isoweekday d <= 5) /\ (d ∉ H))))
  /\ StronglySorted Z.lt days.
Proof.
  intros H W days. split; [apply workdays_in_range_filter|].
  split; [|apply workdays_in_range_sorted].
  intros d. apply workdays_in_range_elem_of.
Qed.

(** [days[-1]] on a list that is not empty. *)
Lemma last_with_default {A} (d0 d : A) (l : list A) :
  last (d0 :: l) = Some (List.last (d0 :: l) d).
Proof.
  revert d0. induction l as [|x l IH]; intros d0; [reflexivity|].
  rewrite last_cons_cons, (IH x). reflexivity.
Qed.

(** [workday_range] reads the two ends and the length of the sequence. *)
Lemma workday_range_endpoints (start_date end_date : date)
    (holidays workdays : option (gset date)) :
  let days := workdays_in_range start_date end_date holidays workdays in
  workday_range start_date end_date holidays workdays
  = (head days, last days, Z.of_nat (length days)).
Proof.
  intros days. unfold workday_range. fold days.
  destruct days as [|d0 l]; [reflexivity|].
  cbn [head]. f_equal. f_equal. f_equal.
  symmetry. apply last_with_default.
Qed.


(** The endpoints [workday_range] returns are the earliest and the latest
    effective workday of the range. *)
Lemma workday_range_extremes (start_date end_date : date)
    (holidays workdays : option (gset date)) (first last_ : date) (count : Z) :
  workday_range start_date end_date holidays workdays
  = (Some first, Some last_, count) ->
  let ok := effective_workday (default ∅ holidays) (default ∅ workdays) in
  ok first /\ ok last_ /\ start_date <= first <= last_ /\ last_ <= end_date
  /\ forall d, start_date <= d <= end_date -> ok d -> first <= d <= last_.
Proof.
  intros Hr ok. rewrite workday_range_endpoints in Hr.
  pose proof (workdays_in_range_elem_of start_date end_date holidays workdays)
    as Hin.
  pose proof (workdays_in_range_sorted start_date end_date holidays workdays)
    as Hs.
  fold ok in Hin.
  set (days := workdays_in_range start_date end_date holidays workdays) in *.
  injection Hr as Hh Hl _.
  apply head_Some in Hh as [l' Hd].
  apply last_Some in Hl as [l'' Hd'].
  assert (first ∈ days) as Hf by (rewrite Hd; left).
  assert (last_ ∈ days) as Hla
    by (rewrite Hd'; apply elem_of_app; right; left).
  assert (forall d, d ∈ days -> first <= d <= last_) as Hbetween.
  { intros d Hdin. split.
    - rewrite Hd in Hs, Hdin. apply StronglySorted_cons in Hs as [Hall _].
      apply elem_of_cons in Hdin as [->|Hdin]; [lia|].
      rewrite Forall_forall in Hall. specialize (Hall d Hdin). lia.
    - rewrite Hd' in Hs, Hdin.
      apply elem_of_app in Hdin as [Hdin|Hdin].
      + pose proof (StronglySorted_app_1_elem_of _ _ _ d last_ Hs Hdin) as Hlt.
        specialize (Hlt ltac:(left)). lia.
      + apply list_elem_of_singleton in Hdin as ->. lia. }
  apply Hin in Hf as [Hfr Hfo]. apply Hin in Hla as [Hlr Hlo].
  split; [exact Hfo|]. split; [exact Hlo|].
  split; [split; [lia|apply Hbetween; apply Hin; auto]|].
  split; [lia|].
  intros d Hd0 Hok. apply Hbetween, Hin. auto.
Qed.



(* ===================================================================== *)
(** * Properties: the period registry *)
(* ===================================================================== *)

Section PeriodRegistry.

Lemma same_week_key y w p : same_week y w p = true <-> week_key p = (y, w).
Proof.
  unfold same_week, week_key. rewrite andb_true_iff, !Z.eqb_eq.
  split; [intros [-> ->]; reflexivity | intros [= -> ->]; auto].
Qed.

Lemma select_period_Some rows y w p :
  select_period rows y w = Some p -> p ∈ rows /\ week_key p = (y, w).
Proof.
  unfold select_period. intros H. apply find_some in H as [Hin Hk].
  split; [apply list_elem_of_In, Hin | apply same_week_key, Hk].
Qed.

Lemma select_period_None rows y w :
  select_period rows y w = None ->
  existsb (same_week y w) rows = false /\ (y, w) ∉ week_key <$> rows.
Proof.
  unfold select_period. intros H. split.
  - apply not_true_is_false. intros (p & Hin & Hk)%existsb_exists.
    apply (find_none _ _ H) in Hin. congruence.
  - intros (p & Hk & Hin)%list_elem_of_fmap.
    apply list_elem_of_In in Hin. apply (find_none _ _ H) in Hin.
    symmetry in Hk. apply same_week_key in Hk. congruence.
Qed.

Lemma select_period_app rows rows' y w :
  select_period (rows ++ rows') y w
  = match select_period rows y w with
    | Some p => Some p
    | None => select_period rows' y w
    end.
Proof.
  unfold select_period. induction rows as [|p rows IH]; [reflexivity|].
  cbn. destruct (same_week y w p); [reflexivity | exact IH].
Qed.

(** Correcting the month of a row keeps every row under its key. *)
Lemma update_month_keys pk m rows :
  week_key <$> update_month pk m rows = week_key <$> rows.
Proof.
  unfold update_month. induction rows as [|p rows IH]; [reflexivity|].
  cbn. rewrite <- IH. f_equal.
  destruct (WeekPeriod.id p =? pk); reflexivity.
Qed.

Lemma select_period_update_month rows y w p m :
  select_period rows y w = Some p ->
  select_period (update_month (WeekPeriod.id p) m rows) y w
  = Some (WeekPeriod.with_month m p).
Proof.
  unfold select_period, update_month.
  induction rows as [|q rows IH]; [discriminate|]. cbn.
  assert (forall r, same_week y w (if WeekPeriod.id r =? WeekPeriod.id p
                                   then WeekPeriod.with_month m r else r)
                    = same_week y w r) as Hk
    by (intros r; destruct (_ =? _); reflexivity).
  rewrite Hk. unfold date in *.
  destruct (same_week y w q) eqn:E.
  - intros [= ->]. rewrite Z.eqb_refl. reflexivity.
  - exact IH.
Qed.

Lemma set_week_period_same db : set_week_period (week_period db) db = db.
Proof. destruct db. reflexivity. Qed.

(** With a unique key, the rows of a week are the one row the query finds. *)
Lemma uq_select_only rows y w p :
  uq_year_weekno rows -> select_period rows y w = Some p ->
  List.filter (same_week y w) rows = [p].
Proof.
  unfold uq_year_weekno, select_period.
  induction rows as [|q rows IH]; [discriminate|].
  rewrite fmap_cons, NoDup_cons. intros [Hq Hnd]. cbn.
  destruct (same_week y w q) eqn:E.
  - intros [= ->]. f_equal.
    apply same_week_key in E.
    clear IH Hnd. induction rows as [|r rows IH]; [reflexivity|].
    cbn. destruct (same_week y w r) eqn:Er.
    + exfalso. apply Hq. apply same_week_key in Er.
      rewrite fmap_cons, E, <- Er. left.
    + apply IH. intros Hin. apply Hq. rewrite fmap_cons. right. exact Hin.
  - intros H. apply IH; assumption.
Qed.

(** What [ensure_period] does, case by case, when no other session
    interferes: it always returns. *)
Lemma ensure_period_cases db d :
  let '(y, w, monday, sunday) := iso_week_period d in
  let m := datetime.month (add_days monday 3) in
  match select_period (week_period db) y w with
  | Some existing =>
      ensure_period db d
      = if WeekPeriod.month existing =? m then Returned (db, existing)
        else Returned
               (set_week_period
                  (update_month (WeekPeriod.id existing) m (week_period db)) db,
                WeekPeriod.with_month m existing)
  | None =>
      let period :=
        WeekPeriod.mk (next_id (WeekPeriod.id <$> week_period db)) y m w
          monday sunday in
      ensure_period db d
      = Returned (set_week_period (week_period db ++ [period]) db, period)
  end.
Proof.
  unfold ensure_period, ensure_period_among.
  destruct (iso_week_period d) as [[[y w] monday] sunday].
  rewrite app_nil_r.
  destruct (select_period (week_period db) y w) as [existing|] eqn:E.
  - destruct (WeekPeriod.month existing =? _); cbn [negb].
    + rewrite set_week_period_same. reflexivity.
    + reflexivity.
  - unfold insert_period. cbn [WeekPeriod.year WeekPeriod.week_no].
    apply select_period_None in E as [-> _]. reflexivity.
Qed.

(** [ensure_period] returns, with a row of the ISO week of the date. *)
Lemma ensure_period_returns db d :
  exists db1 p,
    ensure_period db d = Returned (db1, p) /\ week_key p = key_of_date d.
Proof.
  pose proof (ensure_period_cases db d) as H1. unfold key_of_date.
  destruct (iso_week_period d) as [[[y w] monday] sunday]. cbv zeta in H1.
  destruct (select_period (week_period db) y w) as [existing|] eqn:E.
  - destruct (select_period_Some _ _ _ _ E) as [_ Hk].
    destruct (WeekPeriod.month existing =? _);
      eexists _, _; (split; [exact H1|exact Hk]).
  - eexists _, _. split; [exact H1|reflexivity].
Qed.

End PeriodRegistry.

(** On ordinals: [ensure_period] is idempotent: called twice for the same date
    it returns the same period both times (the same row, so the same id), and
    the second call leaves the table as the first one left it; when the table
    satisfies its constraint [uq_year_weekno], it still does afterwards, and
    the returned period is the one row of its ISO week. *)
Lemma ensure_period_idempotent (db : Db) (d : date) :
  exists db1 p,
    ensure_period db d = Returned (db1, p)
    /\ ensure_period db1 d = Returned (db1, p)
    /\ week_key p = key_of_date d
    /\ p ∈ week_period db1
    /\ (uq_year_weekno (week_period db) ->
        uq_year_weekno (week_period db1)
        /\ List.filter (same_week (fst (key_of_date d)) (snd (key_of_date d)))
             (week_period db1) = [p]).
Proof.
  pose proof (ensure_period_cases db d) as H1.
  unfold key_of_date.
  destruct (iso_week_period d) as [[[y w] monday] sunday] eqn:Ei.
  cbv zeta in H1. cbn [fst snd].
  destruct (select_period (week_period db) y w) as [existing|] eqn:E.
  - destruct (select_period_Some _ _ _ _ E) as [Hin Hk].
    destruct (WeekPeriod.month existing =? datetime.month (add_days monday 3))
      eqn:Em.
    + exists db, existing. split; [exact H1|]. split; [exact H1|].
      split; [exact Hk|]. split; [exact Hin|].
      intros Hu. split; [exact Hu|]. eapply uq_select_only; eassumption.
    + set (m := datetime.month (add_days monday 3)) in *.
      set (rows1 := update_month (WeekPeriod.id existing) m (week_period db)).
      pose proof (select_period_update_month _ _ _ _ m E) as E1. fold rows1 in E1.
      exists (set_week_period rows1 db), (WeekPeriod.with_month m existing).
      split; [exact H1|]. split.
      * pose proof (ensure_period_cases (set_week_period rows1 db) d) as H2.
        rewrite Ei in H2. cbv zeta in H2. cbn [week_period set_week_period] in H2.
        rewrite E1 in H2. cbn [WeekPeriod.month WeekPeriod.with_month] in H2.
        fold m in H2. rewrite Z.eqb_refl in H2. exact H2.
      * split; [exact Hk|]. cbn [week_period set_week_period].
        split; [apply (select_period_Some _ _ _ _ E1)|].
        intros Hu.
        assert (uq_year_weekno rows1) as Hu1
          by (unfold uq_year_weekno, rows1; rewrite update_month_keys; exact Hu).
        split; [exact Hu1|]. eapply uq_select_only; eassumption.
  - set (m := datetime.month (add_days monday 3)) in *.
    set (period := WeekPeriod.mk (next_id (WeekPeriod.id <$> week_period db))
                     y m w monday sunday) in *.
    assert (select_period (week_period db ++ [period]) y w = Some period) as E1.
    { rewrite select_period_app, E. unfold select_period, same_week. cbn.
      rewrite !Z.eqb_refl. reflexivity. }
    exists (set_week_period (week_period db ++ [period]) db), period.
    split; [exact H1|]. split.
    + pose proof (ensure_period_cases
                    (set_week_period (week_period db ++ [period]) db) d) as H2.
      rewrite Ei in H2. cbv zeta in H2. cbn [week_period set_week_period] in H2.
      rewrite E1 in H2. cbn [WeekPeriod.month period] in H2.
      fold m in H2. rewrite Z.eqb_refl in H2. exact H2.
    + split; [reflexivity|]. cbn [week_period set_week_period].
      split; [apply elem_of_app; right; left|].
      intros Hu.
      assert (uq_year_weekno (week_period db ++ [period])) as Hu1.
      { unfold uq_year_weekno in *. rewrite fmap_app. apply NoDup_app.
        split; [exact Hu|]. split.
        - intros k Hk Hk'. apply list_elem_of_singleton in Hk' as ->.
          apply select_period_None in E as [_ E]. exact (E Hk).
        - apply NoDup_singleton. }
      split; [exact Hu1|]. eapply uq_select_only; eassumption.
Qed.

(** After a call for a date, a call for any date of the same ISO week
    returns the same period and changes nothing. *)
Lemma ensure_period_same_week (db db1 : Db) (p : WeekPeriod.t) (d d' : date) :
  ensure_period db d = Returned (db1, p) ->
  key_of_date d' = key_of_date d ->
  ensure_period db1 d' = Returned (db1, p).
Proof.
  intros H1 Hk.
  pose proof (ensure_period_cases db d) as C.
  pose proof (ensure_period_cases db1 d') as C'.
  pose proof (key_of_date_monday d' d Hk) as Hmon.
  unfold key_of_date in Hk.
  destruct (iso_week_period d) as [[[y w] monday] sunday].
  destruct (iso_week_period d') as [[[y' w'] monday'] sunday'].
  cbn [fst snd] in Hmon. injection Hk as -> ->. subst monday'.
  cbv zeta in C, C'.
  set (m := datetime.month (add_days monday 3)) in *.
  assert (select_period (week_period db1) y w = Some p
          /\ WeekPeriod.month p = m) as [E1 Em].
  { destruct (select_period (week_period db) y w) as [existing|] eqn:E.
    - destruct (WeekPeriod.month existing =? m) eqn:Eq;
        rewrite C in H1; injection H1 as <- <-.
      + split; [exact E|apply Z.eqb_eq, Eq].
      + split; [apply select_period_update_month, E|reflexivity].
    - rewrite C in H1. injection H1 as <- <-. split; [|reflexivity].
      cbn [week_period set_week_period].
      rewrite select_period_app, E. unfold select_period, same_week. cbn.
      rewrite !Z.eqb_refl. reflexivity. }
  rewrite E1, Em, Z.eqb_refl in C'. exact C'.
Qed.

(** On ordinals: the period [ensure_period] returns carries the month of the
    Thursday of the ISO week, that is of Monday + 3 days, whether the row is
    new or was found: a row found with another month is returned, and stored,
    with the month put right and everything else as it was. On rows written
    from ISO weeks the Monday is the [start_date] of the returned row. *)
Lemma ensure_period_month (db : Db) (d : date) :
  let '(y, w, monday, sunday) := iso_week_period d in
  let m := datetime.month (add_days monday 3) in
  exists db1 p,
    ensure_period db d = Returned (db1, p)
    /\ WeekPeriod.month p = m
    /\ select_period (week_period db1) y w = Some p
    /\ (forall existing,
          select_period (week_period db) y w = Some existing ->
          p = WeekPeriod.with_month m existing)
    /\ (select_period (week_period db) y w = None ->
        WeekPeriod.start_date p = monday /\ WeekPeriod.end_date p = sunday)
    /\ (Forall iso_week_row (week_period db) ->
        Forall iso_week_row (week_period db1)
        /\ WeekPeriod.month p
           = datetime.month (add_days (WeekPeriod.start_date p) 3)).
Proof.
  pose proof (ensure_period_cases db d) as H1.
  pose proof (key_of_date_monday d) as Hmon. unfold key_of_date in Hmon.
  destruct (iso_week_period d) as [[[y w] monday] sunday] eqn:Ei.
  cbv zeta in H1 |- *. cbn [fst snd] in Hmon.
  set (m := datetime.month (add_days monday 3)) in *.
  destruct (select_period (week_period db) y w) as [existing|] eqn:E.
  - destruct (select_period_Some _ _ _ _ E) as [Hin Hk].
    assert (Forall iso_week_row (week_period db) ->
            WeekPeriod.start_date existing = monday) as Hstart.
    { intros Hwf. rewrite Forall_forall in Hwf.
      destruct (Hwf _ Hin) as [d0 Hd0].
      specialize (Hmon d0). rewrite Hd0 in Hmon. cbn [fst snd] in Hmon.
      unfold week_key in Hk. injection Hk as Hy Hw.
      symmetry. apply Hmon. rewrite Hy, Hw. reflexivity. }
    destruct (WeekPeriod.month existing =? m) eqn:Em.
    + apply Z.eqb_eq in Em.
      exists db, existing. split; [exact H1|]. split; [exact Em|].
      split; [exact E|]. split.
      { intros ? [= <-]. destruct existing. cbn in Em. subst. reflexivity. }
      split; [discriminate|].
      intros Hwf. split; [exact Hwf|]. rewrite (Hstart Hwf). exact Em.
    + pose proof (select_period_update_month _ _ _ _ m E) as E1.
      eexists _, _. split; [exact H1|]. split; [reflexivity|].
      split; [exact E1|]. split; [intros ? [= <-]; reflexivity|].
      split; [discriminate|].
      intros Hwf. cbn [week_period set_week_period].
      split.
      * unfold update_month. apply Forall_forall. intros q Hq.
        apply list_elem_of_In, in_map_iff in Hq as (q0 & <- & Hq0).
        apply list_elem_of_In in Hq0. rewrite Forall_forall in Hwf.
        specialize (Hwf _ Hq0).
        destruct (WeekPeriod.id q0 =? WeekPeriod.id existing); exact Hwf.
      * cbn. rewrite (Hstart Hwf). reflexivity.
  - eexists _, _. split; [exact H1|]. split; [reflexivity|]. split.
    { cbn [week_period set_week_period]. rewrite select_period_app, E. unfold select_period, same_week. cbn.
      rewrite !Z.eqb_refl. reflexivity. }
    split; [discriminate|]. split; [intros _; split; reflexivity|].
    intros Hwf. cbn [week_period set_week_period]. split; [|reflexivity].
    apply Forall_app. split; [exact Hwf|].
    apply Forall_singleton. exists d. exact Ei.
Qed.

(** C6. [ensure_period] has no handler for the violation of
    [uq_year_weekno]: when its SELECT finds no row of the week and another
    session commits one before its own COMMIT, the [IntegrityError] of the
    commit is what the caller gets; there is no second query. *)
Theorem ensure_period_race_raises (concurrent : list WeekPeriod.t) (db : Db)
    (d : date) :
  select_period (week_period db) (fst (key_of_date d)) (snd (key_of_date d))
  = None ->
  (exists q, q ∈ concurrent /\ week_key q = key_of_date d) ->
  ensure_period_among concurrent db d = Raised IntegrityError.
Proof.
  unfold key_of_date, ensure_period_among.
  destruct (iso_week_period d) as [[[y w] monday] sunday]. cbn [fst snd].
  intros -> (q & Hq & Hk).
  unfold insert_period. cbn [WeekPeriod.year WeekPeriod.week_no].
  assert (existsb (same_week y w) (week_period db ++ concurrent) = true) as ->.
  { apply existsb_exists. exists q. split.
    - apply in_or_app. right. apply list_elem_of_In. exact Hq.
    - apply same_week_key. exact Hk. }
  reflexivity.
Qed.

(** C6, on the empty table: a second session commits week 5 of 2024 while
    the call for 2024-01-31 is between its SELECT and its COMMIT. *)
Lemma ensure_period_race_raises_witness :
  ensure_period_among
    [WeekPeriod.mk 1 2024 2 5 (mkdate 2024 1 29) (mkdate 2024 2 4)]
    empty_db (mkdate 2024 1 31)
  = Raised IntegrityError.
Proof.
  apply ensure_period_race_raises.
  - reflexivity.
  - eexists. split; [left|]. reflexivity.
Defined.

(* ===================================================================== *)
(** * Properties: float addition and negative zero *)
(* ===================================================================== *)

Section Floats.

Lemma digits2_pos_lower m : 2 ^ (Zpos (digits2_pos m) - 1) <= Zpos m.
Proof.
  induction m as [m IH|m IH|]; cbn [digits2_pos]; [| |reflexivity].
  all: rewrite Pos2Z.inj_succ.
  all: replace (Z.succ (Z.pos (digits2_pos m)) - 1)
         with (Z.succ (Z.pos (digits2_pos m) - 1)) by lia.
  all: rewrite Z.pow_succ_r by lia; lia.
Qed.

Lemma pow2_xI n : 2 ^ Z.pos n~1 = 2 * (2 ^ Z.pos n * 2 ^ Z.pos n).
Proof.
  replace (Z.pos n~1) with (1 + Z.pos n + Z.pos n) by lia.
  rewrite !Z.pow_add_r by lia. lia.
Qed.

Lemma pow2_xO n : 2 ^ Z.pos n~0 = 2 ^ Z.pos n * 2 ^ Z.pos n.
Proof.
  replace (Z.pos n~0) with (Z.pos n + Z.pos n) by lia.
  rewrite !Z.pow_add_r by lia. lia.
Qed.

(** One right shift halves the mantissa. *)
Lemma shr_1_halves mrs :
  0 <= shr_m mrs ->
  shr_m (shr_1 mrs) = shr_m mrs / 2 /\ 0 <= shr_m (shr_1 mrs).
Proof.
  destruct mrs as [m r s]. cbn [shr_m]. intros Hm.
  destruct m as [|p|p]; [| |lia].
  - cbn. split; [reflexivity|lia].
  - destruct p as [p|p|]; cbn [shr_1 shr_m].
    + split; [|lia]. rewrite Pos2Z.inj_xI.
      Z.to_euclidean_division_equations; lia.
    + split; [|lia]. rewrite Pos2Z.inj_xO.
      Z.to_euclidean_division_equations; lia.
    + split; [reflexivity|lia].
Qed.

Lemma shr_iter_divides n : forall mrs,
  0 <= shr_m mrs ->
  shr_m (SpecFloat.iter_pos shr_1 n mrs) = shr_m mrs / 2 ^ Zpos n
  /\ 0 <= shr_m (SpecFloat.iter_pos shr_1 n mrs).
Proof.
  induction n as [n IH|n IH|]; intros mrs Hm; cbn [SpecFloat.iter_pos].
  - destruct (shr_1_halves mrs Hm) as [E1 P1].
    destruct (IH _ P1) as [E2 P2]. destruct (IH _ P2) as [E3 P3].
    split; [|exact P3]. rewrite E3, E2, E1.
    rewrite !Z.div_div by lia. f_equal. symmetry. apply pow2_xI.
  - destruct (IH _ Hm) as [E2 P2]. destruct (IH _ P2) as [E3 P3].
    split; [|exact P3]. rewrite E3, E2.
    rewrite !Z.div_div by lia. f_equal. symmetry. apply pow2_xO.
  - destruct (shr_1_halves mrs Hm) as [E1 P1].
    split; [|exact P1]. rewrite E1. reflexivity.
Qed.

(** Aligning a positive mantissa on the format never shifts it away. *)
Lemma shr_fexp_positive (m : positive) e l :
  SpecFloat.emin prec emax <= e ->
  let '(mrs, e') := shr_fexp prec emax (Zpos m) e l in
  0 < shr_m mrs /\ SpecFloat.emin prec emax <= e'.
Proof.
  intros He. unfold shr_fexp, shr. cbn [Zdigits2].
  assert (shr_m (shr_record_of_loc (Z.pos m) l) = Zpos m) as Hm
    by (destruct l as [|[]]; reflexivity).
  pose proof (digits2_pos_lower m) as Hd.
  unfold fexp, SpecFloat.emin, prec, emax in *.
  destruct (Z.max (Z.pos (digits2_pos m) + e - 53) (3 - 1024 - 53) - e)
    as [|n|n] eqn:En.
  - rewrite Hm. lia.
  - destruct (shr_iter_divides n (shr_record_of_loc (Z.pos m) l)) as [E _];
      [rewrite Hm; lia|].
    rewrite E, Hm. split; [|lia].
    assert (2 ^ Z.pos n <= 2 ^ (Z.pos (digits2_pos m) - 1))
      by (apply Z.pow_le_mono_r; lia).
    assert (0 < 2 ^ Z.pos n) by (apply Z.pow_pos_nonneg; lia).
    apply Z.div_str_pos. lia.
  - rewrite Hm. lia.
Qed.

(** Rounding a non-zero value whose exponent is representable gives a
    finite value or an infinity of the same sign, never a zero. *)
Lemma binary_round_aux_nonzero s (m : positive) e l :
  SpecFloat.emin prec emax <= e ->
  match binary_round_aux prec emax s (Zpos m) e l with
  | S754_zero _ | S754_nan => False
  | S754_finite s' _ e' => s' = s /\ SpecFloat.emin prec emax <= e'
  | S754_infinity s' => s' = s
  end.
Proof.
  intros He. unfold binary_round_aux.
  pose proof (shr_fexp_positive m e l He) as H1.
  destruct (shr_fexp prec emax (Z.pos m) e l) as [mrs' e'].
  destruct H1 as [Hm' He'].
  set (m2 := round_nearest_even (shr_m mrs') (loc_of_shr_record mrs')).
  assert (0 < m2) as Hm2.
  { unfold m2, round_nearest_even.
    destruct (loc_of_shr_record mrs') as [|[]]; try lia.
    destruct (Z.even (shr_m mrs')); lia. }
  destruct m2 as [|p2|p2]; try lia.
  pose proof (shr_fexp_positive p2 e' loc_Exact He') as H2.
  destruct (shr_fexp prec emax (Z.pos p2) e' loc_Exact) as [mrs'' e''].
  destruct H2 as [Hm'' He''].
  destruct (shr_m mrs'') as [|p|p]; try lia.
  destruct (e'' <=? emax - prec); auto.
Qed.

Lemma binary_round_nonzero s (m : positive) e :
  SpecFloat.emin prec emax <= e ->
  match binary_round prec emax s m e with
  | S754_zero _ | S754_nan => False
  | S754_finite s' _ e' => s' = s /\ SpecFloat.emin prec emax <= e'
  | S754_infinity s' => s' = s
  end.
Proof.
  intros He. unfold binary_round, shl_align.
  destruct (fexp prec emax (Z.pos (digits2_pos m) + e) - e) as [|n|n] eqn:En;
    apply binary_round_aux_nonzero; try lia.
  unfold fexp in *. lia.
Qed.

Ltac sum_cases :=
  unfold binary_normalize;
  match goal with
  | |- context [match ?z with Z0 => _ | Zpos _ => _ | Zneg _ => _ end] =>
      destruct z as [|p|p]
  end.

Ltac rounded B :=
  match goal with
  | |- context [binary_round ?p ?e ?s ?m ?e'] =>
      pose proof (binary_round_nonzero s m e') as B;
      destruct (binary_round p e s m e')
  end.

(** Sums keep the exponent invariant. *)
Lemma add_fine x y : fine x -> fine y -> fine (add x y).
Proof.
  destruct x as [sx|sx| |sx mx ex], y as [sy|sy| |sy my ey];
    unfold add; cbn [SFadd fine]; intros Hx Hy; try exact I;
    try (destruct sx, sy; exact I); try assumption.
  sum_cases; [exact I| |]; rounded B; cbn [fine]; try exact I; apply B; lia.
Qed.

(** A sum is the negative zero only when both terms are. *)
Lemma add_neg_zero x y :
  fine x -> fine y -> add x y = S754_zero true ->
  x = S754_zero true /\ y = S754_zero true.
Proof.
  destruct x as [sx|sx| |sx mx ex], y as [sy|sy| |sy my ey];
    unfold add; cbn [SFadd fine]; intros Hx Hy H; try discriminate H.
  - destruct sx, sy; try discriminate H. auto.
  - destruct sx, sy; discriminate H.
  - revert H. sum_cases; [discriminate| |]; rounded B;
      try discriminate; exfalso; apply B; lia.
Qed.

Lemma add_zero_r x : x <> S754_zero true -> add x zero = x.
Proof. destruct x as [[]|[]| |]; intros H; try reflexivity. congruence. Qed.

Lemma add_any_zero_r x s : x <> S754_zero true -> add x (S754_zero s) = x.
Proof.
  destruct x as [[]|[]| |], s; intros H; try reflexivity; congruence.
Qed.

Lemma add_zero_l x : x <> S754_zero true -> add zero x = x.
Proof. destruct x as [[]|[]| |]; intros H; try reflexivity. congruence. Qed.

(** A binary64 value satisfies the exponent invariant. *)
Lemma is_float_fine x : is_float x = true -> fine x.
Proof.
  destruct x as [| | |s m e]; cbn; try (intros; exact I).
  unfold bounded, canonical_mantissa, fexp.
  intros [H _]%andb_true_iff. apply Z.eqb_eq in H.
  unfold SpecFloat.emin in *. lia.
Qed.

Lemma accumulator_zero : accumulator zero.
Proof. split; [exact I | discriminate]. Qed.

Lemma accumulator_add x y : accumulator x -> fine y -> accumulator (add x y).
Proof.
  intros [Hx Hn] Hy. split; [apply add_fine; assumption|].
  intros H. apply add_neg_zero in H as [? _]; auto.
Qed.

End Floats.

(* ===================================================================== *)
(** * Properties: the plan aggregation engine *)
(* ===================================================================== *)

Section Aggregation.

(** The dictionary comprehension seeds exactly the requested ids. *)
Lemma seed_lookup (plan_ids : list Z) (pid : Z) : forall m : gmap Z Stat,
  fold_left (fun m pid => <[ pid := zero_stat ]> m) plan_ids m !! pid
  = if bool_decide (pid ∈ plan_ids) then Some zero_stat else m !! pid.
Proof.
  induction plan_ids as [|q plan_ids IH]; intros m; cbn [fold_left].
  - rewrite bool_decide_eq_false_2 by apply not_elem_of_nil. reflexivity.
  - rewrite IH. destruct (decide (pid ∈ plan_ids)) as [Hin|Hin].
    + rewrite !bool_decide_eq_true_2; [reflexivity| |exact Hin].
      right. exact Hin.
    + rewrite (bool_decide_eq_false_2 _ Hin).
      destruct (decide (pid = q)) as [->|Hne].
      * rewrite lookup_insert_eq, bool_decide_eq_true_2 by left. reflexivity.
      * rewrite lookup_insert_ne by congruence.
        rewrite bool_decide_eq_false_2; [reflexivity|].
        intros [?|?]%elem_of_cons; contradiction.
Qed.

(** The loop over the items: the entry of a plan has counted the items of
    that plan, in their order, and nothing else. *)
Lemma stats_loop_lookup (pid : Z) (its : list PlanItem.t) :
  forall stats : gmap Z Stat,
  fold_left stats_step its stats !! pid
  = match List.filter (fun it => PlanItem.plan_id it =? pid) its with
    | [] => stats !! pid
    | mine => Some (fold_left count_item mine (default zero_stat (stats !! pid)))
    end.
Proof.
  induction its as [|it its IH]; intros stats; cbn [fold_left List.filter].
  - reflexivity.
  - rewrite IH.
    assert (stats_step stats it !! pid
            = if PlanItem.plan_id it =? pid
              then Some (count_item (default zero_stat (stats !! pid)) it)
              else stats !! pid) as ->.
    { unfold stats_step. destruct (Z.eqb_spec (PlanItem.plan_id it) pid) as [->|Hne].
      - rewrite lookup_insert_eq. reflexivity.
      - rewrite lookup_insert_ne by exact Hne. reflexivity. }
    destruct (PlanItem.plan_id it =? pid); [|reflexivity].
    cbn [default fold_left]. destruct (List.filter _ its); reflexivity.
Qed.

Lemma count_items_fields (its : list PlanItem.t) : forall s : Stat,
  fold_left count_item its s
  = mkStat (fold_left add (estimated_or_0 <$> its) (estimated s))
           (fold_left add (item_actual <$> its) (actual s))
           (items s + Z.of_nat (length its)).
Proof.
  induction its as [|it its IH]; intros s.
  - destruct s. cbn. f_equal. lia.
  - cbn [fold_left fmap list_fmap length]. rewrite IH. cbn. f_equal. lia.
Qed.

Lemma select_items_of_plan db plan_ids pid :
  pid ∈ plan_ids ->
  List.filter (fun it => PlanItem.plan_id it =? pid) (select_items db plan_ids)
  = plan_items db pid.
Proof.
  intros Hin. unfold select_items, plan_items.
  induction (plan_item db) as [|it l IH]; [reflexivity|]. cbn [List.filter].
  destruct (Z.eqb_spec (PlanItem.plan_id it) pid) as [E|Hne].
  - rewrite bool_decide_eq_true_2 by (rewrite E; exact Hin).
    cbn [List.filter]. rewrite <- E at 1. rewrite Z.eqb_refl, IH. reflexivity.
  - destruct (bool_decide _); cbn [List.filter]; [|exact IH].
    destruct (Z.eqb_spec (PlanItem.plan_id it) pid); [contradiction|exact IH].
Qed.

(** The entry of a requested plan, for any non-empty request. *)
Lemma get_plan_item_stats_lookup db plan_ids pid :
  plan_ids <> [] ->
  get_plan_item_stats db plan_ids !! pid
  = if bool_decide (pid ∈ plan_ids)
    then
      let its := plan_items db pid in
      Some (mkStat (round1 (fold_left add (estimated_or_0 <$> its) zero))
                   (round1 (fold_left add (item_actual <$> its) zero))
                   (Z.of_nat (length its)))
    else None.
Proof.
  intros Hne. unfold get_plan_item_stats.
  destruct plan_ids as [|q0 rest]; [contradiction|].
  set (plan_ids := q0 :: rest) in *.
  change (fold_left (fun m pid => <[ pid := zero_stat ]> m) rest
            (<[ q0 := zero_stat ]> ∅))
    with (fold_left (fun (m : gmap Z Stat) pid => <[ pid := zero_stat ]> m)
            plan_ids ∅).
  rewrite lookup_fmap, stats_loop_lookup, seed_lookup.
  destruct (decide (pid ∈ plan_ids)) as [Hin|Hin].
  - rewrite (bool_decide_eq_true_2 _ Hin), select_items_of_plan by exact Hin.
    cbv zeta. destruct (plan_items db pid) as [|it its] eqn:E.
    + reflexivity.
    + cbn [default]. rewrite count_items_fields. reflexivity.
  - rewrite (bool_decide_eq_false_2 _ Hin), lookup_empty.
    destruct (List.filter _ (select_items db plan_ids)) as [|it its] eqn:E;
      [reflexivity|exfalso].
    assert (In it (List.filter (fun it => PlanItem.plan_id it =? pid)
                     (select_items db plan_ids))) as Hit
      by (rewrite E; left; reflexivity).
    apply filter_In in Hit as [Hit Hp]. apply Z.eqb_eq in Hp.
    unfold select_items in Hit. apply filter_In in Hit as [_ Hq].
    apply bool_decide_eq_true in Hq. congruence.
Qed.

(** The loop of the code skips a null where the specification adds 0: on
    floats the two are the same sum. *)
Lemma add_detail_hours_null_as_0 (details : list PlanItemDetail.t) :
  forall acc,
  accumulator acc ->
  forallb (fun d => hours_ok (PlanItemDetail.hours d)) details = true ->
  add_detail_hours acc details
  = fold_left (fun acc d => add acc (default zero (PlanItemDetail.hours d)))
      details acc.
Proof.
  unfold add_detail_hours.
  induction details as [|d details IH]; intros acc Hacc Hok; [reflexivity|].
  cbn [forallb] in Hok. apply andb_true_iff in Hok as [Hd Hok].
  cbn [fold_left]. destruct (PlanItemDetail.hours d) as [h|]; cbn [default].
  - apply IH; [|exact Hok]. apply accumulator_add; [exact Hacc|].
    apply is_float_fine, Hd.
  - rewrite add_zero_r by apply Hacc. apply IH; assumption.
Qed.

(** The hours an item adds in the code are [itemActualHours] of the
    specification. *)
Lemma item_actual_spec (it : PlanItem.t) :
  item_ok it = true -> item_actual it = itemActualHours it.
Proof.
  unfold item_ok, item_actual, itemActualHours, has_details, estimated_or_0.
  intros [_ Hok]%andb_true_iff.
  destruct (PlanItem.details it) as [|d details] eqn:E; [reflexivity|].
  apply add_detail_hours_null_as_0; [apply accumulator_zero | exact Hok].
Qed.

End Aggregation.

(** C5. For a non-empty list of plan ids, every requested id has an entry
    in the result of [get_plan_item_stats].  The entry has accumulated,
    over the items of the plan in their order and starting from 0.0:
    [estimated_hours] (a null as 0) into [estimated], the hours of the item
    into [actual], and 1 into [items]; the two sums are then rounded to one
    decimal.  The hours of an item are [itemActualHours] of the
    specification when its entries are floats.  A requested plan with no
    item has the entry (0.0, 0.0, 0). *)
Theorem get_plan_item_stats_spec (db : Db) (plan_ids : list Z) (pid : Z) :
  plan_ids <> [] -> pid ∈ plan_ids ->
  let its := plan_items db pid in
  get_plan_item_stats db plan_ids !! pid
  = Some (mkStat (round1 (fold_left add (estimated_or_0 <$> its) zero))
                 (round1 (fold_left add (item_actual <$> its) zero))
                 (Z.of_nat (length its)))
  /\ (Forall (fun it => item_ok it = true) its ->
      item_actual <$> its = itemActualHours <$> its)
  /\ (its = [] ->
      get_plan_item_stats db plan_ids !! pid = Some (mkStat zero zero 0)).
Proof.
  intros Hne Hin its.
  pose proof (get_plan_item_stats_lookup db plan_ids pid Hne) as E.
  rewrite (bool_decide_eq_true_2 _ Hin) in E. cbv zeta in E. fold its in E.
  split; [exact E|]. split.
  - intros Hok. apply Forall_fmap_ext. eapply Forall_impl; [exact Hok|].
    intros it Hit. apply item_actual_spec, Hit.
  - intros Hnil. rewrite E, Hnil. reflexivity.
Qed.

(** C5, on plan 1 with one item (estimate 2.0, details 2.5 and null) and
    plan 2 with no item: the entries are (2.0, 2.5, 1) and (0.0, 0.0, 0). *)
Lemma get_plan_item_stats_spec_witness :
  get_plan_item_stats db_two_plans [1; 2] !! 1
  = Some (mkStat (decimal 2 1) (decimal 25 10) 1)
  /\ get_plan_item_stats db_two_plans [1; 2] !! 2 = Some (mkStat zero zero 0).
Proof.
  split.
  - destruct (get_plan_item_stats_spec db_two_plans [1; 2] 1) as (E & _ & _).
    + discriminate.
    + vm_compute. left.
    + rewrite E. vm_compute. reflexivity.
  - destruct (get_plan_item_stats_spec db_two_plans [1; 2] 2) as (_ & _ & E).
    + discriminate.
    + right. left.
    + apply E. reflexivity.
Defined.

(** C1. [get_plan_item_stats] rounds with the builtin [round], which
    rounds the exact binary value with ties to even, not half up: a plan
    whose hours are the float 3.05 is reported with 3.0, not 3.1 (the
    float 3.05 lies below the decimal 3.05), and a plan whose hours are
    0.25, exactly half-way, is reported with 0.2 where rounding half up
    gives 0.3.  The same happens with hours of one decimal: the estimates
    140737488355328.3 and 140737488355328.9 add up to the float
    281474976710657.25, reported as 281474976710657.2 where rounding half
    up gives 281474976710657.3. *)
Theorem get_plan_item_stats_rounding :
  get_plan_item_stats db_3_05 [1] !! 1
  = Some (mkStat (decimal 30 10) (decimal 30 10) 1)
  /\ decimal 30 10 <> decimal 31 10
  /\ get_plan_item_stats db_0_25 [1] !! 1
     = Some (mkStat (decimal 2 10) (decimal 2 10) 1)
  /\ round1_half_up (decimal 25 100) = decimal 3 10
  /\ decimal 2 10 <> decimal 3 10
  /\ estimated <$> (get_plan_item_stats db_tenths [1] !! 1)
     = Some (decimal 2814749767106572 10)
  /\ round1_half_up
       (add (add zero (decimal 1407374883553283 10))
          (decimal 1407374883553289 10))
     = decimal 2814749767106573 10
  /\ decimal 2814749767106572 10 <> decimal 2814749767106573 10.
Proof.
  split; [vm_compute; reflexivity|].
  split; [vm_compute; discriminate|].
  split; [vm_compute; reflexivity|].
  split; [vm_compute; reflexivity|].
  split; [vm_compute; discriminate|].
  split; [vm_compute; reflexivity|].
  split; [vm_compute; reflexivity|].
  vm_compute; discriminate.
Qed.

Section TwoPaths.

Lemma add_detail_hours_fold acc details :
  add_detail_hours acc details
  = fold_left add (omap PlanItemDetail.hours details) acc.
Proof.
  unfold add_detail_hours. revert acc.
  induction details as [|d details IH]; intros acc; [reflexivity|].
  cbn [fold_left omap list_omap]. destruct (PlanItemDetail.hours d); apply IH.
Qed.

Lemma detail_hours_float it h :
  item_ok it = true -> h ∈ detail_hours it -> is_float h = true.
Proof.
  unfold item_ok, detail_hours. intros [_ Hok]%andb_true_iff Hin.
  apply list_elem_of_omap in Hin as (d & Hd & Hh).
  rewrite forallb_forall in Hok. apply list_elem_of_In in Hd.
  specialize (Hok d Hd). rewrite Hh in Hok. exact Hok.
Qed.

Lemma estimated_or_0_fine it : item_ok it = true -> fine (estimated_or_0 it).
Proof.
  unfold item_ok, estimated_or_0. intros [Hok _]%andb_true_iff.
  destruct (PlanItem.estimated_hours it) as [h|]; [|exact I].
  destruct (truthy h); [apply is_float_fine, Hok | exact I].
Qed.

(** One item with at most one detail that carries hours: adding its hours
    one by one to the total, as [sum_plan_hours] does, is adding its
    subtotal, as [get_plan_item_stats] does. *)
Lemma item_step_regroup total it :
  accumulator total -> item_ok it = true ->
  (length (detail_hours it) <= 1)%nat ->
  (if has_details it then add_detail_hours total (PlanItem.details it)
   else add total (estimated_or_0 it))
  = add total (item_actual it)
  /\ accumulator (add total (item_actual it)).
Proof.
  intros Hacc Hok Hlen. unfold item_actual.
  destruct (has_details it).
  - rewrite !add_detail_hours_fold. fold (detail_hours it).
    pose proof (detail_hours_float it) as Hfl.
    destruct (detail_hours it) as [|h [|h' hs]]; cbn [fold_left];
      [| |cbn in Hlen; lia].
    + rewrite add_zero_r by apply Hacc. split; [reflexivity|exact Hacc].
    + assert (fine h) as Hh by (apply is_float_fine, Hfl; [exact Hok|left]).
      destruct h as [[]| | |]; cbn [add zero SFadd]; fold zero;
        try (split; [reflexivity|apply accumulator_add; assumption]).
      rewrite (add_zero_r total), (add_any_zero_r total true) by apply Hacc.
      split; [reflexivity|exact Hacc].
  - split; [reflexivity|].
    apply accumulator_add; [exact Hacc|apply estimated_or_0_fine, Hok].
Qed.

Lemma items_regroup its : forall total,
  accumulator total ->
  Forall (fun it => item_ok it = true /\ (length (detail_hours it) <= 1)%nat)
    its ->
  fold_left (fun total item =>
               if has_details item
               then add_detail_hours total (PlanItem.details item)
               else add total (estimated_or_0 item)) its total
  = fold_left add (item_actual <$> its) total.
Proof.
  induction its as [|it its IH]; intros total Hacc Hall; [reflexivity|].
  apply Forall_cons in Hall as [[Hok Hlen] Hall].
  cbn [fold_left fmap list_fmap].
  destruct (item_step_regroup total it Hacc Hok Hlen) as [-> Hacc'].
  apply IH; assumption.
Qed.

(** [sum_plan_hours] adds the terms of the items one by one. *)
Lemma sum_plan_hours_flat db p :
  get_plan db (WeeklyPlan.id p) = Some p ->
  sum_plan_hours db (WeeklyPlan.id p)
  = fold_left add (concat (item_terms <$> plan_items db (WeeklyPlan.id p))) zero.
Proof.
  unfold get_plan, sum_plan_hours. intros ->.
  generalize zero as total.
  induction (plan_items db (WeeklyPlan.id p)) as [|it its IH]; intros total;
    [reflexivity|].
  cbn [fold_left fmap list_fmap concat]. rewrite fold_left_app, IH.
  f_equal. unfold item_terms, detail_hours.
  destruct (has_details it); [apply add_detail_hours_fold|reflexivity].
Qed.

(** [get_plan_item_stats] adds the terms of each item first and the
    subtotals of the items then. *)
Lemma item_actual_subtotal it :
  item_actual it = fold_left add (item_terms it) zero.
Proof.
  unfold item_actual, item_terms, detail_hours.
  destruct (has_details it); [apply add_detail_hours_fold|].
  cbn [fold_left]. symmetry. apply add_zero_l.
  unfold estimated_or_0. destruct (PlanItem.estimated_hours it) as [h|];
    [|discriminate].
  destruct h as [s| | |]; cbn [truthy]; discriminate.
Qed.

End TwoPaths.

(** C10, as stated, fails: with an item of 1e16 estimated hours and an
    item with two details of 1.0 hours, [sum_plan_hours] adds 1.0 twice to
    1e16 and stays at 1e16, while [get_plan_item_stats] adds the subtotal
    2.0 and reports 10000000000000002.0. *)
Lemma actual_is_rounded_sum_fails :
  get_plan db_regrouped 1 = Some (WeeklyPlan.mk 1 1 1 "draft")
  /\ sum_plan_hours db_regrouped 1 = decimal 10000000000000000 1
  /\ round1 (sum_plan_hours db_regrouped 1) = decimal 10000000000000000 1
  /\ actual <$> (get_plan_item_stats db_regrouped [1] !! 1)
     = Some (decimal 10000000000000002 1)
  /\ ~ actual_is_rounded_sum.
Proof.
  split; [reflexivity|]. split; [vm_compute; reflexivity|].
  split; [vm_compute; reflexivity|]. split; [vm_compute; reflexivity|].
  intros H.
  specialize (H db_regrouped (WeeklyPlan.mk 1 1 1 "draft") eq_refl).
  vm_compute in H. discriminate H.
Qed.

(* ===================================================================== *)
(** * Properties: plans that are not there *)
(* ===================================================================== *)

(** C7, as stated, fails: for a plan id that is not in the store
    [sum_plan_hours] returns the float 0.0, not None. *)
Lemma not_found_is_absent_fails :
  db_get_plan empty_db 7 = None
  /\ result_of_sum_plan_hours empty_db 7 = RFloat zero
  /\ result_of_sum_plan_hours empty_db 7 <> RNone
  /\ ~ not_found_is_absent.
Proof.
  split; [reflexivity|]. split; [reflexivity|]. split; [discriminate|].
  intros H. destruct (H empty_db 7 eq_refl) as [_ H2]. discriminate H2.
Qed.

(** C7, amended. For a plan id that is not in the store, [get_plan] and
    [set_plan_status] return None and change nothing; [sum_plan_hours]
    returns 0.0 and [get_plan_item_stats] an entry for the id, which is the
    all-zero entry when no item carries the id: a zero result, not an
    absent one.  None of the four raises. *)
Theorem not_found_results (db : Db) (plan_id : Z) :
  db_get_plan db plan_id = None ->
  result_of_get_plan db plan_id = RNone
  /\ (forall status,
        result_of_set_plan_status db plan_id status = RNone
        /\ fst (set_plan_status db plan_id status) = db)
  /\ result_of_sum_plan_hours db plan_id = RFloat zero
  /\ is_Some (get_plan_item_stats db [plan_id] !! plan_id)
  /\ (plan_items db plan_id = [] ->
      get_plan_item_stats db [plan_id] !! plan_id = Some zero_stat).
Proof.
  intros H.
  unfold result_of_get_plan, result_of_set_plan_status,
    result_of_sum_plan_hours, get_plan, set_plan_status, sum_plan_hours.
  rewrite H. split; [reflexivity|]. split; [intros; split; reflexivity|].
  split; [reflexivity|].
  rewrite get_plan_item_stats_lookup by discriminate.
  rewrite bool_decide_eq_true_2 by left. cbv zeta.
  split; [eexists; reflexivity|]. intros ->. reflexivity.
Qed.

(** C7 amended, on the empty store and the plan id 7. *)
Lemma not_found_results_witness :
  result_of_get_plan empty_db 7 = RNone
  /\ result_of_sum_plan_hours empty_db 7 = RFloat zero
  /\ get_plan_item_stats empty_db [7] !! 7 = Some zero_stat.
Proof.
  destruct (not_found_results empty_db 7 eq_refl) as (H1 & _ & H3 & _ & H5).
  split; [exact H1|]. split; [exact H3|]. apply H5. reflexivity.
Defined.

(* ===================================================================== *)
(** * Properties: the scheduler *)
(* ===================================================================== *)

Section Scheduler.

Context (now : datetime) (period : WeekPeriod.t)
        (smtp : WeeklyPlan.t -> EmailConfig -> bool).

Let key : period_key := week_key period.

(** The loop body: the guards, then the attempt and the write of the key. *)
Lemma auto_send_user_due w user_id cfg :
  auto_send_user now period smtp w (user_id, cfg)
  = if due now key cfg then
      match select_submitted_plan (world_db w) (WeekPeriod.id period) user_id with
      | Some plan =>
          mkWorld
            (add_operation_log (world_db w)
               (OperationLog.mk
                  (if smtp plan cfg then "email_auto_send"
                   else "email_auto_send_failed")
                  (Some (WeeklyPlan.id plan)) key user_id))
            (<[ user_id := mark_sent key now cfg ]> (email_configs w))
            (sent w ++ [(user_id, key)])
      | None =>
          mkWorld (world_db w)
            (<[ user_id := mark_sent key now cfg ]> (email_configs w))
            (sent w)
      end
    else w.
Proof.
  unfold auto_send_user, due, key, week_key.
  destruct (schedule_enabled cfg); [|reflexivity]. cbn [negb andb].
  destruct (parse_hhmm _) as [send_at|]; [|reflexivity].
  destruct (isoweekday (date_of now) =? _); [|reflexivity]. cbn [negb andb].
  destruct (time_ltb (time_of now) send_at); [reflexivity|]. cbn [negb andb].
  destruct (bool_decide _); reflexivity.
Qed.

(** One pass of the loop body: what is sent and what is saved. *)
Lemma auto_send_user_effect w entry :
  let w' := auto_send_user now period smtp w entry in
  (sent w' = sent w \/
   (sent w' = sent w ++ [(fst entry, key)] /\ due now key (snd entry) = true))
  /\ email_configs w' = save_if_due now key (email_configs w) entry.
Proof.
  destruct entry as [user_id cfg]. cbv zeta.
  rewrite auto_send_user_due. unfold save_if_due. cbn [fst snd].
  destruct (due now key cfg); [|auto].
  destruct (select_submitted_plan _ _ _); cbn [sent email_configs]; auto.
Qed.

(** The whole loop over the configurations read at the start of the tick. *)
Lemma auto_send_loop (entries : list (Z * EmailConfig)) : forall w,
  let w' := fold_left (auto_send_user now period smtp) entries w in
  exists new,
    sent w' = sent w ++ new
    /\ (forall x, x ∈ new ->
          snd x = key /\
          exists cfg, (fst x, cfg) ∈ entries /\ due now key cfg = true)
    /\ (NoDup entries.*1 -> NoDup new)
    /\ email_configs w'
       = fold_left (save_if_due now key) entries (email_configs w).
Proof.
  induction entries as [|entry entries IH]; intros w; cbn [fold_left].
  - exists []. rewrite app_nil_r. split; [reflexivity|].
    split; [intros x Hx; inversion Hx|]. split; [intros _; constructor|].
    reflexivity.
  - destruct (auto_send_user_effect w entry) as [Hs Hc].
    cbv zeta in Hs, Hc.
    destruct (IH (auto_send_user now period smtp w entry)) as
      (new & Hsent & Hnew & Hnd & Hcfg).
    rewrite Hc in Hcfg.
    destruct Hs as [Hs|[Hs Hdue]]; rewrite Hs in Hsent.
    + exists new. split; [exact Hsent|]. split; [|split; [|exact Hcfg]].
      * intros x Hx. destruct (Hnew x Hx) as (Hk & cfg & Hin & Hd).
        split; [exact Hk|]. exists cfg. split; [right; exact Hin|exact Hd].
      * rewrite fmap_cons, NoDup_cons. intros [_ H]. auto.
    + exists ((fst entry, key) :: new).
      split; [rewrite Hsent, <- app_assoc; reflexivity|].
      split; [|split; [|exact Hcfg]].
      * intros x [->|Hx]%elem_of_cons.
        -- split; [reflexivity|]. exists (snd entry).
           split; [destruct entry; cbn [fst snd]; left|exact Hdue].
        -- destruct (Hnew x Hx) as (Hk & cfg & Hin & Hd).
           split; [exact Hk|]. exists cfg. split; [right; exact Hin|exact Hd].
      * rewrite fmap_cons, NoDup_cons. intros [Hnotin H].
        apply NoDup_cons. split; [|auto].
        intros Hx. destruct (Hnew _ Hx) as (_ & cfg & Hin & _).
        apply Hnotin. cbn [fst] in Hin.
        apply list_elem_of_fmap. exists (fst entry, cfg). split; [reflexivity|exact Hin].
Qed.

(** The directory after the loop: a configuration that was due carries
    the key, the others are as they were. *)
Lemma save_loop_lookup (entries : list (Z * EmailConfig)) :
  NoDup entries.*1 ->
  forall (cfgs : gmap Z EmailConfig) user_id,
  fold_left (save_if_due now key) entries cfgs !! user_id
  = match (list_to_map entries : gmap Z EmailConfig) !! user_id with
    | Some cfg =>
        if due now key cfg then Some (mark_sent key now cfg)
        else cfgs !! user_id
    | None => cfgs !! user_id
    end.
Proof.
  induction entries as [|[u0 c0] entries IH]; intros Hnd cfgs user_id.
  - reflexivity.
  - rewrite fmap_cons, NoDup_cons in Hnd. destruct Hnd as [Hnotin Hnd].
    cbn [fold_left list_to_map foldr]. rewrite IH by exact Hnd.
    cbn [fst snd] in *. unfold save_if_due at 1 2. cbn [fst snd].
    destruct (decide (user_id = u0)) as [->|Hne].
    + rewrite lookup_insert_eq.
      rewrite (not_elem_of_list_to_map_1 _ _ Hnotin).
      destruct (due now key c0); [rewrite lookup_insert_eq|]; reflexivity.
    + rewrite lookup_insert_ne by congruence.
      destruct (list_to_map entries !! user_id) as [cfg|];
        destruct (due now key c0); rewrite ?lookup_insert_ne by congruence;
        reflexivity.
Qed.

End Scheduler.

(** One tick: the attempts it makes are for the key of the day, each for a
    user whose configuration did not hold that key, and holds it after the
    tick, whatever the mail server did; the key of every other user is as
    it was. *)
Lemma tick_effect (now : datetime) (smtp : WeeklyPlan.t -> EmailConfig -> bool)
    (w : World) :
  let K := key_of_date (date_of now) in
  let w' := try_auto_send_week_plans now smtp w in
  exists new,
    sent w' = sent w ++ new
    /\ NoDup new
    /\ (forall user_id k,
          (user_id, k) ∈ new ->
          k = K /\ last_key w user_id <> Some K /\ last_key w' user_id = Some K)
    /\ (forall user_id,
          last_key w' user_id = last_key w user_id
          \/ last_key w' user_id = Some K).
Proof.
  cbv zeta. unfold try_auto_send_week_plans.
  destruct (ensure_period_returns (world_db w) (date_of now))
    as (db1 & period & -> & Hkey).
  set (w1 := mkWorld db1 (email_configs w) (sent w)).
  destruct (auto_send_loop now period smtp (map_to_list (email_configs w)) w1)
    as (new & Hsent & Hnew & Hnd & Hcfg).
  cbv zeta in Hsent, Hcfg. cbn [sent email_configs w1] in Hsent, Hcfg.
  rewrite Hkey in *.
  set (K := key_of_date (date_of now)) in *.
  assert (forall user_id,
            fold_left (save_if_due now K) (map_to_list (email_configs w))
              (email_configs w) !! user_id
            = match email_configs w !! user_id with
              | Some cfg => if due now K cfg then Some (mark_sent K now cfg)
                            else Some cfg
              | None => None
              end) as Hlook.
  { intros user_id.
    pose proof (save_loop_lookup now period (map_to_list (email_configs w))
                  (NoDup_fst_map_to_list _) (email_configs w) user_id) as H.
    rewrite Hkey in H. fold K in H.
    rewrite list_to_map_to_list in H. rewrite H.
    destruct (email_configs w !! user_id) as [cfg|] eqn:E; [|reflexivity].
    destruct (due now K cfg); reflexivity. }
  assert (forall cfg, due now K cfg = true -> last_auto_sent_key cfg <> Some K)
    as Hguard.
  { intros cfg. unfold due. intros H.
    destruct (schedule_enabled cfg); [|discriminate]. cbn [andb] in H.
    destruct (parse_hhmm _); [|discriminate].
    apply andb_true_iff in H as [_ H]. apply negb_true_iff in H.
    apply bool_decide_eq_false in H. exact H. }
  exists new. split; [exact Hsent|]. split.
  { apply Hnd, NoDup_fst_map_to_list. }
  split.
  - intros user_id k Hin.
    destruct (Hnew _ Hin) as (Hk & cfg & Hcfgin & Hdue). cbn [fst snd] in *.
    apply elem_of_map_to_list in Hcfgin.
    split; [exact Hk|]. unfold last_key.
    rewrite Hcfg, Hlook, Hcfgin, Hdue. cbn. split; [|reflexivity].
    apply Hguard, Hdue.
  - intros user_id. unfold last_key. rewrite Hcfg, Hlook.
    destruct (email_configs w !! user_id) as [cfg|]; [|left; reflexivity].
    destruct (due now K cfg); [right|left]; reflexivity.
Qed.

(** Saving the schedule from the web layer keeps the key of every user. *)
Lemma save_config_last_key w user_id enabled weekday at_time u :
  last_key (step w (SaveConfig user_id enabled weekday at_time)) u
  = last_key w u.
Proof.
  unfold last_key, step, user_email_config_save. cbn [email_configs].
  destruct (decide (u = user_id)) as [->|Hne].
  - rewrite lookup_insert_eq. reflexivity.
  - rewrite lookup_insert_ne by congruence. reflexivity.
Qed.

(** The guard survives every event that comes in time order. *)
Lemma guarded_step (past : list date) (w : World) (ev : event) :
  guarded past w ->
  (forall d d', d ∈ past -> d' ∈ tick_dates [ev] -> d <= d') ->
  guarded (past ++ tick_dates [ev]) (step w ev).
Proof.
  intros [Hnd Hinv] Hord. destruct ev as [now smtp|user_id en wd at_|db].
  - cbn [tick_dates omap list_omap] in *. cbn [step].
    set (d := date_of now) in *.
    assert (forall d0, d0 ∈ past -> d0 <= d) as Hle
      by (intros d0 H0; apply Hord; [exact H0|left]).
    destruct (tick_effect now smtp w) as (new & Hsent & Hndnew & Hnew & Hkeys).
    cbv zeta in Hsent, Hnew, Hkeys. fold d in Hnew, Hkeys.
    set (w' := try_auto_send_week_plans now smtp w) in *.
    set (K := key_of_date d) in *.
    (* an attempt recorded earlier for the week of this tick holds the key *)
    assert (forall u, (u, K) ∈ sent w -> last_key w u = Some K) as Hheld.
    { intros u Hu. destruct (Hinv u K Hu) as (d1 & H1 & Hk1 & [Hl|Hc]);
        [exact Hl|exfalso].
      destruct Hc as (d2 & H2 & H12 & Hk2). apply Hk2.
      rewrite <- Hk1. apply (key_of_date_between d1 d2 d).
      - split; [exact H12|apply Hle, H2].
      - exact Hk1. }
    split.
    + rewrite Hsent. apply NoDup_app. split; [exact Hnd|]. split; [|exact Hndnew].
      intros [u k] Hold Hnewin.
      destruct (Hnew u k Hnewin) as (-> & Hne & _).
      apply Hne, Hheld, Hold.
    + intros u k. rewrite Hsent. intros [Hold|Hnewin]%elem_of_app.
      * destruct (Hinv u k Hold) as (d1 & H1 & Hk1 & Hcase).
        exists d1. split; [apply elem_of_app; left; exact H1|].
        split; [exact Hk1|].
        destruct (decide (last_key w' u = Some k)) as [Hyes|Hno];
          [left; exact Hyes|right].
        destruct (Hkeys u) as [Hsame|Hset].
        -- rewrite Hsame in Hno. destruct Hcase as [Hl|(d2 & H2 & H12 & Hk2)];
             [contradiction|].
           exists d2. split; [apply elem_of_app; left; exact H2|]. auto.
        -- exists d. split; [apply elem_of_app; right; left|].
           split; [apply Hle, H1|]. fold K. congruence.
      * destruct (Hnew u k Hnewin) as (-> & _ & Hset).
        exists d. split; [apply elem_of_app; right; left|].
        split; [reflexivity|left; exact Hset].
  - cbn [tick_dates omap list_omap]. rewrite app_nil_r.
    split; [exact Hnd|]. intros u k Hin. cbn [step sent] in Hin.
    rewrite save_config_last_key. apply Hinv, Hin.
  - cbn [tick_dates omap list_omap]. rewrite app_nil_r.
    split; [exact Hnd|]. exact Hinv.
Qed.

Lemma guarded_run (evs : list event) : forall past w,
  guarded past w ->
  StronglySorted Z.le (past ++ tick_dates evs) ->
  guarded (past ++ tick_dates evs) (run w evs).
Proof.
  induction evs as [|ev evs IH]; intros past w Hg Hs.
  - cbn. rewrite app_nil_r. exact Hg.
  - change (ev :: evs) with ([ev] ++ evs) in *.
    unfold tick_dates in *. rewrite omap_app in *. fold (tick_dates [ev]) in *.
    fold (tick_dates evs) in *. rewrite app_assoc in *.
    unfold run. rewrite fold_left_app. cbn [fold_left]. fold (run (step w ev) evs).
    apply IH; [|exact Hs].
    apply guarded_step; [exact Hg|].
    intros d d' Hd Hd'.
    apply StronglySorted_app_1_l in Hs.
    apply (StronglySorted_app_1_elem_of _ _ _ d d' Hs Hd Hd').
Qed.

(** C8. In a run of the system (ticks of the scheduler in time order,
    saves of the schedule from the web layer and changes of the database
    in between) no send attempt is made twice for the same user and period
    key.  At a tick the attempts are made only for users whose stored key
    is not the key of the tick, and after the tick the stored key of each
    of them is that key, whether the mail server accepted the mail or
    raised. *)
Theorem auto_send_at_most_once (w0 : World) (evs : list event) :
  sent w0 = [] -> chronological evs ->
  NoDup (sent (run w0 evs))
  /\ (forall now smtp w,
        exists new,
          sent (try_auto_send_week_plans now smtp w) = sent w ++ new
          /\ forall user_id k,
               (user_id, k) ∈ new ->
               k = key_of_date (date_of now)
               /\ last_key w user_id <> Some k
               /\ last_key (try_auto_send_week_plans now smtp w) user_id
                  = Some k).
Proof.
  intros H0 Hs. split.
  - assert (guarded [] w0) as Hg.
    { split; rewrite H0; [constructor|]. intros u k Hin. inversion Hin. }
    apply (guarded_run evs [] w0 Hg Hs).
  - intros now smtp w.
    destruct (tick_effect now smtp w) as (new & Hsent & _ & Hnew & _).
    exists new. split; [exact Hsent|].
    intros u k Hin. destruct (Hnew u k Hin) as (-> & H1 & H2). auto.
Qed.

(** C8, on a Wednesday with two ticks after 09:00: the mail server fails
    at the first tick, the user saves the schedule, and the second tick
    sends nothing; the one attempt is the one of the first tick. *)
Lemma auto_send_at_most_once_witness :
  NoDup (sent (run sample_world sample_events))
  /\ sent (run sample_world sample_events) = [(1, (2024, 5))].
Proof.
  split; [|vm_compute; reflexivity].
  apply (auto_send_at_most_once sample_world sample_events).
  - reflexivity.
  - unfold chronological. cbn. repeat constructor; lia.
Defined.

(* ===================================================================== *)
(** * Further properties of the sources *)
(* ===================================================================== *)

Section CalendarDays.

Ltac euclid := Z.to_euclidean_division_equations; lia.

Lemma month_and_day_spec leapyear n :
  0 <= n <= 364 ->
  let '(m, dd) := month_and_day leapyear n in
  1 <= m <= 12
  /\ 1 <= dd <= DAYS_IN_MONTH m + (if (m =? 2) && leapyear then 1 else 0)
  /\ DAYS_BEFORE_MONTH m + (if (2 <? m) && leapyear then 1 else 0) + dd = n + 1.
Proof.
  intros Hn.
  assert (forallb (month_and_day_ok leapyear) (seqZ 0 365) = true) as A
    by (destruct leapyear; vm_compute; reflexivity).
  rewrite forallb_forall in A.
  specialize (A n). unfold month_and_day_ok in A.
  destruct (month_and_day leapyear n) as [m dd].
  rewrite !andb_true_iff, !Z.leb_le, Z.eqb_eq in A.
  assert (In n (seqZ 0 365)) as I by (apply list_elem_of_In, elem_of_seqZ; lia).
  specialize (A I). tauto.
Qed.

(** [_ord2ymd] inverts [_ymd2ord] and returns a month and a day of the calendar. *)
Lemma ord2ymd_spec d :
  1 <= month d <= 12
  /\ 1 <= day d <= days_in_month (year d) (month d)
  /\ ymd2ord (year d) (month d) (day d) = d.
Proof.
  unfold year, month, day, ord2ymd, DI400Y, DI100Y, DI4Y.
  set (n0 := d - 1).
  set (n400 := n0 / 146097). set (r1 := n0 mod 146097).
  set (n100 := r1 / 36524). set (r2 := r1 mod 36524).
  set (n4 := r2 / 1461). set (r3 := r2 mod 1461).
  set (n1 := r3 / 365). set (r4 := r3 mod 365).
  assert (n0 = 146097 * n400 + r1 /\ 0 <= r1 < 146097)
    by (subst n400 r1; split; [apply Z.div_mod|apply Z.mod_pos_bound]; lia).
  assert (r1 = 36524 * n100 + r2 /\ 0 <= r2 < 36524)
    by (subst n100 r2; split; [apply Z.div_mod|apply Z.mod_pos_bound]; lia).
  assert (r2 = 1461 * n4 + r3 /\ 0 <= r3 < 1461)
    by (subst n4 r3; split; [apply Z.div_mod|apply Z.mod_pos_bound]; lia).
  assert (r3 = 365 * n1 + r4 /\ 0 <= r4 < 365)
    by (subst n1 r4; split; [apply Z.div_mod|apply Z.mod_pos_bound]; lia).
  clearbody n400 r1 n100 r2 n4 r3 n1 r4.
  assert (0 <= n100 <= 4) by lia.
  assert (0 <= n4 <= 24) by lia.
  assert (0 <= n1 <= 4) by lia.
  destruct ((n1 =? 4) || (n100 =? 4)) eqn:E.
  - cbn [fst snd]. unfold days_in_month, ymd2ord, days_before_month.
    cbn [DAYS_IN_MONTH DAYS_BEFORE_MONTH Z.eqb Z.ltb Z.compare Pos.compare Pos.compare_cont andb].
    apply orb_true_iff in E. rewrite !Z.eqb_eq in E.
    assert (is_leap (n400 * 400 + 1 + n100 * 100 + n4 * 4 + n1 - 1) = true) as ->.
    { unfold is_leap. rewrite andb_true_iff, orb_true_iff, negb_true_iff,
        Z.eqb_neq, !Z.eqb_eq. euclid. }
    unfold days_before_year. split; [lia|]. split; [simpl; lia|]. euclid.
  - apply orb_false_iff in E. rewrite !Z.eqb_neq in E.
    cbv zeta.
    set (leapyear := (n1 =? 3) && (negb (n4 =? 24) || (n100 =? 3))).
    set (y := n400 * 400 + 1 + n100 * 100 + n4 * 4 + n1).
    pose proof (month_and_day_spec leapyear r4 ltac:(lia)) as S.
    unfold month_and_day in S. cbv zeta in S.
    assert (is_leap y = leapyear) as L.
    { apply eq_true_iff_eq. unfold is_leap, leapyear, y.
      rewrite !andb_true_iff, !orb_true_iff, !negb_true_iff, !Z.eqb_neq,
        !Z.eqb_eq. euclid. }
    assert (days_before_year y = n0 - r4) as Y by (unfold days_before_year, y; euclid).
    match goal with
    | |- context [if ?a <? ?b then _ else _] => destruct (a <? b)
    end; cbn [fst snd] in *; unfold days_in_month, ymd2ord, days_before_month;
      rewrite L, Y; lia.
Qed.


Lemma days_before_year_mono y y' :
  y <= y' -> days_before_year y <= days_before_year y'.
Proof. unfold days_before_year. intros. euclid. Qed.

Lemma days_in_year y :
  days_before_month y 12 + days_in_month y 12
  = days_before_year (y + 1) - days_before_year y.
Proof.
  rewrite days_before_year_succ. unfold days_before_month, days_in_month.
  simpl. destruct (is_leap y); lia.
Qed.

Lemma month_cases m :
  1 <= m <= 12 ->
  m = 1 \/ m = 2 \/ m = 3 \/ m = 4 \/ m = 5 \/ m = 6 \/ m = 7 \/ m = 8
  \/ m = 9 \/ m = 10 \/ m = 11 \/ m = 12.
Proof. lia. Qed.

Ltac months H :=
  apply month_cases in H;
  repeat (destruct H as [H|H]); subst.

(** The months of a year follow one another. *)
Lemma days_before_month_succ y m :
  1 <= m < 12 ->
  days_before_month y (m + 1) = days_before_month y m + days_in_month y m.
Proof.
  intros H. assert (1 <= m <= 12) as H' by lia. months H'; try lia;
    unfold days_before_month, days_in_month; simpl; destruct (is_leap y); lia.
Qed.

Lemma days_in_month_bounds y m : 1 <= m <= 12 -> 28 <= days_in_month y m <= 31.
Proof.
  intros H. months H; unfold days_in_month; simpl; destruct (is_leap y); lia.
Qed.

Lemma days_before_month_mono y m m' :
  1 <= m -> m < m' <= 12 ->
  days_before_month y m + days_in_month y m <= days_before_month y m'.
Proof.
  intros H1 H2. assert (1 <= m <= 12) as A by lia.
  assert (1 <= m' <= 12) as A' by lia.
  months A; months A'; try lia;
    unfold days_before_month, days_in_month; simpl; destruct (is_leap y); lia.
Qed.

Lemma days_before_month_bounds y m :
  1 <= m <= 12 ->
  0 <= days_before_month y m
  /\ days_before_month y m + days_in_month y m
     <= days_before_year (y + 1) - days_before_year y.
Proof.
  intros H. rewrite days_before_year_succ.
  months H; unfold days_before_month, days_in_month; simpl;
    destruct (is_leap y); lia.
Qed.

(** [_ymd2ord] is one-to-one on the dates of the calendar. *)
Lemma ymd2ord_inj y m dd y' m' dd' :
  1 <= m <= 12 -> 1 <= dd <= days_in_month y m ->
  1 <= m' <= 12 -> 1 <= dd' <= days_in_month y' m' ->
  ymd2ord y m dd = ymd2ord y' m' dd' ->
  y = y' /\ m = m' /\ dd = dd'.
Proof.
  unfold ymd2ord. intros Hm Hd Hm' Hd' E.
  pose proof (days_before_month_bounds y m Hm).
  pose proof (days_before_month_bounds y' m' Hm').
  assert (y = y') as <-.
  { destruct (Z.lt_trichotomy y y') as [L|[L|L]]; [|exact L|].
    - pose proof (days_before_year_mono (y + 1) y' ltac:(lia)). lia.
    - pose proof (days_before_year_mono (y' + 1) y ltac:(lia)). lia. }
  split; [reflexivity|].
  assert (m = m') as <-.
  { destruct (Z.lt_trichotomy m m') as [L|[L|L]]; [|exact L|].
    - pose proof (days_before_month_mono y m m'). lia.
    - pose proof (days_before_month_mono y m' m). lia. }
  split; [reflexivity|lia].
Qed.

Lemma ord2ymd_inv d y m dd :
  ord2ymd d = (y, m, dd) ->
  1 <= m <= 12 /\ 1 <= dd <= days_in_month y m /\ ymd2ord y m dd = d.
Proof.
  intros E. pose proof (ord2ymd_spec d) as S.
  unfold year, month, day in S. rewrite E in S. exact S.
Qed.

(** [_ord2ymd] reads back the year, month and day a date was made of. *)
Lemma ord2ymd_ymd2ord y m dd :
  1 <= m <= 12 -> 1 <= dd <= days_in_month y m ->
  ord2ymd (ymd2ord y m dd) = (y, m, dd).
Proof.
  intros Hm Hd.
  generalize (ord2ymd_inv (ymd2ord y m dd)).
  generalize (ord2ymd (ymd2ord y m dd)). intros [[y' m'] dd'] S.
  destruct (S y' m' dd' eq_refl) as (Hm' & Hd' & E).
  apply ymd2ord_inj in E as (Ey & Em & Ed); try assumption.
  congruence.
Qed.

(** Two days of one month, less than a year apart, are days of one year,
    as far apart as their day numbers. *)
Lemma same_month_apart d k y m dd y' dd' :
  0 <= k < 300 ->
  ord2ymd d = (y, m, dd) -> ord2ymd (d + k) = (y', m, dd') ->
  y' = y /\ dd' = dd + k.
Proof.
  intros Hk E1 E2.
  apply ord2ymd_inv in E1 as (M & D & E).
  apply ord2ymd_inv in E2 as (_ & D' & E').
  unfold ymd2ord in *.
  pose proof (days_before_month_bounds y m M).
  pose proof (days_before_month_bounds y' m M).
  pose proof (days_in_month_bounds y m M).
  pose proof (days_in_month_bounds y' m M).
  assert (days_before_month y m - 1 <= days_before_month y' m
          <= days_before_month y m + 1) as B
    by (unfold days_before_month;
        destruct ((2 <? m) && is_leap y), ((2 <? m) && is_leap y'); lia).
  pose proof (days_before_year_succ y) as Sy.
  pose proof (days_before_year_succ y') as Sy'.
  assert (y' = y) as ->.
  { destruct (Z.lt_trichotomy y y') as [L|[L|L]]; [|auto|].
    - pose proof (days_before_year_mono (y + 1) y' ltac:(lia)).
      destruct (is_leap y); lia.
    - pose proof (days_before_year_mono (y' + 1) y ltac:(lia)).
      destruct (is_leap y'); lia. }
  split; [reflexivity|lia].
Qed.

Lemma same_month_days d k :
  0 <= k < 300 -> month (d + k) = month d ->
  year (d + k) = year d /\ day (d + k) = day d + k.
Proof.
  unfold year, month, day. intros Hk.
  generalize (same_month_apart d k).
  generalize (ord2ymd (d + k)). generalize (ord2ymd d).
  intros [[y m] dd] [[y' m'] dd'] S. cbn [fst snd]. intros ->.
  exact (S y m dd y' dd' Hk eq_refl eq_refl).
Qed.

End CalendarDays.

Section CalendarExtras.

Ltac euclid := Z.to_euclidean_division_equations; lia.

Lemma day_bounds d : 1 <= day d <= 31.
Proof.
  destruct (ord2ymd_spec d) as (M & D & _).
  pose proof (days_in_month_bounds (year d) (month d) M).
  generalize dependent (day d). intros. lia.
Qed.

(** A day is one of the first seven of its month exactly when the day a
    week before lies in another month. *)
Lemma first_week_of_month d : day d <= 7 <-> month (d - 7) <> month d.
Proof.
  split.
  - intros H E.
    destruct (same_month_days (d - 7) 7 ltac:(lia)) as [_ D].
    + replace (d - 7 + 7) with d by lia. symmetry. exact E.
    + replace (d - 7 + 7) with d in D by lia.
      pose proof (day_bounds (d - 7)).
      generalize dependent (day (d - 7)). generalize dependent (day d).
      intros. lia.
  - intros N. destruct (Z.le_gt_cases (day d) 7) as [L|G]; [exact L|].
    exfalso. apply N. clear N.
    unfold month, day in *.
    generalize (ord2ymd_inv d). generalize dependent (ord2ymd d).
    intros [[y m] dd]. cbn [fst snd]. intros G S.
    destruct (S y m dd eq_refl) as (M & D & E).
    assert (ord2ymd (d - 7) = (y, m, dd - 7)) as ->.
    { rewrite <- E. replace (ymd2ord y m dd - 7) with (ymd2ord y m (dd - 7))
        by (unfold ymd2ord; lia).
      apply ord2ymd_ymd2ord; lia. }
    reflexivity.
Qed.

(** The days from the Monday to the Sunday [iso_week_period] returns for
    a date get the tuple of that date. *)
Lemma iso_week_period_within d d' :
  snd (fst (iso_week_period d)) <= d' <= snd (iso_week_period d) ->
  iso_week_period d' = iso_week_period d.
Proof.
  pose proof (iso_week_period_spec d) as S.
  pose proof (iso_week_period_spec d') as S'.
  destruct (iso_week_period d) as [[[Y W] mon] sun].
  destruct (iso_week_period d') as [[[Y' W'] mon'] sun'].
  cbn [fst snd]. intros B.
  assert (Y' = Y) as -> by (apply (iso_year_unique d'); lia).
  assert (W' = W) as -> by lia.
  repeat f_equal; lia.
Qed.

End CalendarExtras.

(** On ordinals: [iso_week_period] returns a Monday and the Sunday six days
    later with the date between them, and a week number from 1 to 53. *)
Lemma iso_week_period_monday_sunday (for_date : date) :
  let '(iso_year, iso_week, monday, sunday) := iso_week_period for_date in
  isoweekday monday = 1 /\ isoweekday sunday = 7
  /\ sunday = add_days monday 6
  /\ monday <= for_date <= sunday
  /\ 1 <= iso_week <= 53.
Proof.
  pose proof (iso_week_period_spec for_date) as S.
  destruct (iso_week_period for_date) as [[[Y W] monday] sunday].
  destruct S as (E & -> & B & L & U & HW).
  pose proof (isoweek1monday_spec Y) as [M _].
  pose proof (isoweek1monday_succ Y) as G.
  unfold isoweekday, add_days.
  assert (monday mod 7 = 1) as M1
    by (generalize dependent (isoweek1monday Y); intros;
        Z.to_euclidean_division_equations; lia).
  assert ((monday + 6) mod 7 = 0) as M7
    by (Z.to_euclidean_division_equations; lia).
  rewrite M1, M7. simpl. repeat split; try lia.
Qed.

(** On ordinals: the dates for which [iso_week_period] returns the tuple it
    returns for a date are the seven days from that Monday to that Sunday. *)
Lemma iso_week_period_same_week (d d' : date) :
  iso_week_period d' = iso_week_period d
  <-> snd (fst (iso_week_period d)) <= d' <= snd (iso_week_period d).
Proof.
  split; [|apply iso_week_period_within].
  intros E. pose proof (iso_week_period_spec d') as S'. rewrite E in S'.
  destruct (iso_week_period d) as [[[Y W] mon] sun]. cbn [fst snd]. lia.
Qed.

(** X3. [week_in_month] numbers the weeks of a month from 1 to 5. *)
Theorem week_in_month_range (monday : date) : 1 <= week_in_month monday <= 5.
Proof.
  unfold week_in_month. pose proof (day_bounds monday).
  generalize dependent (day monday). intros.
  Z.to_euclidean_division_equations; lia.
Qed.

(** X4. [week_in_month_for_period] gives the number 1 to the first week whose
    Thursday lies in the month, and to no other week. *)
Theorem week_in_month_for_period_first (monday : date) :
  week_in_month_for_period monday = 1
  <-> month (add_days monday (-4)) <> month (add_days monday 3).
Proof.
  unfold week_in_month_for_period, week_in_month, add_days.
  replace (monday + -4) with (monday + 3 - 7) by lia.
  rewrite <- first_week_of_month.
  pose proof (day_bounds (monday + 3)).
  generalize dependent (day (monday + 3)). intros.
  split; intros; Z.to_euclidean_division_equations; lia.
Qed.

(** X5. [week_in_month_for_period] numbers the weeks of a month one after the
    other: a week whose Thursday lies in the month of the Thursday before has
    the next number. *)
Theorem week_in_month_for_period_next (monday : date) :
  month (add_days monday 10) = month (add_days monday 3) ->
  week_in_month_for_period (add_days monday 7)
  = week_in_month_for_period monday + 1.
Proof.
  unfold week_in_month_for_period, week_in_month, add_days. intros E.
  replace (monday + 7 + 3) with (monday + 3 + 7) by lia.
  destruct (same_month_days (monday + 3) 7 ltac:(lia)) as [_ ->].
  - rewrite <- E. f_equal. lia.
  - generalize dependent (day (monday + 3)). intros.
    Z.to_euclidean_division_equations; lia.
Qed.

Lemma week_in_month_for_period_next_witness :
  week_in_month_for_period (add_days (mkdate 2024 1 29) 7)
  = week_in_month_for_period (mkdate 2024 1 29) + 1.
Proof.
  apply week_in_month_for_period_next. vm_compute. reflexivity.
Defined.

(** On ordinals: [workdays_in_range] over a range is the list over its first
    part followed by the list over the rest. *)
Lemma workdays_in_range_split (start_date mid end_date : date)
    (holidays workdays : option (gset date)) :
  start_date <= mid + 1 -> mid <= end_date ->
  workdays_in_range start_date end_date holidays workdays
  = workdays_in_range start_date mid holidays workdays
    ++ workdays_in_range (add_days mid 1) end_date holidays workdays.
Proof.
  intros H1 H2. unfold add_days. rewrite !workdays_in_range_filter.
  rewrite <- filter_app. f_equal.
  replace (end_date + 1 - start_date)
    with ((mid + 1 - start_date) + (end_date + 1 - (mid + 1))) by lia.
  rewrite seqZ_app by lia. do 2 f_equal. lia.
Qed.

(** On ordinals: a range that ends before it starts has no workday, whatever
    the overrides say, and no range has more workdays than days. *)
Lemma workday_range_count (start_date end_date : date)
    (holidays workdays : option (gset date)) :
  0 <= snd (workday_range start_date end_date holidays workdays)
    <= Z.max 0 (end_date + 1 - start_date)
  /\ (end_date < start_date ->
      workday_range start_date end_date holidays workdays = (None, None, 0)).
Proof.
  rewrite workday_range_endpoints. cbn [snd].
  rewrite workdays_in_range_filter.
  set (P := effective_workday _ _).
  split.
  - match goal with
    | |- context [Z.of_nat ?n] =>
        assert (n <= Z.to_nat (end_date + 1 - start_date))%nat as L
          by (rewrite <- (length_seqZ start_date); apply length_filter)
    end.
    lia.
  - intros H. rewrite (seqZ_nil start_date (end_date + 1 - start_date)) by lia.
    reflexivity.
Qed.

(** On ordinals: with no override dates, the workdays of the week
    [iso_week_period] returns are its Monday to its Friday. *)
Lemma workday_range_iso_week (for_date : date) :
  let '(_, _, monday, sunday) := iso_week_period for_date in
  workdays_in_range monday sunday None None
  = [monday; add_days monday 1; add_days monday 2; add_days monday 3;
     add_days monday 4]
  /\ workday_range monday sunday None None
     = (Some monday, Some (add_days monday 4), 5).
Proof.
  pose proof (iso_week_period_spec for_date) as S.
  destruct (iso_week_period for_date) as [[[Y W] monday] sunday].
  destruct S as (E & -> & _).
  pose proof (isoweek1monday_spec Y) as [M _].
  assert (monday mod 7 = 1) as M1
    by (generalize dependent (isoweek1monday Y); intros;
        Z.to_euclidean_division_equations; lia).
  clear E M.
  assert (workdays_in_range monday (monday + 6) None None
          = [monday; monday + 1; monday + 2; monday + 3; monday + 4]) as D.
  { rewrite workdays_in_range_filter.
    replace (monday + 6 + 1 - monday) with 7 by lia.
    assert (seqZ monday 7
            = [monday; monday + 1; monday + 2; monday + 3; monday + 4;
               monday + 5; monday + 6]) as ->
      by (unfold seqZ; change (Z.to_nat 7) with 7%nat; cbn;
          rewrite !(Z.add_comm _ monday), Z.add_0_r; reflexivity).
    assert (forall k, 0 <= k <= 6 ->
              effective_workday (default ∅ None) (default ∅ None) (monday + k)
              <-> k <= 4) as R.
    { intros k Hk. unfold effective_workday, isoweekday. cbn [default].
      assert ((monday + k) mod 7 = k + 1 /\ k <= 5
              \/ (monday + k) mod 7 = 0 /\ k = 6) as [[-> ?]|[-> ->]]
        by (Z.to_euclidean_division_equations; lia).
      - destruct (k + 1 =? 0) eqn:E0; [apply Z.eqb_eq in E0; lia|].
        split; [intros [F|(_ & L & _)]; [set_solver|lia]|].
        intros L. right. split; [set_solver|]. split; [lia|set_solver].
      - simpl. split; [intros [F|(_ & L & _)]; [set_solver|lia]|lia]. }
    pose proof (R 0) as R0. rewrite Z.add_0_r in R0.
    rewrite filter_cons_True by (apply R0; lia).
    do 4 (rewrite filter_cons_True by (apply R; lia)).
    do 2 (rewrite filter_cons_False by (rewrite R; lia)).
    reflexivity. }
  unfold add_days. split; [exact D|].
  rewrite workday_range_endpoints. cbv zeta. rewrite D. reflexivity.
Qed.

Section RegistryInvariants.

Lemma next_id_fresh (ids : list Z) : forall i, i ∈ ids -> i < next_id ids.
Proof.
  unfold next_id. induction ids as [|j ids IH]; intros i Hi.
  - inversion Hi.
  - cbn [foldr]. apply elem_of_cons in Hi as [->|Hi]; [lia|].
    specialize (IH i Hi). lia.
Qed.

Lemma next_id_positive (ids : list Z) : 0 < next_id ids.
Proof.
  unfold next_id. induction ids as [|j ids IH]; cbn [foldr]; lia.
Qed.

Lemma update_month_ids pk m rows :
  WeekPeriod.id <$> update_month pk m rows = WeekPeriod.id <$> rows.
Proof.
  unfold update_month. induction rows as [|p rows IH]; [reflexivity|].
  cbn. rewrite <- IH. f_equal.
  destruct (WeekPeriod.id p =? pk); reflexivity.
Qed.

Lemma update_month_rest pk m rows :
  WeekPeriod.with_month 0 <$> update_month pk m rows
  = WeekPeriod.with_month 0 <$> rows.
Proof.
  unfold update_month. induction rows as [|p rows IH]; [reflexivity|].
  cbn. rewrite <- IH. f_equal.
  destruct (WeekPeriod.id p =? pk); reflexivity.
Qed.

(** A query on a table in which the month of a row was corrected finds the
    row it found before. *)
Lemma select_period_update_month_any rows pk m y w :
  select_period (update_month pk m rows) y w
  = (fun p => if WeekPeriod.id p =? pk then WeekPeriod.with_month m p else p)
      <$> select_period rows y w.
Proof.
  unfold select_period, update_month.
  induction rows as [|q rows IH]; [reflexivity|]. cbn.
  assert (same_week y w (if WeekPeriod.id q =? pk
                         then WeekPeriod.with_month m q else q)
          = same_week y w q) as ->
    by (destruct (_ =? _); reflexivity).
  destruct (same_week y w q); [reflexivity|exact IH].
Qed.

(** Under the primary key, rows of different weeks have different ids. *)
Lemma pk_other_week rows p q :
  pk_week_period rows -> p ∈ rows -> q ∈ rows ->
  week_key p <> week_key q -> WeekPeriod.id p <> WeekPeriod.id q.
Proof.
  unfold pk_week_period. intros Hpk Hp Hq Hk Hid.
  apply list_elem_of_lookup in Hp as [i Hi].
  apply list_elem_of_lookup in Hq as [j Hj].
  assert (i = j) as ->.
  { eapply NoDup_lookup; [exact Hpk| |];
      rewrite list_lookup_fmap; [rewrite Hi|rewrite Hj]; cbn;
      [reflexivity|congruence]. }
  congruence.
Qed.

(** The dates of an ISO week are told by its key. *)
Lemma iso_week_period_key d d' :
  key_of_date d = key_of_date d' -> iso_week_period d = iso_week_period d'.
Proof.
  intros Hk. pose proof (key_of_date_monday d d' Hk) as Hm.
  unfold key_of_date in Hk.
  pose proof (iso_week_period_spec d) as S.
  pose proof (iso_week_period_spec d') as S'.
  destruct (iso_week_period d) as [[[Y W] mon] sun].
  destruct (iso_week_period d') as [[[Y' W'] mon'] sun'].
  cbn [fst snd] in Hm. injection Hk as -> ->. subst mon'.
  repeat f_equal. lia.
Qed.

Lemma iso_week_row_dates p d :
  iso_week_row p -> week_key p = key_of_date d ->
  iso_week_period d
  = (WeekPeriod.year p, WeekPeriod.week_no p,
     WeekPeriod.start_date p, WeekPeriod.end_date p).
Proof.
  intros [d0 H0] Hk. rewrite <- H0. apply iso_week_period_key.
  unfold key_of_date at 2. rewrite H0. symmetry. exact Hk.
Qed.

(** What one call of [ensure_period] does to a table under its primary
    key whose rows were written from ISO weeks. *)
Lemma ensure_period_step db d :
  pk_week_period (week_period db) -> Forall iso_week_row (week_period db) ->
  exists db1 p,
    ensure_period db d = Returned (db1, p)
    /\ select_period (week_period db1) (fst (key_of_date d)) (snd (key_of_date d))
       = Some p
    /\ iso_week_period d
       = (WeekPeriod.year p, WeekPeriod.week_no p,
          WeekPeriod.start_date p, WeekPeriod.end_date p)
    /\ month_of_thursday p
    /\ pk_week_period (week_period db1)
    /\ Forall iso_week_row (week_period db1)
    /\ (forall y w q,
          (y, w) <> key_of_date d ->
          select_period (week_period db) y w = Some q ->
          select_period (week_period db1) y w = Some q)
    /\ (select_period (week_period db) (fst (key_of_date d)) (snd (key_of_date d))
        = Some p -> db1 = db)
    /\ (Forall month_of_thursday (week_period db) ->
        Forall month_of_thursday (week_period db1)
        /\ (db1 = db
            \/ db1 = set_week_period (week_period db ++ [p]) db
               /\ ((fst (key_of_date d), snd (key_of_date d))
                   ∉ (week_key <$> week_period db))
               /\ WeekPeriod.id p = next_id (WeekPeriod.id <$> week_period db))).
Proof.
  intros Hpk Hwf.
  pose proof (ensure_period_cases db d) as H1.
  unfold key_of_date.
  destruct (iso_week_period d) as [[[y w] monday] sunday] eqn:Ei.
  cbv zeta in H1. cbn [fst snd].
  set (m := datetime.month (add_days monday 3)) in *.
  destruct (select_period (week_period db) y w) as [existing|] eqn:E.
  - destruct (select_period_Some _ _ _ _ E) as [Hin Hk].
    assert (iso_week_row existing) as Hrow
      by (rewrite Forall_forall in Hwf; apply Hwf, Hin).
    pose proof (iso_week_row_dates existing d Hrow) as Hd.
    unfold key_of_date in Hd. rewrite Ei in Hd. specialize (Hd Hk).
    injection Hd as Hy Hw Hs He.
    destruct (WeekPeriod.month existing =? m) eqn:Em.
    + apply Z.eqb_eq in Em.
      exists db, existing. split; [exact H1|]. split; [exact E|].
      split; [congruence|].
      split; [unfold month_of_thursday; rewrite <- Hs; exact Em|].
      split; [exact Hpk|]. split; [exact Hwf|].
      split; [intros; assumption|]. split; [reflexivity|].
      intros Hm. split; [exact Hm|]. left. reflexivity.
    + pose proof (select_period_update_month _ _ _ _ m E) as E1.
      eexists _, _. split; [exact H1|]. cbn [week_period set_week_period].
      split; [exact E1|].
      split; [cbn; congruence|].
      split; [unfold month_of_thursday; cbn; rewrite <- Hs; reflexivity|].
      split; [unfold pk_week_period; rewrite update_month_ids; exact Hpk|].
      split.
      { unfold update_month. apply Forall_forall. intros q Hq.
        apply list_elem_of_In, in_map_iff in Hq as (q0 & <- & Hq0).
        apply list_elem_of_In in Hq0. rewrite Forall_forall in Hwf.
        specialize (Hwf _ Hq0).
        destruct (WeekPeriod.id q0 =? WeekPeriod.id existing); exact Hwf. }
      split.
      { intros y' w' q Hne Hq. rewrite select_period_update_month_any, Hq.
        cbn. destruct (select_period_Some _ _ _ _ Hq) as [Hqin Hqk].
        assert (WeekPeriod.id q <> WeekPeriod.id existing) as Hid
          by (apply (pk_other_week (week_period db)); congruence).
        apply Z.eqb_neq in Hid. rewrite Hid. reflexivity. }
      split.
      { intros [= Hp]. exfalso. apply Z.eqb_neq in Em. apply Em.
        apply (f_equal WeekPeriod.month) in Hp. exact Hp. }
      intros Hm. exfalso. apply Z.eqb_neq in Em. apply Em.
      rewrite Forall_forall in Hm. specialize (Hm _ Hin).
      unfold month_of_thursday in Hm. rewrite Hm, <- Hs. reflexivity.
  - set (period := WeekPeriod.mk (next_id (WeekPeriod.id <$> week_period db))
                     y m w monday sunday) in *.
    exists (set_week_period (week_period db ++ [period]) db), period.
    split; [exact H1|]. cbn [week_period set_week_period].
    split.
    { rewrite select_period_app, E. unfold select_period, same_week. cbn.
      rewrite !Z.eqb_refl. reflexivity. }
    split; [reflexivity|]. split; [reflexivity|].
    split.
    { unfold pk_week_period. rewrite fmap_app. apply NoDup_app.
      split; [exact Hpk|]. split; [|apply NoDup_singleton].
      intros i Hi Hi'. apply list_elem_of_singleton in Hi'. cbn in Hi'.
      apply next_id_fresh in Hi. lia. }
    split.
    { apply Forall_app. split; [exact Hwf|].
      apply Forall_singleton. exists d. exact Ei. }
    split.
    { intros y' w' q _ Hq. rewrite select_period_app, Hq. reflexivity. }
    split; [discriminate|].
    intros Hm. split.
    { apply Forall_app. split; [exact Hm|].
      apply Forall_singleton. reflexivity. }
    right. split; [reflexivity|]. split; [|reflexivity].
    apply select_period_None in E as [_ E]. exact E.
Qed.

(** [ensure_period] writes to the table [week_period] only. *)
Lemma ensure_period_frame db d db1 p :
  ensure_period db d = Returned (db1, p) ->
  weekly_plan db1 = weekly_plan db
  /\ plan_item db1 = plan_item db
  /\ operation_log db1 = operation_log db.
Proof.
  pose proof (ensure_period_cases db d) as H1.
  destruct (iso_week_period d) as [[[y w] monday] sunday].
  cbv zeta in H1.
  destruct (select_period (week_period db) y w) as [existing|].
  - destruct (WeekPeriod.month existing =? _); rewrite H1;
      intros [= <- <-]; auto.
  - rewrite H1. intros [= <- <-]. auto.
Qed.

End RegistryInvariants.

(** On ordinals: [ensure_period] returns and writes to the table [week_period]
    only: it deletes no row, keeps the order, the id, the year, the week and
    the dates of every row, adds at most one row, and keeps the primary key. *)
Lemma ensure_period_keeps_rows (db : Db) (for_date : date) :
  exists db1 p new,
    ensure_period db for_date = Returned (db1, p)
    /\ weekly_plan db1 = weekly_plan db
    /\ plan_item db1 = plan_item db
    /\ operation_log db1 = operation_log db
    /\ WeekPeriod.with_month 0 <$> week_period db1
       = (WeekPeriod.with_month 0 <$> week_period db) ++ new
    /\ (length new <= 1)%nat
    /\ (pk_week_period (week_period db) -> pk_week_period (week_period db1)).
Proof.
  pose proof (ensure_period_cases db for_date) as H1.
  destruct (iso_week_period for_date) as [[[y w] monday] sunday].
  cbv zeta in H1.
  destruct (select_period (week_period db) y w) as [existing|].
  - destruct (WeekPeriod.month existing =? _).
    + exists db, existing, []. rewrite app_nil_r. auto 10.
    + eexists _, _, []. split; [exact H1|]. cbn [week_period set_week_period
        weekly_plan plan_item operation_log].
      rewrite app_nil_r, update_month_rest.
      unfold pk_week_period. rewrite update_month_ids. auto 10.
  - eexists _, _, [_]. split; [exact H1|]. cbn [week_period set_week_period
      weekly_plan plan_item operation_log].
    rewrite fmap_app. do 5 (split; [reflexivity|]).
    unfold pk_week_period. rewrite fmap_app. intros Hpk. apply NoDup_app.
    split; [exact Hpk|]. split; [|apply NoDup_singleton].
    intros i Hi Hi'. apply list_elem_of_singleton in Hi'. cbn in Hi'.
    apply next_id_fresh in Hi. lia.
Qed.

(** X11. [_migrate_week_period_month] gives every row the month of the Thursday
    of its week and changes nothing else; run again, or on rows that have
    that month, it changes nothing. *)
Theorem migrate_week_period_month_spec (db : Db) :
  let db1 := migrate_week_period_month db in
  Forall month_of_thursday (week_period db1)
  /\ WeekPeriod.with_month 0 <$> week_period db1
     = WeekPeriod.with_month 0 <$> week_period db
  /\ set_week_period (week_period db) db1 = db
  /\ migrate_week_period_month db1 = db1
  /\ (Forall month_of_thursday (week_period db) -> db1 = db).
Proof.
  destruct db as [rows plans its log].
  unfold migrate_week_period_month, set_week_period.
  cbn [week_period weekly_plan plan_item operation_log].
  set (f := fun p : WeekPeriod.t => _).
  assert (forall p, month_of_thursday (f p)) as Hf.
  { intros p. unfold f, month_of_thursday.
    destruct (WeekPeriod.month p =? _) eqn:E; cbn [negb].
    - apply Z.eqb_eq, E.
    - reflexivity. }
  assert (forall p, month_of_thursday p -> f p = p) as Hid.
  { intros p Hp. unfold f. unfold month_of_thursday in Hp.
    rewrite Hp, Z.eqb_refl. reflexivity. }
  split; [apply Forall_forall; intros q Hq;
          apply list_elem_of_In, in_map_iff in Hq as (q0 & <- & _); apply Hf|].
  split.
  { change (map f rows) with (f <$> rows). rewrite <- list_fmap_compose.
    apply list_fmap_ext. intros i p _. unfold f. cbn.
    destruct (negb _); reflexivity. }
  split; [reflexivity|].
  split.
  { f_equal. rewrite map_map. apply map_ext. intros p. apply Hid, Hf. }
  intros Hm. f_equal. rewrite <- (map_id rows) at 2.
  apply map_ext_in. intros p Hp. apply Hid.
  rewrite Forall_forall in Hm. apply Hm, list_elem_of_In, Hp.
Qed.

(** On ordinals: after [_migrate_week_period_month], on rows written from ISO
    weeks under the primary key, [ensure_period] corrects no month any more:
    it leaves the table as it is, or adds the row it returns at the end. *)
Lemma ensure_period_after_migration (db : Db) (for_date : date) :
  pk_week_period (week_period db) -> Forall iso_week_row (week_period db) ->
  let db1 := migrate_week_period_month db in
  exists db2 p,
    ensure_period db1 for_date = Returned (db2, p)
    /\ (db2 = db1 \/ week_period db2 = week_period db1 ++ [p])
    /\ Forall month_of_thursday (week_period db2).
Proof.
  intros Hpk Hwf db1.
  destruct (migrate_week_period_month_spec db) as (Hm & Hrest & _).
  fold db1 in Hm, Hrest.
  assert (pk_week_period (week_period db1)) as Hpk1.
  { unfold pk_week_period in *.
    replace (WeekPeriod.id <$> week_period db1)
      with (WeekPeriod.id <$> (WeekPeriod.with_month 0 <$> week_period db1))
      by (rewrite <- list_fmap_compose; reflexivity).
    rewrite Hrest, <- list_fmap_compose. exact Hpk. }
  assert (Forall iso_week_row (week_period db1)) as Hwf1.
  { unfold db1, migrate_week_period_month. cbn [week_period set_week_period].
    apply Forall_forall. intros q Hq.
    apply list_elem_of_In, in_map_iff in Hq as (q0 & <- & Hq0).
    apply list_elem_of_In in Hq0. rewrite Forall_forall in Hwf.
    specialize (Hwf _ Hq0). cbv zeta. destruct (negb _); exact Hwf. }
  destruct (ensure_period_step db1 for_date Hpk1 Hwf1)
    as (db2 & p & H1 & _ & _ & _ & _ & _ & _ & _ & H9).
  destruct (H9 Hm) as [Hm2 Hcase].
  exists db2, p. split; [exact H1|]. split; [|exact Hm2].
  destruct Hcase as [->|[-> _]]; [left; reflexivity|right; reflexivity].
Qed.

Section MonthPeriods.

Ltac euclid := Z.to_euclidean_division_equations; lia.

Let entry (p : WeekPeriod.t) : Z * WeekPeriod.t := (WeekPeriod.id p, p).

Lemma dict_set_fresh k v items :
  k ∉ items.*1 -> dict_set k v items = items ++ [(k, v)].
Proof.
  induction items as [|[k' v'] items IH]; intros Hk; [reflexivity|].
  cbn in *. apply not_elem_of_cons in Hk as [Hne Hk].
  destruct (k' =? k) eqn:E; [apply Z.eqb_eq in E; congruence|].
  rewrite IH by exact Hk. reflexivity.
Qed.

Lemma insert_by_key_first {A} (key : A -> Z) x l :
  Forall (fun y => key x <= key y) l -> insert_by_key key x l = x :: l.
Proof.
  destruct l as [|y l]; [reflexivity|]. intros H.
  apply Forall_cons in H as [H _]. cbn.
  apply Z.leb_le in H. rewrite H. reflexivity.
Qed.

(** Sorting a list that is in order returns it. *)
Lemma sorted_by_key_sorted {A} (key : A -> Z) l :
  StronglySorted Z.lt (key <$> l) -> sorted_by_key key l = l.
Proof.
  unfold sorted_by_key.
  induction l as [|x l IH]; [reflexivity|].
  rewrite fmap_cons. cbn [foldr]. intros H.
  apply StronglySorted_inv in H as [Hs Hx].
  rewrite (IH Hs). apply insert_by_key_first.
  rewrite Forall_fmap in Hx. eapply Forall_impl; [exact Hx|].
  cbn. intros. lia.
Qed.

Lemma mondays_upto_spec last_day (variant : nat) : forall monday,
  last_day + 1 - monday <= Z.of_nat variant ->
  (forall d, (d ∈ mondays_upto variant last_day monday)
             <-> (monday <= d <= last_day) /\ ((d - monday) mod 7 = 0))
  /\ StronglySorted Z.lt (mondays_upto variant last_day monday)
  /\ Z.of_nat (length (mondays_upto variant last_day monday))
     = if monday <=? last_day then (last_day - monday) / 7 + 1 else 0.
Proof.
  induction variant as [|variant IH]; intros monday Hv.
  - cbn [mondays_upto]. assert ((monday <=? last_day) = false) as ->
      by (apply Z.leb_gt; lia).
    split; [|split; [constructor|reflexivity]].
    intros d. rewrite elem_of_nil. lia.
  - cbn [mondays_upto]. unfold add_days.
    destruct (monday <=? last_day) eqn:E;
      [apply Z.leb_le in E|apply Z.leb_gt in E].
    + destruct (IH (monday + 7) ltac:(lia)) as (Hin & Hs & Hl).
      split; [|split].
      * intros d. rewrite elem_of_cons, Hin. split.
        -- intros [->|[B M]]; [split; [lia|]; replace (monday - monday) with 0 by lia; reflexivity|].
           split; [lia|]. euclid.
        -- intros [B M].
           destruct (Z.eq_dec d monday) as [->|N]; [left; reflexivity|right].
           split; euclid.
      * constructor; [exact Hs|]. apply Forall_forall. intros d Hd.
        apply Hin in Hd. lia.
      * cbn [length]. rewrite Nat2Z.inj_succ, Hl.
        destruct (monday + 7 <=? last_day) eqn:E';
          [apply Z.leb_le in E'|apply Z.leb_gt in E']; euclid.
    + split; [|split; [constructor|reflexivity]].
      intros d. rewrite elem_of_nil. lia.
Qed.

(** A row that is there with the month of its Thursday is returned as it
    is, and nothing is written. *)
Lemma ensure_period_settled db d q :
  select_period (week_period db) (fst (key_of_date d)) (snd (key_of_date d))
  = Some q ->
  iso_week_row q -> month_of_thursday q ->
  ensure_period db d = Returned (db, q).
Proof.
  intros E Hrow Hm.
  pose proof (ensure_period_cases db d) as H1.
  destruct (select_period_Some _ _ _ _ E) as [_ Hk].
  rewrite <- surjective_pairing in Hk.
  pose proof (iso_week_row_dates q d Hrow Hk) as Hd.
  unfold key_of_date in E.
  destruct (iso_week_period d) as [[[y w] monday] sunday].
  cbn [fst snd] in E. cbv zeta in H1. rewrite E in H1.
  injection Hd as _ _ Hs _. unfold month_of_thursday in Hm.
  rewrite Hs, <- Hm, Z.eqb_refl in H1. exact H1.
Qed.

Lemma monday_of_monday monday :
  monday mod 7 = 1 ->
  snd (fst (iso_week_period monday)) = monday.
Proof.
  intros M. pose proof (iso_week_period_spec monday) as S.
  destruct (iso_week_period monday) as [[[Y W] mon] sun]. cbn [fst snd].
  destruct S as (E & Es & B & _).
  pose proof (isoweek1monday_spec Y) as [M1 _].
  generalize dependent (isoweek1monday Y). intros. euclid.
Qed.

(** The rows the loop has collected: each is the row the table holds for
    its week, a week that starts before [monday]. *)
Let collected (db : Db) (monday : date) (p : WeekPeriod.t) : Prop :=
  select_period (week_period db) (WeekPeriod.year p) (WeekPeriod.week_no p)
  = Some p
  /\ iso_week_row p /\ month_of_thursday p
  /\ WeekPeriod.start_date p < monday
  /\ WeekPeriod.end_date p = WeekPeriod.start_date p + 6.

Lemma ensure_month_loop_spec last_day (variant : nat) :
  forall db monday ps,
  pk_week_period (week_period db) -> Forall iso_week_row (week_period db) ->
  monday mod 7 = 1 ->
  Forall (collected db monday) ps ->
  exists db1 qs,
    ensure_month_loop variant db last_day monday (entry <$> ps)
    = Returned (db1, entry <$> (ps ++ qs))
    /\ WeekPeriod.start_date <$> qs = mondays_upto variant last_day monday
    /\ pk_week_period (week_period db1)
    /\ Forall iso_week_row (week_period db1)
    /\ (forall p, p ∈ ps ++ qs ->
          select_period (week_period db1) (WeekPeriod.year p)
            (WeekPeriod.week_no p) = Some p
          /\ iso_week_row p /\ month_of_thursday p
          /\ WeekPeriod.end_date p = WeekPeriod.start_date p + 6)
    /\ weekly_plan db1 = weekly_plan db
    /\ plan_item db1 = plan_item db
    /\ operation_log db1 = operation_log db.
Proof.
  induction variant as [|variant IH]; intros db monday ps Hpk Hwf Hmon Hps.
  - exists db, []. rewrite app_nil_r. cbn [ensure_month_loop mondays_upto].
    repeat (split; [first [reflexivity|assumption]|]).
    split; [|auto].
    intros p Hp. rewrite Forall_forall in Hps.
    destruct (Hps p Hp) as (? & ? & ? & ? & ?). auto.
  - cbn [ensure_month_loop mondays_upto].
    destruct (monday <=? last_day) eqn:E.
    + destruct (ensure_period_step db monday Hpk Hwf)
        as (db1 & q & H1 & Hsel & Hd & Hm & Hpk1 & Hwf1 & Hother & _ & _).
      destruct (ensure_period_frame db monday db1 q H1) as (F1 & F2 & F3).
      rewrite H1.
      pose proof (monday_of_monday monday Hmon) as Hstart.
      rewrite Hd in Hstart. cbn [fst snd] in Hstart.
      assert (key_of_date monday = week_key q) as Hkq
        by (unfold key_of_date; rewrite Hd; reflexivity).
      rewrite Hkq in Hsel, Hother. cbn [week_key fst snd] in Hsel.
      assert (WeekPeriod.end_date q = WeekPeriod.start_date q + 6) as Hend.
      { pose proof (iso_week_period_spec monday) as S. rewrite Hd in S.
        lia. }
      assert (Forall (collected db1 (add_days monday 7)) (ps ++ [q])) as Hps1.
      { apply Forall_app. split.
        - eapply Forall_impl; [exact Hps|].
          intros p (Sp & Rp & Mp & Lp & Ep).
          split; [|split; [exact Rp|split; [exact Mp|split;
            [unfold add_days; lia|exact Ep]]]].
          apply Hother; [|exact Sp].
          intros K.
          assert (week_key p = key_of_date monday) as K'
            by (rewrite Hkq; exact K).
          pose proof (iso_week_row_dates p monday Rp K') as Dp.
          rewrite Hd in Dp. injection Dp as _ _ Dp _. lia.
        - apply Forall_singleton.
          split; [exact Hsel|]. split; [exists monday; exact Hd|].
          split; [exact Hm|]. split; [unfold add_days; lia|exact Hend]. }
      assert (dict_set (WeekPeriod.id q) q (entry <$> ps)
              = entry <$> (ps ++ [q])) as ->.
      { rewrite fmap_app. apply dict_set_fresh.
        rewrite <- list_fmap_compose. intros Hin.
        apply list_elem_of_fmap in Hin as (p & Hid & Hp). cbn in Hid.
        rewrite Forall_forall in Hps1.
        destruct (Hps1 p ltac:(apply elem_of_app; left; exact Hp))
          as (Sp & Rp & _ & _ & _).
        revert Hid.
        apply (pk_other_week (week_period db1)); try assumption.
        - apply (select_period_Some _ _ _ _ Hsel).
        - apply (select_period_Some _ _ _ _ Sp).
        - intros K.
          assert (week_key p = key_of_date monday) as K'
            by (rewrite Hkq; symmetry; exact K).
          pose proof (iso_week_row_dates p monday Rp K') as Dp.
          rewrite Hd in Dp. injection Dp as _ _ Dp _.
          rewrite Forall_forall in Hps.
          destruct (Hps p Hp) as (_ & _ & _ & Lp & _). lia. }
      destruct (IH db1 (add_days monday 7) (ps ++ [q]) Hpk1 Hwf1
                  ltac:(unfold add_days; euclid) Hps1)
        as (db2 & qs & H2 & Hst & Hpk2 & Hwf2 & Hall & G1 & G2 & G3).
      exists db2, (q :: qs).
      rewrite <- app_assoc in H2. cbn [app] in H2.
      split; [exact H2|]. split; [cbn; rewrite Hst, Hstart; reflexivity|].
      split; [exact Hpk2|]. split; [exact Hwf2|].
      split; [intros p Hp; apply Hall; rewrite <- app_assoc; exact Hp|].
      split; [congruence|]. split; congruence.
    + exists db, []. rewrite app_nil_r.
      repeat (split; [first [reflexivity|assumption]|]).
      split; [|auto].
      intros p Hp. rewrite Forall_forall in Hps.
      destruct (Hps p Hp) as (? & ? & ? & ? & ?). auto.
Qed.

(** A row written from an ISO week starts on the Monday of its week and
    ends on its Sunday. *)
Lemma iso_week_row_monday q :
  iso_week_row q ->
  key_of_date (WeekPeriod.start_date q) = week_key q
  /\ WeekPeriod.start_date q mod 7 = 1
  /\ WeekPeriod.end_date q = WeekPeriod.start_date q + 6.
Proof.
  intros [d0 H0].
  pose proof (iso_week_period_spec d0) as S.
  pose proof (iso_week_period_within d0 (WeekPeriod.start_date q)) as W.
  rewrite H0 in S, W. cbn [fst snd] in W.
  destruct S as (E & Es & B & _).
  pose proof (isoweek1monday_spec (WeekPeriod.year q)) as [M1 _].
  split; [|split; [|exact Es]].
  - unfold key_of_date. rewrite W by lia. reflexivity.
  - generalize dependent (isoweek1monday (WeekPeriod.year q)).
    generalize dependent (WeekPeriod.start_date q). intros. euclid.
Qed.

(** On a table that holds the rows of the Mondays, each with the month of
    its Thursday, the loop writes nothing and collects those rows. *)
Lemma ensure_month_loop_settled db last_day (variant : nat) :
  forall monday ps qs,
  pk_week_period (week_period db) ->
  Forall (collected db monday) ps ->
  WeekPeriod.start_date <$> qs = mondays_upto variant last_day monday ->
  Forall (fun q =>
            select_period (week_period db) (WeekPeriod.year q)
              (WeekPeriod.week_no q) = Some q
            /\ iso_week_row q /\ month_of_thursday q) qs ->
  ensure_month_loop variant db last_day monday (entry <$> ps)
  = Returned (db, entry <$> (ps ++ qs)).
Proof.
  induction variant as [|variant IH]; intros monday ps qs Hpk Hps Hst Hqs.
  - cbn [mondays_upto] in Hst. apply fmap_nil_inv in Hst as ->.
    rewrite app_nil_r. reflexivity.
  - cbn [ensure_month_loop mondays_upto] in *.
    destruct (monday <=? last_day) eqn:E.
    + destruct qs as [|q qs]; [discriminate|].
      rewrite fmap_cons in Hst. injection Hst as Hq Hst.
      apply Forall_cons in Hqs as [(Sq & Rq & Mq) Hqs].
      destruct (iso_week_row_monday q Rq) as (Kq & _ & Eq).
      rewrite Hq in Kq.
      rewrite (ensure_period_settled db monday q); try assumption;
        [|rewrite Kq; exact Sq].
      assert (dict_set (WeekPeriod.id q) q (entry <$> ps)
              = entry <$> (ps ++ [q])) as ->.
      { rewrite fmap_app. apply dict_set_fresh.
        rewrite <- list_fmap_compose. intros Hin.
        apply list_elem_of_fmap in Hin as (p & Hid & Hp). cbn in Hid.
        rewrite Forall_forall in Hps.
        destruct (Hps p Hp) as (Sp & Rp & _ & Lp & _).
        revert Hid.
        apply (pk_other_week (week_period db)); try assumption.
        - apply (select_period_Some _ _ _ _ Sq).
        - apply (select_period_Some _ _ _ _ Sp).
        - intros K.
          assert (week_key p = key_of_date monday) as K'
            by (rewrite Kq; symmetry; exact K).
          pose proof (iso_week_row_dates p monday Rp K') as Dp.
          pose proof (iso_week_row_dates q monday Rq (eq_sym Kq)) as Dq.
          rewrite Dq in Dp. injection Dp as _ _ Dp _. lia. }
      rewrite (IH (add_days monday 7) (ps ++ [q]) qs Hpk); try assumption.
      * rewrite <- app_assoc. reflexivity.
      * apply Forall_app. split.
        -- eapply Forall_impl; [exact Hps|].
           intros p (Sp & Rp & Mp & Lp & Ep).
           repeat (split; [assumption|]).
           split; [unfold add_days; lia|exact Ep].
        -- apply Forall_singleton.
           repeat (split; [assumption|]).
           split; [unfold add_days; lia|exact Eq].
    + apply fmap_nil_inv in Hst as ->. rewrite app_nil_r. reflexivity.
Qed.

(** The first and the last day of a month, and the Monday the loop of
    [ensure_month_periods] starts from. *)
Lemma month_days year month :
  1 <= month <= 12 ->
  let first_day := mkdate year month 1 in
  let last_day := mkdate year month (days_in_month year month) in
  let monday := add_days first_day (- (isoweekday first_day - 1)) in
  monday mod 7 = 1 /\ first_day - 6 <= monday <= first_day
  /\ 27 <= last_day - first_day <= 30
  /\ forall d, datetime.year d = year -> datetime.month d = month ->
               first_day <= d <= last_day.
Proof.
  intros Hm. cbv zeta. unfold mkdate, add_days, isoweekday.
  pose proof (days_in_month_bounds year month Hm) as B.
  split; [|split; [|split]].
  - generalize (ymd2ord year month 1). intros f.
    destruct (f mod 7 =? 0) eqn:E;
      [apply Z.eqb_eq in E|apply Z.eqb_neq in E]; euclid.
  - generalize (ymd2ord year month 1). intros f.
    destruct (f mod 7 =? 0) eqn:E;
      [apply Z.eqb_eq in E|apply Z.eqb_neq in E]; euclid.
  - unfold ymd2ord. lia.
  - intros d <- <-. destruct (ord2ymd_spec d) as (_ & D & E).
    assert (ymd2ord (datetime.year d) (datetime.month d) 1
            <= ymd2ord (datetime.year d) (datetime.month d) (day d)
            <= ymd2ord (datetime.year d) (datetime.month d)
                 (days_in_month (datetime.year d) (datetime.month d))) as R
      by (unfold ymd2ord; generalize dependent (day d); intros; lia).
    rewrite E in R. exact R.
Qed.

(** What [ensure_month_periods] returns: the rows of the Mondays the loop
    goes through, in that order. *)
Lemma ensure_month_periods_rows (db : Db) (year month : Z) :
  1 <= month <= 12 ->
  pk_week_period (week_period db) -> Forall iso_week_row (week_period db) ->
  let first_day := mkdate year month 1 in
  let last_day := mkdate year month (days_in_month year month) in
  let monday := add_days first_day (- (isoweekday first_day - 1)) in
  exists db1 periods,
    ensure_month_periods db year month = Returned (db1, periods)
    /\ WeekPeriod.start_date <$> periods
       = mondays_upto (Z.to_nat (last_day + 1 - monday)) last_day monday
    /\ pk_week_period (week_period db1)
    /\ Forall (fun p =>
                 select_period (week_period db1) (WeekPeriod.year p)
                   (WeekPeriod.week_no p) = Some p
                 /\ iso_week_row p /\ month_of_thursday p
                 /\ WeekPeriod.end_date p = WeekPeriod.start_date p + 6)
         periods
    /\ weekly_plan db1 = weekly_plan db
    /\ plan_item db1 = plan_item db
    /\ operation_log db1 = operation_log db.
Proof.
  intros Hm Hpk Hwf. unfold ensure_month_periods.
  assert ((month <? 1) || (12 <? month) = false) as ->
    by (apply orb_false_iff; rewrite !Z.ltb_ge; lia).
  destruct (month_days year month Hm) as (Hmon & Hfirst & Hspan & _).
  cbv zeta.
  set (first_day := mkdate year month 1) in *.
  set (last_day := mkdate year month (days_in_month year month)) in *.
  set (monday := add_days first_day (- (isoweekday first_day - 1))) in *.
  clearbody monday last_day first_day.
  set (variant := Z.to_nat (last_day + 1 - monday)).
  destruct (ensure_month_loop_spec last_day variant db monday [] Hpk Hwf Hmon
              (Forall_nil_2 _))
    as (db1 & qs & H1 & Hst & Hpk1 & Hwf1 & Hall & G1 & G2 & G3).
  change (entry <$> []) with (@nil (Z * WeekPeriod.t)) in H1.
  rewrite H1. cbn [app].
  rewrite <- list_fmap_compose.
  change (snd ∘ entry) with (@id WeekPeriod.t).
  rewrite list_fmap_id.
  destruct (mondays_upto_spec last_day variant monday ltac:(lia))
    as (_ & Hsorted & _).
  rewrite <- Hst in Hsorted.
  rewrite (sorted_by_key_sorted _ qs Hsorted).
  exists db1, qs. split; [reflexivity|]. split; [exact Hst|].
  split; [exact Hpk1|]. split; [|auto].
  apply Forall_forall. intros p Hp. apply Hall, Hp.
Qed.

End MonthPeriods.

(** On ordinals: [ensure_month_periods], on a table under its primary key
    whose rows were written from ISO weeks, returns the rows of consecutive
    weeks in the order of their Mondays: four to six rows, each from a Monday
    to the Sunday after it and with the month of its Thursday, and every day
    of the month lies in one of them; only the table [week_period] is written. *)
Lemma ensure_month_periods_weeks (db : Db) (year month : Z) :
  1 <= month <= 12 ->
  pk_week_period (week_period db) -> Forall iso_week_row (week_period db) ->
  exists db1 periods,
    ensure_month_periods db year month = Returned (db1, periods)
    /\ StronglySorted Z.lt (WeekPeriod.start_date <$> periods)
    /\ Forall (fun p =>
                 (p ∈ week_period db1)
                 /\ isoweekday (WeekPeriod.start_date p) = 1
                 /\ WeekPeriod.end_date p
                    = add_days (WeekPeriod.start_date p) 6
                 /\ month_of_thursday p
                 /\ week_key p = key_of_date (WeekPeriod.start_date p)
                 /\ WeekPeriod.start_date p
                    <= mkdate year month (days_in_month year month)
                 /\ mkdate year month 1 <= WeekPeriod.end_date p) periods
    /\ (forall d, datetime.year d = year -> datetime.month d = month ->
          exists p, (p ∈ periods)
                    /\ WeekPeriod.start_date p <= d <= WeekPeriod.end_date p)
    /\ (4 <= length periods <= 6)%nat
    /\ weekly_plan db1 = weekly_plan db
    /\ plan_item db1 = plan_item db
    /\ operation_log db1 = operation_log db.
Proof.
  intros Hm Hpk Hwf.
  destruct (ensure_month_periods_rows db year month Hm Hpk Hwf)
    as (db1 & qs & H1 & Hst & _ & Hall & G1 & G2 & G3).
  destruct (month_days year month Hm) as (Hmon & Hfirst & Hspan & Hdays).
  cbv zeta in Hst, Hmon, Hfirst, Hspan, Hdays.
  set (first_day := mkdate year month 1) in *.
  set (last_day := mkdate year month (days_in_month year month)) in *.
  set (monday := add_days first_day (- (isoweekday first_day - 1))) in *.
  clearbody monday last_day first_day.
  destruct (mondays_upto_spec last_day (Z.to_nat (last_day + 1 - monday))
              monday ltac:(lia)) as (Hin & Hsorted & Hlen).
  rewrite <- Hst in Hin, Hsorted, Hlen.
  rewrite Forall_forall in Hall.
  exists db1, qs. split; [exact H1|]. split; [exact Hsorted|].
  split; [|split; [|split]].
  - apply Forall_forall. intros p Hp.
    destruct (Hall p Hp) as (Sp & Rp & Mp & Ep).
    destruct (iso_week_row_monday p Rp) as (Kp & Wp & _).
    assert (WeekPeriod.start_date p ∈ WeekPeriod.start_date <$> qs) as Hs
      by (apply list_elem_of_fmap; exists p; auto).
    apply Hin in Hs.
    split; [apply (select_period_Some _ _ _ _ Sp)|].
    split; [unfold isoweekday; rewrite Wp; reflexivity|].
    split; [exact Ep|]. split; [exact Mp|]. split; [symmetry; exact Kp|].
    rewrite Ep. lia.
  - intros d Hy Hmo. specialize (Hdays d Hy Hmo).
    assert (d - (d - monday) mod 7 ∈ WeekPeriod.start_date <$> qs) as Hs
      by (apply Hin; (Z.to_euclidean_division_equations; lia)).
    apply list_elem_of_fmap in Hs as (p & Hs & Hp).
    exists p. split; [exact Hp|].
    destruct (Hall p Hp) as (_ & _ & _ & Ep). rewrite Ep, <- Hs. (Z.to_euclidean_division_equations; lia).
  - rewrite length_fmap in Hlen.
    assert ((monday <=? last_day) = true) as E by (apply Z.leb_le; lia).
    rewrite E in Hlen. Z.to_euclidean_division_equations; lia.
  - split; [exact G1|]. split; [exact G2|exact G3].
Qed.

(** On ordinals: a second call of [ensure_month_periods] for the month returns
    the rows of the first and writes nothing. *)
Lemma ensure_month_periods_idempotent (db : Db) (year month : Z) :
  1 <= month <= 12 ->
  pk_week_period (week_period db) -> Forall iso_week_row (week_period db) ->
  exists db1 periods,
    ensure_month_periods db year month = Returned (db1, periods)
    /\ ensure_month_periods db1 year month = Returned (db1, periods).
Proof.
  intros Hm Hpk Hwf. unfold ensure_month_periods.
  assert ((month <? 1) || (12 <? month) = false) as ->
    by (apply orb_false_iff; rewrite !Z.ltb_ge; lia).
  destruct (month_days year month Hm) as (Hmon & _).
  cbv zeta.
  set (first_day := mkdate year month 1) in *.
  set (last_day := mkdate year month (days_in_month year month)) in *.
  set (monday := add_days first_day (- (isoweekday first_day - 1))) in *.
  clearbody monday last_day first_day.
  set (variant := Z.to_nat (last_day + 1 - monday)).
  destruct (ensure_month_loop_spec last_day variant db monday [] Hpk Hwf Hmon
              (Forall_nil_2 _))
    as (db1 & qs & H1 & Hst & Hpk1 & Hwf1 & Hall & _).
  pose proof (ensure_month_loop_settled db1 last_day variant monday [] qs Hpk1
                (Forall_nil_2 _) Hst) as H2.
  change ((fun p : WeekPeriod.t => (WeekPeriod.id p, p)) <$> [])
    with (@nil (Z * WeekPeriod.t)) in H1, H2.
  rewrite H1. eexists _, _. split; [reflexivity|].
  rewrite H2; [reflexivity|].
  apply Forall_forall. intros q Hq.
  destruct (Hall q Hq) as (Sq & Rq & Mq & _). auto.
Qed.

Section FromEmpty.

Lemma first_occurrences_ext keys : forall seen seen',
  (forall k, k ∈ seen <-> k ∈ seen') ->
  first_occurrences keys seen = first_occurrences keys seen'.
Proof.
  induction keys as [|k keys IH]; intros seen seen' H; [reflexivity|].
  cbn. rewrite (bool_decide_ext _ _ (H k)).
  destruct (bool_decide (k ∈ seen')); [apply IH, H|].
  f_equal. apply IH. intros k'. rewrite !elem_of_cons, H. reflexivity.
Qed.

Lemma next_id_seqZ (n : nat) : next_id (seqZ 1 (Z.of_nat n)) = Z.of_nat n + 1.
Proof.
  unfold next_id.
  assert (foldr Z.max 0 (seqZ 1 (Z.of_nat n)) = Z.of_nat n) as ->; [|lia].
  induction n as [|n IH]; [reflexivity|].
  rewrite Nat2Z.inj_succ, <- Z.add_1_r, seqZ_app by lia.
  rewrite foldr_app. change (seqZ (1 + Z.of_nat n) 1) with [1 + Z.of_nat n].
  cbn [foldr].
  assert (forall l a, 0 <= a ->
            foldr Z.max a l = Z.max a (foldr Z.max 0 l)) as G.
  { induction l as [|x l IHl]; intros a Ha; cbn [foldr]; [lia|].
    rewrite (IHl a Ha). lia. }
  rewrite G, IH by lia. lia.
Qed.

(** The table after calls of [ensure_period], from a table that has the
    invariants of one filled by [ensure_period]. *)
Lemma ensure_period_calls (dates : list date) : forall db,
  pk_week_period (week_period db) -> Forall iso_week_row (week_period db) ->
  Forall month_of_thursday (week_period db) ->
  WeekPeriod.id <$> week_period db
  = seqZ 1 (Z.of_nat (length (week_period db))) ->
  let db1 := fold_left after_ensure_period dates db in
  pk_week_period (week_period db1) /\ Forall iso_week_row (week_period db1)
  /\ Forall month_of_thursday (week_period db1)
  /\ WeekPeriod.id <$> week_period db1
     = seqZ 1 (Z.of_nat (length (week_period db1)))
  /\ week_key <$> week_period db1
     = (week_key <$> week_period db)
       ++ first_occurrences (key_of_date <$> dates) (week_key <$> week_period db).
Proof.
  induction dates as [|d dates IH]; intros db Hpk Hwf Hm Hids.
  - cbn. rewrite app_nil_r. auto.
  - cbn [fold_left fmap list_fmap first_occurrences].
    destruct (ensure_period_step db d Hpk Hwf)
      as (db1 & p & H1 & Hsel & _ & _ & Hpk1 & Hwf1 & _ & _ & H9).
    destruct (H9 Hm) as [Hm1 Hcase].
    assert (after_ensure_period db d = db1) as ->
      by (unfold after_ensure_period; rewrite H1; reflexivity).
    cbv zeta.
    rewrite <- surjective_pairing in Hcase.
    destruct Hcase as [->|(-> & Hnew & Hid)].
    + specialize (IH db Hpk Hwf Hm Hids). cbv zeta in IH.
      destruct IH as (? & ? & ? & ? & ->).
      repeat (split; [assumption|]).
      rewrite bool_decide_true; [reflexivity|].
      destruct (select_period_Some _ _ _ _ Hsel) as [Hin Hk].
      rewrite <- surjective_pairing in Hk. rewrite <- Hk.
      apply list_elem_of_fmap. exists p. auto.
    + rewrite bool_decide_false by exact Hnew.
      cbn [week_period set_week_period] in *.
      assert (WeekPeriod.id <$> week_period db ++ [p]
              = seqZ 1 (Z.of_nat (length (week_period db ++ [p])))) as Hids1.
      { rewrite length_app, Nat2Z.inj_add, seqZ_app, fmap_app by lia.
        rewrite <- Hids. f_equal. cbn. rewrite Hid, Hids, next_id_seqZ.
        unfold seqZ. change (Z.to_nat (Z.of_nat 1)) with 1%nat. cbn.
        f_equal. lia. }
      specialize (IH (set_week_period (week_period db ++ [p]) db)
                    Hpk1 Hwf1 Hm1 Hids1). cbv zeta in IH.
      cbn [week_period set_week_period] in IH.
      destruct IH as (? & ? & ? & ? & ->).
      repeat (split; [assumption|]).
      rewrite fmap_app, <- app_assoc. cbn [fmap list_fmap app].
      destruct (select_period_Some _ _ _ _ Hsel) as [_ Hk].
      rewrite <- surjective_pairing in Hk. rewrite Hk.
      do 2 f_equal. apply first_occurrences_ext.
      intros k. rewrite elem_of_app, !elem_of_cons, elem_of_nil. tauto.
Qed.

End FromEmpty.

(** On ordinals: a table [week_period] filled by calls of [ensure_period]
    alone holds one row for each ISO week asked for, in the order in which the
    weeks were first asked for and with the ids 1, 2, 3, ...; every row is a
    Monday-to-Sunday ISO week with the month of its Thursday, and the primary
    key and the constraint [uq_year_weekno] hold. *)
Lemma ensure_period_from_empty (dates : list date) :
  let rows := week_period (fold_left after_ensure_period dates empty_db) in
  week_key <$> rows = first_occurrences (key_of_date <$> dates) []
  /\ WeekPeriod.id <$> rows = seqZ 1 (Z.of_nat (length rows))
  /\ Forall iso_week_row rows /\ Forall month_of_thursday rows
  /\ pk_week_period rows /\ uq_year_weekno rows.
Proof.
  destruct (ensure_period_calls dates empty_db)
    as (Hpk & Hwf & Hm & Hids & Hkeys);
    try (cbn; first [apply NoDup_nil_2|apply Forall_nil_2|reflexivity]).
  cbv zeta. cbn [empty_db week_period fmap list_fmap app] in Hkeys.
  repeat (split; [assumption|]).
  unfold uq_year_weekno. rewrite Hkeys.
  generalize (key_of_date <$> dates). intros keys.
  assert (forall seen, NoDup (first_occurrences keys seen)
                       /\ forall k, k ∈ first_occurrences keys seen -> k ∉ seen)
    as G; [|apply G].
  induction keys as [|k keys IH]; intros seen; cbn.
  - split; [constructor|]. intros k Hk. inversion Hk.
  - case_bool_decide as E; [apply IH|].
    destruct (IH (k :: seen)) as [Hnd Hout].
    split.
    + constructor; [|exact Hnd]. intros Hk. apply Hout in Hk.
      apply Hk. left.
    + intros k' [->|Hk']%elem_of_cons; [exact E|].
      apply Hout in Hk'. intros Hs. apply Hk'. right. exact Hs.
Qed.

Section Plans.

Lemma select_plan_Some rows period_id owner_user_id p :
  select_plan rows period_id owner_user_id = Some p ->
  p ∈ rows /\ owner_period p = (period_id, owner_user_id).
Proof.
  unfold select_plan. intros H. apply find_some in H as [Hin Hk].
  apply andb_true_iff in Hk as [<-%Z.eqb_eq <-%Z.eqb_eq].
  split; [apply list_elem_of_In, Hin|reflexivity].
Qed.

Lemma select_plan_None rows period_id owner_user_id :
  select_plan rows period_id owner_user_id = None ->
  (period_id, owner_user_id) ∉ owner_period <$> rows.
Proof.
  unfold select_plan. intros H (p & Hk & Hin)%list_elem_of_fmap.
  apply list_elem_of_In in Hin. apply (find_none _ _ H) in Hin.
  injection Hk as -> ->. rewrite !Z.eqb_refl in Hin. discriminate.
Qed.

Lemma select_plan_app rows rows' period_id owner_user_id :
  select_plan (rows ++ rows') period_id owner_user_id
  = match select_plan rows period_id owner_user_id with
    | Some p => Some p
    | None => select_plan rows' period_id owner_user_id
    end.
Proof.
  unfold select_plan. induction rows as [|p rows IH]; [reflexivity|].
  cbn. destruct (_ && _); [reflexivity|exact IH].
Qed.

(** Under [uq_owner_period] a user's row of a period is the one the
    query finds. *)
Lemma uq_owner_period_select rows p :
  uq_owner_period rows -> p ∈ rows ->
  select_plan rows (WeeklyPlan.period_id p) (WeeklyPlan.owner_user_id p)
  = Some p.
Proof.
  unfold uq_owner_period, select_plan.
  induction rows as [|q rows IH]; intros Hu Hp; [inversion Hp|].
  rewrite fmap_cons in Hu. apply NoDup_cons in Hu as [Hq Hu]. cbn.
  destruct ((WeeklyPlan.period_id q =? WeeklyPlan.period_id p)
            && (WeeklyPlan.owner_user_id q =? WeeklyPlan.owner_user_id p)) eqn:E.
  - apply andb_true_iff in E as [E1%Z.eqb_eq E2%Z.eqb_eq].
    apply elem_of_cons in Hp as [->|Hp]; [reflexivity|].
    exfalso. apply Hq. apply list_elem_of_fmap. exists p.
    split; [|exact Hp]. unfold owner_period. congruence.
  - apply elem_of_cons in Hp as [->|Hp].
    + rewrite !Z.eqb_refl in E. discriminate.
    + apply IH; assumption.
Qed.

(** The dictionary comprehension keeps, for a period, the last row of it. *)
Lemma plans_by_period_lookup (rows : list WeeklyPlan.t) (pid : Z) :
  forall m : gmap Z WeeklyPlan.t,
  fold_left (fun m p => <[ WeeklyPlan.period_id p := p ]> m) rows m !! pid
  = match last (List.filter (fun p => WeeklyPlan.period_id p =? pid) rows) with
    | Some p => Some p
    | None => m !! pid
    end.
Proof.
  induction rows as [|q rows IH]; intros m; [reflexivity|].
  cbn [fold_left List.filter]. rewrite IH.
  destruct (WeeklyPlan.period_id q =? pid) eqn:E.
  - apply Z.eqb_eq in E. rewrite last_cons.
    destruct (last _); [reflexivity|].
    rewrite E, lookup_insert_eq. reflexivity.
  - apply Z.eqb_neq in E. destruct (last _); [reflexivity|].
    rewrite lookup_insert_ne by exact E. reflexivity.
Qed.

(** Under the primary key a row is the one [db.get] finds for its id. *)
Lemma pk_weekly_plan_get db p :
  pk_weekly_plan (weekly_plan db) -> p ∈ weekly_plan db ->
  db_get_plan db (WeeklyPlan.id p) = Some p.
Proof.
  unfold pk_weekly_plan, db_get_plan.
  induction (weekly_plan db) as [|q rows IH]; intros Hu Hp; [inversion Hp|].
  rewrite fmap_cons in Hu. apply NoDup_cons in Hu as [Hq Hu]. cbn.
  destruct (WeeklyPlan.id q =? WeeklyPlan.id p) eqn:E.
  - apply Z.eqb_eq in E.
    apply elem_of_cons in Hp as [->|Hp]; [reflexivity|].
    exfalso. apply Hq. apply list_elem_of_fmap. exists p. auto.
  - apply elem_of_cons in Hp as [->|Hp].
    + rewrite Z.eqb_refl in E. discriminate.
    + apply IH; assumption.
Qed.

(** A query by id on a table in which the status of a plan was set. *)
Lemma db_get_plan_set_status rows plan_id status other :
  List.find (fun p => WeeklyPlan.id p =? other)
    (List.map (fun p => if WeeklyPlan.id p =? plan_id
                        then WeeklyPlan.with_status status p else p) rows)
  = (fun p => if WeeklyPlan.id p =? plan_id
              then WeeklyPlan.with_status status p else p)
      <$> List.find (fun p => WeeklyPlan.id p =? other) rows.
Proof.
  induction rows as [|q rows IH]; [reflexivity|]. cbn.
  assert (WeeklyPlan.id (if WeeklyPlan.id q =? plan_id
                         then WeeklyPlan.with_status status q else q)
          = WeeklyPlan.id q) as ->
    by (destruct (_ =? _); reflexivity).
  destruct (WeeklyPlan.id q =? other); [reflexivity|exact IH].
Qed.

Lemma ensure_weekly_plan_select db period_id owner_user_id :
  select_plan (weekly_plan (fst (ensure_weekly_plan db period_id owner_user_id)))
    period_id owner_user_id
  = Some (snd (ensure_weekly_plan db period_id owner_user_id))
  /\ (uq_owner_period (weekly_plan db) ->
      uq_owner_period
        (weekly_plan (fst (ensure_weekly_plan db period_id owner_user_id)))).
Proof.
  unfold ensure_weekly_plan.
  destruct (select_plan (weekly_plan db) period_id owner_user_id)
    as [existing|] eqn:E; cbn [fst snd].
  - auto.
  - cbn [weekly_plan set_weekly_plan]. split.
    + rewrite select_plan_app, E. unfold select_plan. cbn.
      rewrite !Z.eqb_refl. reflexivity.
    + unfold uq_owner_period. rewrite fmap_app. intros Hu. apply NoDup_app.
      split; [exact Hu|]. split; [|apply NoDup_singleton].
      intros k Hk Hk'. apply list_elem_of_singleton in Hk' as ->.
      apply select_plan_None in E. exact (E Hk).
Qed.

(** The rows the dictionary of a user's plans is built from. *)
Lemma plans_of_user_rows (db : Db) (owner_user_id : Z) (period_ids : list Z)
    (pid : Z) (p : WeeklyPlan.t) :
  p ∈ List.filter (fun p => WeeklyPlan.period_id p =? pid)
        (List.filter
           (fun p => (WeeklyPlan.owner_user_id p =? owner_user_id)
                     && bool_decide (WeeklyPlan.period_id p ∈ period_ids))
           (weekly_plan db))
  <-> (p ∈ weekly_plan db) /\ owner_period p = (pid, owner_user_id)
      /\ (pid ∈ period_ids).
Proof.
  rewrite list_elem_of_In, !filter_In, <- list_elem_of_In.
  rewrite !andb_true_iff, !Z.eqb_eq, bool_decide_eq_true.
  unfold owner_period. split.
  - intros [(H1 & H2 & H3) H4]. subst. auto.
  - intros (H1 & [= H2 H3] & H4). subst. auto.
Qed.

Lemma plans_of_user_lookup (db : Db) (owner_user_id : Z) (period_ids : list Z)
    (pid : Z) :
  uq_owner_period (weekly_plan db) ->
  get_user_plans_by_period_ids db owner_user_id period_ids !! pid
  = if bool_decide (pid ∈ period_ids)
    then select_plan (weekly_plan db) pid owner_user_id
    else None.
Proof.
  unfold get_user_plans_by_period_ids.
  destruct period_ids as [|i0 ids0] eqn:Eids.
  { intros _. rewrite lookup_empty. reflexivity. }
  rewrite <- Eids. clear Eids i0 ids0.
  rewrite plans_by_period_lookup, lookup_empty.
  pose proof (plans_of_user_rows db owner_user_id period_ids pid) as Hmine.
  set (mine := List.filter _ (List.filter _ _)) in *.
  intros Hu. case_bool_decide as Hpid.
  + destruct (select_plan (weekly_plan db) pid owner_user_id) as [p|] eqn:E.
    * destruct (select_plan_Some _ _ _ _ E) as [Hin Hk].
      destruct (last mine) as [q|] eqn:El.
      -- apply last_Some_elem_of, Hmine in El as (Hq & Hkq & _).
         pose proof (uq_owner_period_select _ q Hu Hq) as Sq.
         injection Hkq as E1 E2. rewrite E1, E2 in Sq. congruence.
      -- apply last_None in El.
         assert (p ∈ mine) as Hp by (apply Hmine; auto).
         rewrite El in Hp. inversion Hp.
    * destruct (last mine) as [q|] eqn:El; [|reflexivity].
      apply last_Some_elem_of, Hmine in El as (Hq & Hkq & _).
      apply select_plan_None in E. exfalso. apply E.
      apply list_elem_of_fmap. exists q. auto.
  + destruct (last mine) as [q|] eqn:El; [|reflexivity].
    apply last_Some_elem_of, Hmine in El as (_ & _ & Hin). contradiction.
Qed.

End Plans.

(** X16. [ensure_weekly_plan] returns the plan of the user in the period: the
    row that is there, untouched, or a new row with the status "draft" and
    an id above all others at the end of the table.  The row is then the
    one the query finds, a second call returns it and writes nothing, and
    the constraint [uq_owner_period] and the primary key are kept. *)
Theorem ensure_weekly_plan_spec (db : Db) (period_id owner_user_id : Z) :
  let '(db1, plan) := ensure_weekly_plan db period_id owner_user_id in
  owner_period plan = (period_id, owner_user_id)
  /\ select_plan (weekly_plan db1) period_id owner_user_id = Some plan
  /\ ensure_weekly_plan db1 period_id owner_user_id = (db1, plan)
  /\ (forall existing,
        select_plan (weekly_plan db) period_id owner_user_id = Some existing ->
        db1 = db /\ plan = existing)
  /\ (select_plan (weekly_plan db) period_id owner_user_id = None ->
      WeeklyPlan.status plan = "draft"
      /\ weekly_plan db1 = weekly_plan db ++ [plan]
      /\ forall q, q ∈ weekly_plan db -> WeeklyPlan.id q < WeeklyPlan.id plan)
  /\ (uq_owner_period (weekly_plan db) -> uq_owner_period (weekly_plan db1))
  /\ (pk_weekly_plan (weekly_plan db) ->
      pk_weekly_plan (weekly_plan db1)
      /\ get_plan db1 (WeeklyPlan.id plan) = Some plan)
  /\ week_period db1 = week_period db
  /\ plan_item db1 = plan_item db
  /\ operation_log db1 = operation_log db.
Proof.
  unfold ensure_weekly_plan.
  destruct (select_plan (weekly_plan db) period_id owner_user_id)
    as [existing|] eqn:E.
  - destruct (select_plan_Some _ _ _ _ E) as [Hin Hk].
    split; [exact Hk|]. split; [exact E|]. split; [rewrite E; reflexivity|].
    split; [intros ? [= <-]; auto|]. split; [discriminate|].
    split; [auto|]. split; [|auto].
    intros Hpk. split; [exact Hpk|]. apply pk_weekly_plan_get; assumption.
  - set (plan := WeeklyPlan.mk _ _ _ _).
    assert (select_plan (weekly_plan db ++ [plan]) period_id owner_user_id
            = Some plan) as E1.
    { rewrite select_plan_app, E. unfold select_plan. cbn.
      rewrite !Z.eqb_refl. reflexivity. }
    assert (forall q, q ∈ weekly_plan db -> WeeklyPlan.id q < WeeklyPlan.id plan)
      as Hfresh.
    { intros q Hq. cbn. apply next_id_fresh, list_elem_of_fmap. eauto. }
    cbn [weekly_plan set_weekly_plan week_period plan_item operation_log].
    split; [reflexivity|]. split; [exact E1|]. split; [rewrite E1; reflexivity|].
    split; [discriminate|]. split; [auto|].
    split.
    { unfold uq_owner_period. rewrite fmap_app. intros Hu. apply NoDup_app.
      split; [exact Hu|]. split; [|apply NoDup_singleton].
      intros k Hk Hk'. apply list_elem_of_singleton in Hk' as ->.
      apply select_plan_None in E. exact (E Hk). }
    split; [|auto].
    intros Hpk.
    assert (pk_weekly_plan (weekly_plan db ++ [plan])) as Hpk1.
    { unfold pk_weekly_plan in *. rewrite fmap_app. apply NoDup_app.
      split; [exact Hpk|]. split; [|apply NoDup_singleton].
      intros i Hi Hi'. apply list_elem_of_singleton in Hi' as ->.
      apply list_elem_of_fmap in Hi as (q & Hq & Hin).
      specialize (Hfresh q Hin). lia. }
    split; [exact Hpk1|].
    apply (pk_weekly_plan_get (set_weekly_plan (weekly_plan db ++ [plan]) db));
      [exact Hpk1|]. cbn. apply elem_of_app. right. left.
Qed.

(** X17. The dictionary of [get_user_plans_by_period_ids] holds rows of the
    user only, each under its own period and for a period asked for; under
    [uq_owner_period] the entry of a period asked for is the row the query
    for the user and the period finds. *)
Theorem get_user_plans_by_period_ids_spec (db : Db) (owner_user_id : Z)
    (period_ids : list Z) (pid : Z) :
  let plans := get_user_plans_by_period_ids db owner_user_id period_ids in
  (forall p, plans !! pid = Some p ->
     (p ∈ weekly_plan db) /\ owner_period p = (pid, owner_user_id)
     /\ (pid ∈ period_ids))
  /\ (uq_owner_period (weekly_plan db) ->
      plans !! pid
      = if bool_decide (pid ∈ period_ids)
        then select_plan (weekly_plan db) pid owner_user_id
        else None).
Proof.
  cbv zeta. split; [|apply plans_of_user_lookup].
  unfold get_user_plans_by_period_ids.
  destruct period_ids as [|i0 ids0] eqn:Eids.
  { intros p. rewrite lookup_empty. discriminate. }
  rewrite <- Eids. clear Eids i0 ids0.
  rewrite plans_by_period_lookup, lookup_empty.
  intros p Hp. apply plans_of_user_rows.
  destruct (last _) as [q|] eqn:El; [|discriminate].
  injection Hp as <-. apply last_Some_elem_of. exact El.
Qed.

(** X18. The plan [ensure_weekly_plan] returns is the entry of its period in
    the dictionary of the user's plans. *)
Theorem ensure_weekly_plan_listed (db : Db) (period_id owner_user_id : Z)
    (period_ids : list Z) :
  uq_owner_period (weekly_plan db) -> period_id ∈ period_ids ->
  let '(db1, plan) := ensure_weekly_plan db period_id owner_user_id in
  get_user_plans_by_period_ids db1 owner_user_id period_ids !! period_id
  = Some plan.
Proof.
  intros Hu Hin.
  destruct (ensure_weekly_plan_select db period_id owner_user_id) as (Hsel & Hu1).
  destruct (ensure_weekly_plan db period_id owner_user_id) as [db1 plan].
  cbn [fst snd] in *.
  rewrite plans_of_user_lookup by (apply Hu1, Hu).
  rewrite bool_decide_true by exact Hin. exact Hsel.
Qed.

Lemma ensure_weekly_plan_listed_witness :
  let '(db1, plan) := ensure_weekly_plan db_plans 2 1 in
  get_user_plans_by_period_ids db1 1 [1; 2] !! 2 = Some plan.
Proof.
  apply (ensure_weekly_plan_listed db_plans 2 1 [1; 2]).
  - apply (bool_decide_unpack _). vm_compute. exact I.
  - apply (bool_decide_unpack _). vm_compute. exact I.
Defined.

(** X19. [set_plan_status] on a plan that is there: the plan is returned with
    the new status and is what [get_plan] returns afterwards; every other
    plan, the period and the owner of every row, and the hours of every
    plan are as they were; under [uq_owner_period], a plan set to
    "submitted" is the one the scheduler finds for its owner and period. *)
Theorem set_plan_status_spec (db : Db) (plan_id : Z) (status : string)
    (plan : WeeklyPlan.t) :
  get_plan db plan_id = Some plan ->
  let '(db1, returned) := set_plan_status db plan_id status in
  returned = Some (WeeklyPlan.with_status status plan)
  /\ get_plan db1 plan_id = Some (WeeklyPlan.with_status status plan)
  /\ (forall other, other <> plan_id -> get_plan db1 other = get_plan db other)
  /\ WeeklyPlan.with_status "" <$> weekly_plan db1
     = WeeklyPlan.with_status "" <$> weekly_plan db
  /\ (forall pid, sum_plan_hours db1 pid = sum_plan_hours db pid)
  /\ (forall plan_ids,
        get_plan_item_stats db1 plan_ids = get_plan_item_stats db plan_ids)
  /\ (uq_owner_period (weekly_plan db) -> status = "submitted" ->
      select_submitted_plan db1 (WeeklyPlan.period_id plan)
        (WeeklyPlan.owner_user_id plan)
      = Some (WeeklyPlan.with_status status plan)).
Proof.
  unfold get_plan, set_plan_status. intros Hget. rewrite Hget.
  set (f := fun p : WeeklyPlan.t =>
              if WeeklyPlan.id p =? plan_id
              then WeeklyPlan.with_status status p else p).
  set (db1 := mkDb _ _ _ _).
  assert (WeeklyPlan.id plan = plan_id) as Hid.
  { unfold db_get_plan in Hget. apply find_some in Hget as [_ H].
    apply Z.eqb_eq, H. }
  assert (forall other, db_get_plan db1 other = f <$> db_get_plan db other)
    as Hlook by (intros other; apply db_get_plan_set_status).
  split; [reflexivity|]. split.
  { rewrite Hlook, Hget. cbn. unfold f. rewrite Hid, Z.eqb_refl. reflexivity. }
  split.
  { intros other Hne. rewrite Hlook.
    destruct (db_get_plan db other) as [q|] eqn:Eq; [|reflexivity].
    cbn. unfold f. unfold db_get_plan in Eq. apply find_some in Eq as [_ Eq].
    apply Z.eqb_eq in Eq. rewrite Eq.
    apply Z.eqb_neq in Hne. rewrite Hne. reflexivity. }
  split.
  { cbn [weekly_plan db1]. change (map f (weekly_plan db))
      with (f <$> weekly_plan db).
    rewrite <- list_fmap_compose. apply list_fmap_ext.
    intros i p _. cbn. unfold f. destruct (_ =? _); reflexivity. }
  split.
  { intros pid. unfold sum_plan_hours. rewrite Hlook.
    destruct (db_get_plan db pid) as [q|]; [|reflexivity]. cbn.
    assert (WeeklyPlan.id (f q) = WeeklyPlan.id q) as ->
      by (unfold f; destruct (_ =? _); reflexivity).
    reflexivity. }
  split; [reflexivity|].
  intros Hu ->. unfold select_submitted_plan. cbn [weekly_plan db1].
  assert (plan ∈ weekly_plan db) as Hin.
  { unfold db_get_plan in Hget. apply find_some in Hget as [H _].
    apply list_elem_of_In, H. }
  unfold uq_owner_period in Hu. clear Hlook Hget db1.
  induction (weekly_plan db) as [|q rows IH]; [inversion Hin|].
  rewrite fmap_cons in Hu. apply NoDup_cons in Hu as [Hq Hu]. cbn.
  assert (WeeklyPlan.period_id (f q) = WeeklyPlan.period_id q
          /\ WeeklyPlan.owner_user_id (f q) = WeeklyPlan.owner_user_id q)
    as [-> ->] by (unfold f; destruct (_ =? _); split; reflexivity).
  apply elem_of_cons in Hin as [<-|Hin].
  - rewrite !Z.eqb_refl. unfold f at 1. rewrite Hid, Z.eqb_refl. cbn.
    unfold f. rewrite Hid, Z.eqb_refl. reflexivity.
  - destruct ((WeeklyPlan.period_id q =? WeeklyPlan.period_id plan)
              && (WeeklyPlan.owner_user_id q =? WeeklyPlan.owner_user_id plan))
      eqn:E.
    + exfalso. apply andb_true_iff in E as [E1%Z.eqb_eq E2%Z.eqb_eq].
      apply Hq. apply list_elem_of_fmap. exists plan.
      split; [unfold owner_period; congruence|exact Hin].
    + cbn [andb]. apply IH; assumption.
Qed.

Lemma set_plan_status_spec_witness :
  let '(db1, returned) := set_plan_status db_plans 2 "submitted" in
  returned = Some (WeeklyPlan.mk 2 1 2 "submitted")
  /\ get_plan db1 2 = Some (WeeklyPlan.mk 2 1 2 "submitted")
  /\ get_plan db1 1 = get_plan db_plans 1
  /\ select_submitted_plan db1 1 2 = Some (WeeklyPlan.mk 2 1 2 "submitted").
Proof.
  pose proof (set_plan_status_spec db_plans 2 "submitted"
                (WeeklyPlan.mk 2 1 2 "draft") eq_refl) as H.
  destruct (set_plan_status db_plans 2 "submitted") as [db1 returned].
  destruct H as (H1 & H2 & H3 & _ & _ & _ & H7).
  split; [exact H1|]. split; [exact H2|].
  split; [apply H3; discriminate|].
  apply H7; [|reflexivity].
  apply (bool_decide_unpack _). vm_compute. exact I.
Defined.

Section Ticks.

Context (now : datetime) (period : WeekPeriod.t)
        (smtp : WeeklyPlan.t -> EmailConfig -> bool).

(** The loop of a tick, attempt by attempt: the plans are read, never
    written, and each attempt adds one entry to the log. *)
Lemma auto_send_loop_exact (entries : list (Z * EmailConfig)) : forall w,
  let w' := fold_left (auto_send_user now period smtp) entries w in
  week_period (world_db w') = week_period (world_db w)
  /\ weekly_plan (world_db w') = weekly_plan (world_db w)
  /\ plan_item (world_db w') = plan_item (world_db w)
  /\ sent w' = sent w ++ omap (attempt now period (world_db w)) entries
  /\ exists logs,
       operation_log (world_db w') = operation_log (world_db w) ++ logs
       /\ OperationLog.owner_user_id <$> logs
          = fst <$> omap (attempt now period (world_db w)) entries
       /\ Forall auto_send_entry logs.
Proof.
  induction entries as [|[user_id cfg] entries IH]; intros w; cbn [fold_left].
  - cbn. rewrite app_nil_r. repeat (split; [reflexivity|]).
    exists []. rewrite app_nil_r. auto.
  - specialize (IH (auto_send_user now period smtp w (user_id, cfg))).
    cbv zeta in IH. destruct IH as (I1 & I2 & I3 & I4 & logs & I5 & I6 & I7).
    assert (forall u,
              select_submitted_plan
                (world_db (auto_send_user now period smtp w (user_id, cfg)))
                (WeekPeriod.id period) u
              = select_submitted_plan (world_db w) (WeekPeriod.id period) u)
      as Hsel.
    { intros u. rewrite auto_send_user_due.
      destruct (due now (week_key period) cfg); [|reflexivity].
      destruct (select_submitted_plan (world_db w) _ user_id); reflexivity. }
    assert (omap (attempt now period
                    (world_db (auto_send_user now period smtp w (user_id, cfg))))
              entries
            = omap (attempt now period (world_db w)) entries) as Hatt.
    { apply list_omap_ext. apply Forall2_same_length_lookup_2; [reflexivity|].
      intros i x y Hx Hy. rewrite Hx in Hy. injection Hy as <-.
      unfold attempt. rewrite Hsel. reflexivity. }
    rewrite Hatt in I4, I6. cbv zeta.
    rewrite I1, I2, I3, I4, I5. clear I1 I2 I3 I4 I5 Hatt Hsel.
    assert (attempt now period (world_db w) (user_id, cfg)
            = if due now (week_key period) cfg
              then match select_submitted_plan (world_db w)
                           (WeekPeriod.id period) user_id with
                   | Some _ => Some (user_id, week_key period)
                   | None => None
                   end
              else None) as Ha.
    { unfold attempt. cbn [fst snd].
      destruct (due now (week_key period) cfg); cbn [andb]; [|reflexivity].
      destruct (select_submitted_plan _ _ _);
        [rewrite bool_decide_true by eauto
        |rewrite bool_decide_false by (intros [? ?]; discriminate)];
        reflexivity. }
    rewrite auto_send_user_due. cbn [omap list_omap]. rewrite Ha. clear Ha.
    destruct (due now (week_key period) cfg).
    + destruct (select_submitted_plan (world_db w) (WeekPeriod.id period)
                  user_id) as [plan|] eqn:E;
        cbn [world_db sent add_operation_log week_period weekly_plan plan_item
             operation_log].
      * repeat (split; [reflexivity|]).
        split; [rewrite <- app_assoc; reflexivity|].
        eexists (_ :: logs). rewrite <- app_assoc. split; [reflexivity|].
        split; [cbn; rewrite I6; reflexivity|].
        constructor; [|exact I7]. split; cbn; [|eauto].
        destruct (smtp plan cfg); auto.
      * repeat (split; [reflexivity|]). exists logs. auto.
    + repeat (split; [reflexivity|]). exists logs. auto.
Qed.

End Ticks.

Section TickEffects.

Lemma select_submitted_plan_plans db db' period_id user_id :
  weekly_plan db = weekly_plan db' ->
  select_submitted_plan db period_id user_id
  = select_submitted_plan db' period_id user_id.
Proof. unfold select_submitted_plan. intros ->. reflexivity. Qed.

(** A tick is the call of [ensure_period] followed by the loop. *)
Lemma tick_unfold now smtp w :
  exists db1 period,
    ensure_period (world_db w) (date_of now) = Returned (db1, period)
    /\ week_key period = key_of_date (date_of now)
    /\ weekly_plan db1 = weekly_plan (world_db w)
    /\ plan_item db1 = plan_item (world_db w)
    /\ operation_log db1 = operation_log (world_db w)
    /\ try_auto_send_week_plans now smtp w
       = fold_left (auto_send_user now period smtp)
           (map_to_list (email_configs w))
           (mkWorld db1 (email_configs w) (sent w)).
Proof.
  unfold try_auto_send_week_plans.
  destruct (ensure_period_returns (world_db w) (date_of now))
    as (db1 & period & H1 & Hkey).
  destruct (ensure_period_frame _ _ _ _ H1) as (F1 & F2 & F3).
  exists db1, period. rewrite H1. auto 10.
Qed.

(** The directory of configurations after a tick. *)
Lemma tick_configs now smtp w user_id :
  email_configs (try_auto_send_week_plans now smtp w) !! user_id
  = match email_configs w !! user_id with
    | Some cfg =>
        if due now (key_of_date (date_of now)) cfg
        then Some (mark_sent (key_of_date (date_of now)) now cfg)
        else Some cfg
    | None => None
    end.
Proof.
  destruct (tick_unfold now smtp w) as (db1 & period & _ & Hkey & _ & _ & _ & ->).
  destruct (auto_send_loop now period smtp (map_to_list (email_configs w))
              (mkWorld db1 (email_configs w) (sent w)))
    as (new & _ & _ & _ & Hcfg).
  cbv zeta in Hcfg. cbn [email_configs] in Hcfg. rewrite Hcfg.
  pose proof (save_loop_lookup now period (map_to_list (email_configs w))
                (NoDup_fst_map_to_list _) (email_configs w) user_id) as H.
  rewrite Hkey in *. rewrite list_to_map_to_list in H. rewrite H.
  destruct (email_configs w !! user_id) as [cfg|] eqn:E; [|reflexivity].
  destruct (due now _ cfg); reflexivity.
Qed.

(** The calls of [send_plan_email] only add up. *)
Lemma run_sent_grows evs : forall w, exists later, sent (run w evs) = sent w ++ later.
Proof.
  induction evs as [|ev evs IH]; intros w.
  - exists []. rewrite app_nil_r. reflexivity.
  - cbn [run fold_left]. destruct (IH (step w ev)) as (later & H).
    unfold run in H. rewrite H.
    destruct ev as [now smtp| |]; cbn [step sent].
    + destruct (tick_effect now smtp w) as (new & -> & _).
      exists (new ++ later). rewrite app_assoc. reflexivity.
    + exists later. reflexivity.
    + exists later. reflexivity.
Qed.

End TickEffects.

(** X20. The calls of [send_plan_email] of a tick: one for each user whose
    configuration, as read at the start of the tick, is due for the week of
    the day and who has a submitted plan in the period of the day, and no
    other. *)
Theorem tick_sends_exactly (now : datetime)
    (smtp : WeeklyPlan.t -> EmailConfig -> bool) (w : World) :
  exists db1 period new,
    ensure_period (world_db w) (date_of now) = Returned (db1, period)
    /\ sent (try_auto_send_week_plans now smtp w) = sent w ++ new
    /\ forall user_id k,
         (user_id, k) ∈ new
         <-> k = key_of_date (date_of now)
             /\ exists cfg,
                  email_configs w !! user_id = Some cfg
                  /\ due now k cfg = true
                  /\ is_Some (select_submitted_plan (world_db w)
                                (WeekPeriod.id period) user_id).
Proof.
  destruct (tick_unfold now smtp w)
    as (db1 & period & H1 & Hkey & F1 & _ & _ & ->).
  destruct (auto_send_loop_exact now period smtp (map_to_list (email_configs w))
              (mkWorld db1 (email_configs w) (sent w)))
    as (_ & _ & _ & Hsent & _).
  cbv zeta in Hsent. cbn [sent world_db] in Hsent.
  exists db1, period, (omap (attempt now period db1) (map_to_list (email_configs w))).
  split; [exact H1|]. split; [exact Hsent|].
  intros user_id k. rewrite list_elem_of_omap. unfold attempt.
  rewrite Hkey. split.
  - intros ([u cfg] & Hin & Ha). cbn [fst snd] in Ha.
    apply elem_of_map_to_list in Hin.
    destruct (due now (key_of_date (date_of now)) cfg) eqn:Hd;
      [|discriminate]. cbn [andb] in Ha.
    case_bool_decide as Hp; [|discriminate]. injection Ha as <- <-.
    split; [reflexivity|]. exists cfg. split; [exact Hin|].
    split; [exact Hd|].
    rewrite (select_submitted_plan_plans _ db1) by (symmetry; exact F1).
    exact Hp.
  - intros (-> & cfg & Hin & Hd & Hp).
    exists (user_id, cfg). split; [apply elem_of_map_to_list, Hin|].
    cbn [fst snd]. rewrite Hd. cbn [andb].
    rewrite bool_decide_true; [reflexivity|].
    rewrite (select_submitted_plan_plans _ (world_db w)) by exact F1.
    exact Hp.
Qed.


(** X22. Once a tick has found the configuration of a user due, no later tick
    of that ISO week calls [send_plan_email] for the user, whatever is
    submitted or saved in between: a user who had no submitted plan at that
    tick gets no mail for the week. *)
Theorem no_send_after_due_tick (now : datetime)
    (smtp : WeeklyPlan.t -> EmailConfig -> bool) (w : World) (user_id : Z)
    (cfg : EmailConfig) (evs : list event) :
  email_configs w !! user_id = Some cfg ->
  due now (key_of_date (date_of now)) cfg = true ->
  (forall d, d ∈ tick_dates evs -> key_of_date d = key_of_date (date_of now)) ->
  let K := key_of_date (date_of now) in
  let w1 := step w (Tick now smtp) in
  exists later,
    sent (run w1 evs) = sent w1 ++ later
    /\ ((user_id, K) ∉ later)
    /\ (forall db1 period,
          ensure_period (world_db w) (date_of now) = Returned (db1, period) ->
          select_submitted_plan (world_db w) (WeekPeriod.id period) user_id
          = None ->
          sent w = [] -> (user_id, K) ∉ sent (run w1 evs)).
Proof.
  intros Hcfg Hdue Hweek K w1.
  assert (last_key w1 user_id = Some K) as Hlast.
  { unfold last_key, w1. cbn [step]. rewrite tick_configs, Hcfg, Hdue.
    reflexivity. }
  assert (forall evs w2,
            last_key w2 user_id = Some K ->
            (forall d, d ∈ tick_dates evs -> key_of_date d = K) ->
            exists later,
              sent (run w2 evs) = sent w2 ++ later
              /\ ((user_id, K) ∉ later)) as Hrun.
  { clear. induction evs as [|ev evs IH]; intros w2 Hl Hw.
    - exists []. rewrite app_nil_r. split; [reflexivity|]. apply not_elem_of_nil.
    - cbn [run fold_left].
      assert (forall d, d ∈ tick_dates evs -> key_of_date d = K) as Hw'.
      { intros d Hd. apply Hw. destruct ev; cbn; [right|..]; exact Hd. }
      destruct ev as [now2 smtp2|u en wd tm|db]; cbn [step].
      + assert (key_of_date (date_of now2) = K) as HK
          by (apply Hw; cbn; left).
        destruct (tick_effect now2 smtp2 w2) as (new & Hs & _ & Hnew & Hkeys).
        cbv zeta in Hs, Hnew, Hkeys. rewrite HK in Hnew, Hkeys.
        destruct (IH (try_auto_send_week_plans now2 smtp2 w2)) as (later & H1 & H2).
        * destruct (Hkeys user_id) as [E|E]; rewrite E; auto.
        * exact Hw'.
        * exists (new ++ later). unfold run in H1. rewrite H1, Hs, app_assoc.
          split; [reflexivity|].
          intros [Hin|Hin]%elem_of_app; [|exact (H2 Hin)].
          destruct (Hnew _ _ Hin) as (_ & Hne & _). exact (Hne Hl).
      + apply (IH (step w2 (SaveConfig u en wd tm))); [|exact Hw'].
        rewrite save_config_last_key. exact Hl.
      + apply (IH (mkWorld db (email_configs w2) (sent w2))); [|exact Hw'].
        exact Hl. }
  destruct (Hrun evs w1 Hlast Hweek) as (later & H1 & H2).
  exists later. split; [exact H1|]. split; [exact H2|].
  intros db1 period He Hnone Hempty. rewrite H1.
  intros [Hin|Hin]%elem_of_app; [|exact (H2 Hin)].
  destruct (tick_unfold now smtp w)
    as (db1' & period' & He' & _ & F1 & _ & _ & Htick).
  rewrite He in He'. injection He' as <- <-.
  destruct (auto_send_loop_exact now period smtp (map_to_list (email_configs w))
              (mkWorld db1 (email_configs w) (sent w)))
    as (_ & _ & _ & Hsent & _).
  cbv zeta in Hsent. cbn [sent world_db] in Hsent.
  unfold w1 in Hin. cbn [step] in Hin.
  rewrite Htick, Hsent, Hempty in Hin. cbn [app] in Hin.
  apply list_elem_of_omap in Hin as ([u cfg'] & _ & Ha).
  unfold attempt in Ha. cbn [fst snd] in Ha.
  destruct (due now (week_key period) cfg'); [|discriminate].
  cbn [andb] in Ha. case_bool_decide as Hp; [|discriminate].
  injection Ha as -> _.
  rewrite (select_submitted_plan_plans _ (world_db w)), Hnone in Hp
    by exact F1.
  destruct Hp as [? ?]. discriminate.
Qed.

(** The user of [sample_world] is due on Wednesday 2024-01-31 at 09:00 and
    has no plan at the tick of 10:00; the plan submitted on Thursday is not
    sent at the ticks of Friday and Sunday. *)
Lemma no_send_after_due_tick_witness :
  (1, (2024, 5))
  ∉ sent (run (step sample_world_no_plan (Tick sample_now (fun _ _ => true)))
            sample_late_events).
Proof.
  destruct (no_send_after_due_tick sample_now (fun _ _ => true)
              sample_world_no_plan 1
              (mkEmailConfig true (Some 3) (Some (HHMM 9 0)) None None)
              sample_late_events) as (later & _ & _ & H).
  - vm_compute. reflexivity.
  - vm_compute. reflexivity.
  - intros d Hd. vm_compute in Hd.
    apply elem_of_cons in Hd as [->|Hd]; [vm_compute; reflexivity|].
    apply elem_of_cons in Hd as [->|Hd]; [vm_compute; reflexivity|].
    inversion Hd.
  - apply (H (set_week_period
                [WeekPeriod.mk 1 2024 2 5 (mkdate 2024 1 29) (mkdate 2024 2 4)]
                empty_db)
             (WeekPeriod.mk 1 2024 2 5 (mkdate 2024 1 29) (mkdate 2024 2 4)));
      vm_compute; reflexivity.
Defined.

(** X23. The dictionary of [get_plan_item_stats] has an entry for each plan
    asked for and for no other; the entry of a plan is the one a call for
    that plan alone gives; and the order of the ids and their repetitions
    make no difference. *)
Theorem get_plan_item_stats_batch (db : Db) (plan_ids plan_ids' : list Z)
    (pid : Z) :
  (is_Some (get_plan_item_stats db plan_ids !! pid) <-> (pid ∈ plan_ids))
  /\ ((pid ∈ plan_ids) ->
      get_plan_item_stats db plan_ids !! pid
      = get_plan_item_stats db [pid] !! pid)
  /\ ((forall i, (i ∈ plan_ids) <-> (i ∈ plan_ids')) ->
      get_plan_item_stats db plan_ids = get_plan_item_stats db plan_ids').
Proof.
  assert (forall ids i,
            get_plan_item_stats db ids !! i
            = if bool_decide (i ∈ ids)
              then
                let its := plan_items db i in
                Some (mkStat (round1 (fold_left add (estimated_or_0 <$> its) zero))
                        (round1 (fold_left add (item_actual <$> its) zero))
                        (Z.of_nat (length its)))
              else None) as L.
  { intros ids i. destruct ids as [|i0 ids0] eqn:E.
    - cbn. rewrite lookup_empty. reflexivity.
    - rewrite <- E. apply get_plan_item_stats_lookup. rewrite E. discriminate. }
  split; [|split].
  - rewrite L. case_bool_decide as H.
    + split; [auto|]. intros _. eexists. reflexivity.
    + split; [intros [? ?]; discriminate|contradiction].
  - intros H. rewrite !L, !bool_decide_true; [reflexivity| |exact H].
    apply list_elem_of_singleton. reflexivity.
  - intros H. apply map_eq. intros i. rewrite !L.
    rewrite (bool_decide_ext _ _ (H i)). reflexivity.
Qed.

Section Items.

Context (column : option float -> option float).

Lemma foldr_max_bound (l : list Z) : forall a x,
  x ∈ a :: l -> x <= foldr Z.max a l.
Proof.
  induction l as [|m l IH]; intros a x H.
  - apply list_elem_of_singleton in H as ->. cbn. lia.
  - cbn [foldr]. apply elem_of_cons in H as [->|H].
    + specialize (IH a a ltac:(left)). lia.
    + apply elem_of_cons in H as [->|H]; [lia|].
      specialize (IH a x ltac:(right; exact H)). lia.
Qed.

Lemma max_sort_no_bound db plan_id it :
  it ∈ plan_items db plan_id -> PlanItem.sort_no it <= max_sort_no db plan_id.
Proof.
  unfold max_sort_no. intros H.
  apply (list_elem_of_fmap_2 PlanItem.sort_no) in H.
  destruct (PlanItem.sort_no <$> plan_items db plan_id) as [|n ns];
    [inversion H|].
  apply foldr_max_bound, H.
Qed.

Lemma plan_items_app db rows plan_id :
  plan_items (set_plan_item (plan_item db ++ rows) db) plan_id
  = plan_items db plan_id
    ++ List.filter (fun it => PlanItem.plan_id it =? plan_id) rows.
Proof. unfold plan_items. cbn. apply List.filter_app. Qed.

(** The last row, with an id above the others, is the one found for its
    id, and the others are what is left without it. *)
Lemma delete_fresh (rows : list PlanItem.t) (item : PlanItem.t) :
  (forall it, it ∈ rows -> PlanItem.id it < PlanItem.id item) ->
  List.find (fun it => PlanItem.id it =? PlanItem.id item) (rows ++ [item])
  = Some item
  /\ List.filter (fun it => negb (PlanItem.id it =? PlanItem.id item))
       (rows ++ [item]) = rows.
Proof.
  induction rows as [|q rows IH]; intros Hq.
  - cbn. rewrite Z.eqb_refl. auto.
  - cbn. assert ((PlanItem.id q =? PlanItem.id item) = false) as ->
      by (apply Z.eqb_neq; specialize (Hq q ltac:(left)); lia).
    cbn. destruct IH as [-> ->]; [|auto].
    intros it Hit. apply Hq. right. exact Hit.
Qed.

(** Taking rows away keeps the rest in order. *)
Lemma filter_keeps_sorted (keep : PlanItem.t -> bool) (pid : Z)
    (rows : list PlanItem.t) :
  StronglySorted Z.lt
    (PlanItem.sort_no
       <$> List.filter (fun it => PlanItem.plan_id it =? pid) rows) ->
  StronglySorted Z.lt
    (PlanItem.sort_no
       <$> List.filter (fun it => PlanItem.plan_id it =? pid)
             (List.filter keep rows)).
Proof.
  induction rows as [|q rows IH]; [constructor|].
  cbn. destruct (keep q); cbn;
    destruct (PlanItem.plan_id q =? pid); cbn; intros Hs.
  - apply StronglySorted_inv in Hs as [Hs Hq].
    constructor; [apply IH, Hs|].
    apply Forall_forall. intros x Hx.
    rewrite Forall_forall in Hq. apply Hq.
    apply list_elem_of_fmap in Hx as (it & -> & Hit).
    apply list_elem_of_fmap. exists it. split; [reflexivity|].
    apply list_elem_of_In, filter_In in Hit as [Hit Hp].
    apply filter_In in Hit as [Hit _].
    apply list_elem_of_In, filter_In. auto.
  - apply IH, Hs.
  - apply StronglySorted_inv in Hs as [Hs _]. apply IH, Hs.
  - apply IH, Hs.
Qed.

Lemma filter_of_sorted (keep : PlanItem.t -> bool) (rows : list PlanItem.t) :
  StronglySorted Z.lt (PlanItem.sort_no <$> rows) ->
  StronglySorted Z.lt (PlanItem.sort_no <$> List.filter keep rows).
Proof.
  induction rows as [|q rows IH]; [constructor|].
  cbn. intros Hs. apply StronglySorted_inv in Hs as [Hs Hq].
  destruct (keep q); [|apply IH, Hs]. cbn.
  constructor; [apply IH, Hs|].
  apply Forall_forall. intros x Hx.
  rewrite Forall_forall in Hq. apply Hq.
  apply list_elem_of_fmap in Hx as (it & -> & Hit).
  apply list_elem_of_fmap. exists it. split; [reflexivity|].
  apply list_elem_of_In, filter_In in Hit as [Hit _].
  apply list_elem_of_In, Hit.
Qed.

Lemma set_plan_item_same db : set_plan_item (plan_item db) db = db.
Proof. destruct db. reflexivity. Qed.

(** The entry of a plan in the statistics is read off the items of the
    plan. *)
Lemma stats_of_items db pid :
  get_plan_item_stats db [pid] !! pid
  = let its := plan_items db pid in
    Some (mkStat (round1 (fold_left add (estimated_or_0 <$> its) zero))
            (round1 (fold_left add (item_actual <$> its) zero))
            (Z.of_nat (length its))).
Proof.
  rewrite get_plan_item_stats_lookup by discriminate.
  rewrite bool_decide_true; [reflexivity|].
  apply list_elem_of_singleton. reflexivity.
Qed.

Lemma item_total_hours_actual it : item_total_hours it = item_actual it.
Proof.
  unfold item_total_hours, item_actual, has_details, estimated_or_0,
    add_detail_hours.
  destruct (PlanItem.details it); reflexivity.
Qed.

(** The two totals of the exporter are sums over the items. *)
Lemma export_loop (its : list PlanItem.t) : forall a b,
  fold_left
    (fun '(total_est, total_sum) item =>
       let est := match PlanItem.estimated_hours item with
                  | Some h => h
                  | None => zero
                  end in
       let item_sum := item_total_hours item in
       (add total_est est, add total_sum item_sum))
    its (a, b)
  = (fold_left add
       ((fun item => match PlanItem.estimated_hours item with
                     | Some h => h
                     | None => zero
                     end) <$> its) a,
     fold_left add (item_actual <$> its) b).
Proof.
  induction its as [|it its IH]; intros a b; [reflexivity|].
  cbn [fold_left fmap list_fmap]. cbv zeta. rewrite IH.
  rewrite item_total_hours_actual. reflexivity.
Qed.

(** An estimate that is a zero adds what [0] adds. *)
Lemma add_estimates (its : list PlanItem.t) : forall acc,
  accumulator acc -> Forall (fun it => item_ok it = true) its ->
  fold_left add
    ((fun item => match PlanItem.estimated_hours item with
                  | Some h => h
                  | None => zero
                  end) <$> its) acc
  = fold_left add (estimated_or_0 <$> its) acc.
Proof.
  induction its as [|it its IH]; intros acc Hacc Hok; [reflexivity|].
  apply Forall_cons in Hok as [Hit Hok].
  cbn [fold_left fmap list_fmap].
  assert (add acc match PlanItem.estimated_hours it with
                  | Some h => h
                  | None => zero
                  end
          = add acc (estimated_or_0 it)) as ->.
  { unfold estimated_or_0.
    destruct (PlanItem.estimated_hours it) as [h|]; [|reflexivity].
    destruct h as [s| | |]; cbn [truthy]; try reflexivity.
    destruct Hacc as [_ Hnz].
    rewrite add_any_zero_r, add_zero_r by exact Hnz. reflexivity. }
  apply IH; [|exact Hok].
  apply accumulator_add; [exact Hacc|].
  apply estimated_or_0_fine, Hit.
Qed.

End Items.

(** X24. [add_item] puts the new item at the end of the items of its plan, with
    a [sort_no] above theirs and an id above all ids, and touches no other
    plan: the plan counts one item more and its hours grow by the estimate
    of the item, the primary key and the order by [sort_no] are kept, and
    [delete_item] on the new id gives the database back. *)
Theorem add_item_spec (column : option float -> option float) (db : Db)
    (plan_id : Z) (estimated_hours : option float) :
  let '(db1, item) := add_item column db plan_id estimated_hours in
  plan_items db1 plan_id = plan_items db plan_id ++ [item]
  /\ (forall other, other <> plan_id ->
        plan_items db1 other = plan_items db other)
  /\ (forall it, it ∈ plan_items db plan_id ->
        PlanItem.sort_no it < PlanItem.sort_no item)
  /\ (forall it, it ∈ plan_item db -> PlanItem.id it < PlanItem.id item)
  /\ items <$> (get_plan_item_stats db1 [plan_id] !! plan_id)
     = (fun n => n + 1) <$> (items <$> (get_plan_item_stats db [plan_id] !! plan_id))
  /\ (is_Some (get_plan db plan_id) ->
      sum_plan_hours db1 plan_id
      = add (sum_plan_hours db plan_id) (estimated_or_0 item))
  /\ (pk_plan_item (plan_item db) -> pk_plan_item (plan_item db1))
  /\ (in_sort_order db -> in_sort_order db1)
  /\ delete_item db1 (PlanItem.id item) = db
  /\ week_period db1 = week_period db
  /\ weekly_plan db1 = weekly_plan db
  /\ operation_log db1 = operation_log db.
Proof.
  unfold add_item. cbv zeta.
  set (item := PlanItem.mk _ _ _ _ _).
  assert (forall it, it ∈ plan_item db -> PlanItem.id it < PlanItem.id item)
    as Hfresh.
  { intros it Hit. cbn. apply next_id_fresh, list_elem_of_fmap. eauto. }
  assert (forall it, it ∈ plan_items db plan_id ->
            PlanItem.sort_no it < PlanItem.sort_no item) as Hsort.
  { intros it Hit. apply max_sort_no_bound in Hit. cbn. lia. }
  assert (plan_items (set_plan_item (plan_item db ++ [item]) db) plan_id
          = plan_items db plan_id ++ [item]) as Hmine.
  { rewrite plan_items_app. cbn. rewrite Z.eqb_refl. reflexivity. }
  assert (forall other, other <> plan_id ->
            plan_items (set_plan_item (plan_item db ++ [item]) db) other
            = plan_items db other) as Hother.
  { intros other Hne. rewrite plan_items_app. cbn.
    assert ((plan_id =? other) = false) as -> by (apply Z.eqb_neq; congruence).
    apply app_nil_r. }
  split; [exact Hmine|]. split; [exact Hother|]. split; [exact Hsort|].
  split; [exact Hfresh|]. split.
  { rewrite !stats_of_items. cbv zeta. rewrite Hmine. cbn.
    rewrite length_app. cbn. f_equal. lia. }
  split.
  { intros [plan Hplan]. unfold get_plan in Hplan. unfold sum_plan_hours.
    assert (db_get_plan (set_plan_item (plan_item db ++ [item]) db) plan_id
            = Some plan) as -> by exact Hplan.
    rewrite Hplan.
    assert (WeeklyPlan.id plan = plan_id) as ->.
    { unfold db_get_plan in Hplan. apply find_some in Hplan as [_ H].
      apply Z.eqb_eq, H. }
    rewrite Hmine, fold_left_app. reflexivity. }
  split.
  { unfold pk_plan_item. cbn [plan_item set_plan_item]. rewrite fmap_app.
    intros Hpk. apply NoDup_app.
    split; [exact Hpk|]. split; [|apply NoDup_singleton].
    intros i Hi Hi'. apply list_elem_of_singleton in Hi' as ->.
    apply list_elem_of_fmap in Hi as (it & Hid & Hit).
    specialize (Hfresh it Hit). lia. }
  split.
  { intros Hs pid. destruct (Z.eq_dec pid plan_id) as [->|Hne].
    - rewrite Hmine, fmap_app. apply StronglySorted_app_2;
        [|apply Hs|repeat constructor].
      intros x y Hx Hy. apply list_elem_of_singleton in Hy as ->.
      apply list_elem_of_fmap in Hx as (it & -> & Hit). apply Hsort, Hit.
    - rewrite Hother by exact Hne. apply Hs. }
  split; [|auto].
  unfold delete_item, db_get_item. cbn [plan_item set_plan_item].
  destruct (delete_fresh (plan_item db) item Hfresh) as [-> ->].
  destruct db. reflexivity.
Qed.

(** X25. [delete_item] removes the item of the id and no other, leaves the
    database as it is when there is no such item, and keeps the order by
    [sort_no] of the items of every plan. *)
Theorem delete_item_spec (db : Db) (item_id : Z) :
  let db1 := delete_item db item_id in
  db_get_item db1 item_id = None
  /\ (db_get_item db item_id = None -> db1 = db)
  /\ (forall it, (it ∈ plan_item db1)
                 <-> (it ∈ plan_item db) /\ PlanItem.id it <> item_id)
  /\ (in_sort_order db -> in_sort_order db1)
  /\ week_period db1 = week_period db
  /\ weekly_plan db1 = weekly_plan db
  /\ operation_log db1 = operation_log db.
Proof.
  cbv zeta. unfold delete_item.
  destruct (db_get_item db item_id) as [item|] eqn:E.
  - assert (PlanItem.id item = item_id) as ->.
    { unfold db_get_item in E. apply find_some in E as [_ E].
      apply Z.eqb_eq, E. }
    set (keep := fun it : PlanItem.t => negb (PlanItem.id it =? item_id)).
    assert (forall it, (it ∈ List.filter keep (plan_item db))
                       <-> (it ∈ plan_item db)
                           /\ PlanItem.id it <> item_id) as Hin.
    { intros it. rewrite list_elem_of_In, filter_In, <- list_elem_of_In.
      unfold keep. rewrite negb_true_iff, Z.eqb_neq. reflexivity. }
    split.
    { unfold db_get_item. cbn [plan_item set_plan_item].
      destruct (List.find _ _) as [it|] eqn:F; [|reflexivity].
      apply find_some in F as [F1 F2]. apply list_elem_of_In, Hin in F1.
      apply Z.eqb_eq in F2. tauto. }
    split; [discriminate|]. split; [exact Hin|]. split; [|auto].
    intros Hs pid. specialize (Hs pid). unfold plan_items in *.
    cbn [plan_item set_plan_item]. apply filter_keeps_sorted, Hs.
  - rewrite E.
    split; [reflexivity|]. split; [reflexivity|]. split; [|auto].
    intros it. split; [|tauto]. intros Hit. split; [exact Hit|].
    intros Hid. unfold db_get_item in E.
    apply list_elem_of_In in Hit. apply (find_none _ _ E) in Hit.
    apply Z.eqb_neq in Hit. contradiction.
Qed.

(** X26. On a plan whose items are in the order of their [sort_no], as
    [add_item] leaves them, the totals of the exported sheet, rounded to one
    decimal, are the two sums [get_plan_item_stats] reports for the plan. *)
Theorem export_totals_match_stats (db : Db) (plan : WeeklyPlan.t) :
  in_sort_order db ->
  Forall (fun it => item_ok it = true) (plan_items db (WeeklyPlan.id plan)) ->
  let '(total_est, total_sum) := export_totals db plan in
  get_plan_item_stats db [WeeklyPlan.id plan] !! WeeklyPlan.id plan
  = Some (mkStat (round1 total_est) (round1 total_sum)
            (Z.of_nat (length (plan_items db (WeeklyPlan.id plan))))).
Proof.
  intros Hs Hok. unfold export_totals.
  rewrite (sorted_by_key_sorted _ _ (Hs (WeeklyPlan.id plan))).
  rewrite export_loop, add_estimates by (exact accumulator_zero || exact Hok).
  rewrite stats_of_items. reflexivity.
Qed.

Lemma export_totals_match_stats_witness :
  let '(total_est, total_sum) :=
    export_totals db_two_plans (WeeklyPlan.mk 1 1 1 "draft") in
  get_plan_item_stats db_two_plans [1] !! 1
  = Some (mkStat (round1 total_est) (round1 total_sum) 1).
Proof.
  apply (export_totals_match_stats db_two_plans (WeeklyPlan.mk 1 1 1 "draft")).
  - intros pid. unfold plan_items.
    apply (filter_of_sorted (fun it => PlanItem.plan_id it =? pid)).
    cbn. repeat constructor.
  - apply (bool_decide_unpack _). vm_compute. exact I.
Defined.

(** X10. After a call of [ensure_period] for a date, the call for any of the
    seven days of the ISO week of the date returns the same row and writes
    nothing. *)
Theorem ensure_period_whole_week (db db1 : Db) (p : WeekPeriod.t)
    (d d' : date) :
  ensure_period db d = Returned (db1, p) ->
  snd (fst (iso_week_period d)) <= d' <= snd (iso_week_period d) ->
  ensure_period db1 d' = Returned (db1, p).
Proof.
  intros H1 Hd. apply (ensure_period_same_week db db1 p d d' H1).
  unfold key_of_date. rewrite (iso_week_period_within d d' Hd). reflexivity.
Qed.

(** The call for Wednesday 2024-01-31 on the empty table, then the call
    for the Sunday of that week. *)
Lemma ensure_period_whole_week_witness :
  let p := WeekPeriod.mk 1 2024 2 5 (mkdate 2024 1 29) (mkdate 2024 2 4) in
  ensure_period (set_week_period [p] empty_db) (mkdate 2024 2 4)
  = Returned (set_week_period [p] empty_db, p).
Proof.
  intros p.
  apply (ensure_period_whole_week empty_db _ p (mkdate 2024 1 31)).
  - vm_compute. reflexivity.
  - vm_compute. split; discriminate.
Defined.

Section MonthPage.

Ltac euclid := Z.to_euclidean_division_equations; lia.

(** Within a year of a month, the days of the month are the days with
    its number; their day numbers count from the first. *)
Lemma day_of_month year month t :
  1 <= month <= 12 ->
  let first_day := mkdate year month 1 in
  let last_day := mkdate year month (days_in_month year month) in
  first_day - 300 < t < last_day + 300 ->
  (datetime.month t = month <-> first_day <= t <= last_day)
  /\ (first_day <= t <= last_day ->
      datetime.year t = year /\ day t = t - first_day + 1).
Proof.
  intros Hm first_day last_day Hnear.
  pose proof (days_in_month_bounds year month Hm) as B.
  assert (last_day = first_day + days_in_month year month - 1) as Hlast
    by (unfold last_day, first_day, mkdate, ymd2ord; lia).
  assert (forall dd, 1 <= dd <= days_in_month year month ->
            ord2ymd (first_day + dd - 1) = (year, month, dd)) as Hin.
  { intros dd Hdd.
    replace (first_day + dd - 1) with (ymd2ord year month dd)
      by (unfold first_day, mkdate, ymd2ord; lia).
    apply ord2ymd_ymd2ord; assumption. }
  clearbody first_day last_day. subst last_day.
  assert (datetime.month first_day = month /\ day first_day = 1) as [Mf Df].
  { specialize (Hin 1 ltac:(lia)).
    replace (first_day + 1 - 1) with first_day in Hin by lia.
    unfold datetime.month, day. rewrite Hin. auto. }
  set (last_day := first_day + days_in_month year month - 1) in *.
  assert (datetime.year last_day = year /\ datetime.month last_day = month
          /\ day last_day = days_in_month year month) as (Yl & Ml & Dl).
  { specialize (Hin (days_in_month year month) ltac:(lia)).
    fold last_day in Hin.
    unfold datetime.year, datetime.month, day. rewrite Hin. auto. }
  assert (first_day <= t <= last_day ->
          datetime.year t = year /\ datetime.month t = month
          /\ day t = t - first_day + 1) as Ht.
  { intros Ht. specialize (Hin (t - first_day + 1) ltac:(lia)).
    replace (first_day + (t - first_day + 1) - 1) with t in Hin by lia.
    unfold datetime.year, datetime.month, day. rewrite Hin. auto. }
  clear Hin.
  split; [split|].
  - intros E.
    destruct (Z.lt_ge_cases t first_day) as [L|G].
    + exfalso.
      destruct (same_month_days t (first_day - t) ltac:(lia)) as [_ D];
        replace (t + (first_day - t)) with first_day in * by lia.
      * congruence.
      * pose proof (day_bounds t). generalize dependent (day t).
        generalize dependent (day first_day). intros. lia.
    + split; [lia|].
      destruct (Z.le_gt_cases t last_day) as [L|G2]; [exact L|]. exfalso.
      destruct (same_month_days last_day (t - last_day) ltac:(lia)) as [Y D];
        replace (last_day + (t - last_day)) with t in * by lia.
      * congruence.
      * destruct (ord2ymd_spec t) as (_ & Dt & _). rewrite Y, Yl, E in Dt.
        generalize dependent (day t). generalize dependent (day last_day).
        intros. lia.
  - intros H. apply Ht, H.
  - intros H. split; apply Ht, H.
Qed.

(** Lists in strictly ascending order with the same elements are equal. *)
Lemma sorted_eq (l1 l2 : list Z) :
  StronglySorted Z.lt l1 -> StronglySorted Z.lt l2 ->
  (forall x, x ∈ l1 <-> x ∈ l2) -> l1 = l2.
Proof.
  intros S1 S2 H.
  assert (forall l, StronglySorted Z.lt l -> NoDup l) as ND.
  { induction 1 as [|x l Hs IH Hx]; constructor; [|exact IH].
    intros Hin. rewrite Forall_forall in Hx. specialize (Hx x Hin). lia. }
  apply (StronglySorted_unique_strong Z.lt); try assumption.
  - intros. lia.
  - apply NoDup_Permutation; auto.
Qed.

(** The Mondays of the loop whose Thursday lies in the month are 4 or 5
    Mondays a week apart, the first at most three days before the month or
    in its first four days. *)
Lemma thursdays_in_month (first_day last_day monday : date) (l : list date) :
  monday mod 7 = 1 -> first_day - 6 <= monday <= first_day ->
  27 <= last_day - first_day <= 30 ->
  StronglySorted Z.lt l ->
  (forall m, (m ∈ l)
             <-> (monday <= m <= last_day) /\ ((m - monday) mod 7 = 0)
                 /\ (first_day <= m + 3 <= last_day)) ->
  exists a k,
    l = (fun i => a + 7 * i) <$> seqZ 0 k
    /\ 0 <= a + 3 - first_day <= 6 /\ 4 <= k <= 5
    /\ a + 7 * (k - 1) + 3 <= last_day.
Proof.
  intros Hmon Hfirst Hspan Hs Hin.
  set (a := if first_day <=? monday + 3 then monday else monday + 7).
  set (k := (last_day - 3 - a) / 7 + 1).
  assert (0 <= a + 3 - first_day <= 6 /\ (a - monday) mod 7 = 0
          /\ monday <= a) as (Ha & Ha7 & Hma).
  { unfold a. destruct (first_day <=? monday + 3) eqn:E;
      [apply Z.leb_le in E|apply Z.leb_gt in E]; euclid. }
  clearbody a.
  assert (4 <= k <= 5 /\ a + 7 * (k - 1) + 3 <= last_day
          /\ last_day < a + 7 * k + 3) as (Hk & Hk1 & Hk2)
    by (unfold k; euclid).
  clearbody k.
  exists a, k. split; [|auto].
  apply sorted_eq; [exact Hs| |].
  - assert (forall n (b : Z), StronglySorted Z.lt
              ((fun i => a + 7 * i) <$> seqZ b (Z.of_nat n))) as G.
    { induction n as [|n IH]; intros b; [constructor|].
      rewrite Nat2Z.inj_succ, seqZ_cons by lia. cbn.
      replace (Z.pred (Z.succ (Z.of_nat n))) with (Z.of_nat n) by lia.
      constructor; [apply IH|].
      apply Forall_forall. intros x Hx.
      apply list_elem_of_fmap in Hx as (i & -> & Hi).
      apply elem_of_seqZ in Hi. lia. }
    replace k with (Z.of_nat (Z.to_nat k)) by lia. apply G.
  - intros m. rewrite Hin, list_elem_of_fmap. split.
    + intros (B & M & T). exists ((m - a) / 7).
      rewrite elem_of_seqZ. euclid.
    + intros (i & -> & Hi). apply elem_of_seqZ in Hi. euclid.
Qed.

End MonthPage.

(** On ordinals: the weeks the page of a user's plans lists for a month: of
    the rows [ensure_month_periods] returns, those with the number of the
    month are the four or five weeks whose Thursday lies in the month, in
    order, and [week_in_month_for_period] numbers them 1, 2, 3, ... *)
Lemma month_periods_numbered (db : Db) (year month : Z) :
  1 <= month <= 12 ->
  pk_week_period (week_period db) -> Forall iso_week_row (week_period db) ->
  exists db1 month_periods_all,
    ensure_month_periods db year month = Returned (db1, month_periods_all)
    /\ let periods := month_periods month_periods_all month in
       week_in_month_for_period <$> (WeekPeriod.start_date <$> periods)
       = seqZ 1 (Z.of_nat (length periods))
       /\ (4 <= length periods <= 5)%nat
       /\ Forall (fun p =>
                    datetime.year (add_days (WeekPeriod.start_date p) 3) = year
                    /\ datetime.month (add_days (WeekPeriod.start_date p) 3)
                       = month) periods.
Proof.
  intros Hm Hpk Hwf.
  destruct (ensure_month_periods_rows db year month Hm Hpk Hwf)
    as (db1 & qs & H1 & Hst & _ & Hall & _).
  destruct (month_days year month Hm) as (Hmon & Hfirst & Hspan & _).
  pose proof (day_of_month year month) as Hday.
  cbv zeta in Hst, Hmon, Hfirst, Hspan, Hday.
  set (first_day := mkdate year month 1) in *.
  set (last_day := mkdate year month (days_in_month year month)) in *.
  set (monday := add_days first_day (- (isoweekday first_day - 1))) in *.
  clearbody monday last_day first_day.
  destruct (mondays_upto_spec last_day (Z.to_nat (last_day + 1 - monday))
              monday ltac:(lia)) as (Hin & Hsorted & _).
  rewrite <- Hst in Hin, Hsorted.
  exists db1, qs. split; [exact H1|]. cbv zeta. unfold month_periods.
  set (periods := List.filter _ qs).
  assert (forall p, p ∈ periods ->
            (p ∈ qs) /\ first_day <= WeekPeriod.start_date p + 3 <= last_day)
    as Hper.
  { intros p Hp. apply list_elem_of_In, filter_In in Hp as [Hp Hmo].
    apply list_elem_of_In in Hp. split; [exact Hp|].
    apply Z.eqb_eq in Hmo. rewrite Forall_forall in Hall.
    destruct (Hall p Hp) as (_ & _ & Mp & _). unfold month_of_thursday in Mp.
    rewrite Mp in Hmo. unfold add_days in Hmo.
    assert (WeekPeriod.start_date p ∈ WeekPeriod.start_date <$> qs) as Hs
      by (apply list_elem_of_fmap; exists p; auto).
    apply Hin in Hs. apply Hday; [exact Hm|lia|exact Hmo]. }
  assert (StronglySorted Z.lt (WeekPeriod.start_date <$> periods)) as Hps.
  { unfold periods. clear -Hsorted. induction qs as [|q qs IH]; [constructor|].
    rewrite fmap_cons in Hsorted. apply StronglySorted_inv in Hsorted as [Hs Hq].
    cbn. destruct (WeekPeriod.month q =? month); [|apply IH, Hs].
    cbn. constructor; [apply IH, Hs|].
    apply Forall_forall. intros x Hx. rewrite Forall_forall in Hq. apply Hq.
    apply list_elem_of_fmap in Hx as (p & -> & Hp).
    apply list_elem_of_fmap. exists p. split; [reflexivity|].
    apply list_elem_of_In, filter_In in Hp as [Hp _].
    apply list_elem_of_In, Hp. }
  destruct (thursdays_in_month first_day last_day monday
              (WeekPeriod.start_date <$> periods) Hmon Hfirst Hspan Hps)
    as (a & k & Hl & Ha & Hk & Hlast).
  { intros m. split.
    - intros (p & -> & Hp)%list_elem_of_fmap.
      destruct (Hper p Hp) as [Hq Ht].
      assert (WeekPeriod.start_date p ∈ WeekPeriod.start_date <$> qs) as Hs
        by (apply list_elem_of_fmap; exists p; auto).
      apply Hin in Hs. tauto.
    - intros (B & M & T).
      assert (m ∈ WeekPeriod.start_date <$> qs) as Hs by (apply Hin; auto).
      apply list_elem_of_fmap in Hs as (p & -> & Hp).
      apply list_elem_of_fmap. exists p. split; [reflexivity|].
      apply list_elem_of_In, filter_In. split; [apply list_elem_of_In, Hp|].
      apply Z.eqb_eq. rewrite Forall_forall in Hall.
      destruct (Hall p Hp) as (_ & _ & Mp & _). rewrite Mp.
      unfold add_days. apply Hday; [exact Hm|lia|exact T]. }
  assert (Z.of_nat (length periods) = k) as Hlen.
  { rewrite <- (length_fmap WeekPeriod.start_date), Hl, length_fmap, length_seqZ.
    lia. }
  split; [|split; [lia|]].
  - rewrite Hl, Hlen, <- list_fmap_compose.
    change (seqZ 1 k) with (seqZ (1 + 0) k).
    rewrite <- (fmap_add_seqZ 1 0 k).
    apply Forall_fmap_ext, Forall_forall. intros i Hi.
    apply elem_of_seqZ in Hi. cbn.
    unfold week_in_month_for_period, week_in_month, add_days.
    destruct (Hday (a + 7 * i + 3) Hm ltac:(lia)) as [_ D].
    destruct (D ltac:(lia)) as [_ ->].
    Z.to_euclidean_division_equations; lia.
  - apply Forall_forall. intros p Hp. destruct (Hper p Hp) as [Hq Ht].
    unfold add_days.
    destruct (Hday (WeekPeriod.start_date p + 3) Hm ltac:(lia)) as [D1 D2].
    split; [apply D2, Ht|apply D1, Ht].
Qed.

(* ===================================================================== *)
(** * Properties: the functions within the range of dates *)
(* ===================================================================== *)

Section DateRange.

Lemma add_days_Returned d n :
  is_date (d + n) -> checked.add_days d n = Returned (d + n).
Proof.
  unfold is_date, checked.add_days, MAXORDINAL. intros H. cbv zeta.
  destruct (Z.ltb_spec 0 (d + n)); [|lia].
  destruct (Z.leb_spec (d + n) 3652059); [reflexivity|lia].
Qed.

Lemma add_days_Raised d n :
  ~ is_date (d + n) -> checked.add_days d n = Raised OverflowError.
Proof.
  unfold is_date, checked.add_days, MAXORDINAL. intros H. cbv zeta.
  destruct (Z.ltb_spec 0 (d + n)); [|reflexivity].
  destruct (Z.leb_spec (d + n) 3652059); [lia|reflexivity].
Qed.

(** The Monday and the Sunday of the week of a date, as ordinals. *)
Lemma iso_week_period_monday d :
  let '(_, _, monday, sunday) := iso_week_period d in
  monday = d - (isoweekday d - 1) /\ sunday = monday + 6
  /\ monday <= d <= sunday /\ monday mod 7 = 1.
Proof.
  unfold iso_week_period, add_days.
  pose proof (isocalendar_weekday d) as Hwd.
  destruct (isocalendar d) as [[Y W] D]. cbn [snd] in Hwd. subst D.
  unfold isoweekday. destruct (Z.eqb_spec (d mod 7) 0);
    repeat split; Z.to_euclidean_division_equations; lia.
Qed.

Lemma whole_week_monday d :
  whole_week d ->
  let '(_, _, monday, sunday) := iso_week_period d in
  1 <= monday /\ sunday = monday + 6 /\ sunday <= MAXORDINAL - 5
  /\ monday <= d <= sunday /\ monday mod 7 = 1.
Proof.
  unfold whole_week, MAXORDINAL. intros Hd.
  pose proof (iso_week_period_monday d) as H.
  destruct (iso_week_period d) as [[[Y W] monday] sunday].
  destruct H as (_ & -> & Hle & Hmod).
  repeat split; try lia; Z.to_euclidean_division_equations; lia.
Qed.

Lemma not_whole_week_monday d :
  ~ whole_week d ->
  let '(_, _, monday, sunday) := iso_week_period d in
  monday < 1 \/ MAXORDINAL < sunday.
Proof.
  unfold whole_week, MAXORDINAL. intros Hd.
  pose proof (iso_week_period_monday d) as H.
  destruct (iso_week_period d) as [[[Y W] monday] sunday].
  destruct H as (_ & -> & Hle & Hmod).
  Z.to_euclidean_division_equations; lia.
Qed.

(** [iso_week_period] returns for the dates up to 9999-12-26, what the
    arithmetic on ordinals gives, and raises [OverflowError] for the
    others. *)
Lemma checked_iso_week_period_eq d :
  checked.iso_week_period d
  = if decide (whole_week d) then Returned (iso_week_period d)
    else Raised OverflowError.
Proof.
  destruct (decide (whole_week d)) as [Hd|Hd].
  - pose proof (whole_week_monday d Hd) as H.
    pose proof (iso_week_period_monday d) as H'.
    unfold checked.iso_week_period. unfold iso_week_period, add_days in *.
    pose proof (isocalendar_weekday d) as Hwd.
    destruct (isocalendar d) as [[Y W] D]. cbn [snd] in Hwd. subst D.
    destruct H as (H1 & _ & H2 & _). destruct H' as (_ & _ & _ & _).
    rewrite add_days_Returned by (unfold is_date, MAXORDINAL in *; lia).
    cbn. rewrite add_days_Returned by (unfold is_date, MAXORDINAL in *; lia).
    reflexivity.
  - pose proof (not_whole_week_monday d Hd) as H.
    unfold checked.iso_week_period. unfold iso_week_period, add_days in *.
    destruct (isocalendar d) as [[Y W] D].
    destruct (decide (is_date (d + - (D - 1)))) as [Hm|Hm].
    + rewrite add_days_Returned by exact Hm. cbn.
      rewrite add_days_Raised; [reflexivity|].
      unfold is_date, MAXORDINAL in *. lia.
    + rewrite add_days_Raised by exact Hm. reflexivity.
Qed.

Lemma checked_iso_week_period_Returned d t :
  checked.iso_week_period d = Returned t <->
  whole_week d /\ t = iso_week_period d.
Proof.
  rewrite checked_iso_week_period_eq. destruct (decide (whole_week d)).
  - split; [intros [= <-]; auto | intros [_ ->]; reflexivity].
  - split; [discriminate | intros [? _]; contradiction].
Qed.

Section CheckedWorkdays.

Context (holidays workdays : gset date).

Lemma checked_workdays_loop variant end_date : forall cur days,
  0 <= cur -> end_date <= MAXORDINAL ->
  variant = Z.to_nat (end_date + 1 - cur) ->
  checked.workdays_loop variant holidays workdays end_date cur days
  = if decide (end_date < cur \/ end_date < MAXORDINAL)
    then Returned (workdays_loop variant holidays workdays end_date cur days)
    else Raised OverflowError.
Proof.
  induction variant as [|variant IH]; intros cur days Hcur Hend Hv.
  - cbn. rewrite decide_True by lia. reflexivity.
  - cbn [checked.workdays_loop workdays_loop].
    destruct (Z.leb_spec cur end_date) as [Hle|Hlt]; [|lia].
    destruct (decide (is_date (cur + 1))) as [Hn|Hn].
    + rewrite add_days_Returned by exact Hn. cbn.
      unfold add_days. rewrite IH by lia.
      destruct (decide (end_date < cur \/ end_date < MAXORDINAL)).
      * rewrite decide_True by lia. reflexivity.
      * rewrite decide_False by (unfold is_date in Hn; lia). reflexivity.
    + rewrite add_days_Raised by exact Hn. cbn.
      rewrite decide_False; [reflexivity|]. unfold is_date in Hn. lia.
Qed.

End CheckedWorkdays.

(** [workdays_in_range] returns when the range is empty or ends before
    9999-12-31, and raises [OverflowError] when it steps past the last
    date. *)
Lemma checked_workdays_in_range_eq (start_date end_date : date)
    (holidays workdays : option (gset date)) :
  is_date start_date -> is_date end_date ->
  checked.workdays_in_range start_date end_date holidays workdays
  = if decide (end_date < start_date \/ end_date < MAXORDINAL)
    then Returned (workdays_in_range start_date end_date holidays workdays)
    else Raised OverflowError.
Proof.
  unfold is_date. intros Hs He.
  unfold checked.workdays_in_range, workdays_in_range.
  apply checked_workdays_loop; [lia|lia|reflexivity].
Qed.

Lemma checked_workday_range_eq (start_date end_date : date)
    (holidays workdays : option (gset date)) :
  is_date start_date -> is_date end_date ->
  checked.workday_range start_date end_date holidays workdays
  = if decide (end_date < start_date \/ end_date < MAXORDINAL)
    then Returned (workday_range start_date end_date holidays workdays)
    else Raised OverflowError.
Proof.
  intros Hs He. unfold checked.workday_range, workday_range.
  rewrite checked_workdays_in_range_eq by assumption.
  destruct (decide _); [|reflexivity]. cbn.
  destruct (workdays_in_range _ _ _ _); reflexivity.
Qed.

(** [ensure_period] raises where [iso_week_period] does, before anything
    is read or written, and nowhere else. *)
Lemma checked_ensure_period_among_eq concurrent db d :
  checked.ensure_period_among concurrent db d
  = if decide (whole_week d) then ensure_period_among concurrent db d
    else Raised OverflowError.
Proof.
  unfold checked.ensure_period_among. rewrite checked_iso_week_period_eq.
  destruct (decide (whole_week d)) as [Hd|Hd]; [|reflexivity].
  pose proof (whole_week_monday d Hd) as H.
  unfold ensure_period_among.
  destruct (iso_week_period d) as [[[Y W] monday] sunday].
  destruct H as (H1 & -> & H2 & _).
  cbn. rewrite add_days_Returned by (unfold is_date; lia).
  destruct (select_period _ _ _); reflexivity.
Qed.

Lemma checked_ensure_period_eq db d :
  checked.ensure_period db d
  = if decide (whole_week d) then ensure_period db d else Raised OverflowError.
Proof. apply checked_ensure_period_among_eq. Qed.

Lemma checked_after_ensure_period_eq db d :
  checked.after_ensure_period db d
  = if decide (whole_week d) then after_ensure_period db d else db.
Proof.
  unfold checked.after_ensure_period, after_ensure_period.
  rewrite checked_ensure_period_eq. destruct (decide _); reflexivity.
Qed.

End DateRange.

Section CheckedMonth.

Lemma month_in_range y m :
  MINYEAR <= y <= MAXYEAR -> 1 <= m <= 12 ->
  let first_day := mkdate y m 1 in
  let last_day := mkdate y m (days_in_month y m) in
  1 <= first_day /\ last_day <= MAXORDINAL
  /\ (~ (y = MAXYEAR /\ m = 12) -> last_day <= MAXORDINAL - 31).
Proof.
  unfold MINYEAR, MAXYEAR, MAXORDINAL, mkdate, ymd2ord. intros Hy Hm.
  pose proof (days_before_month_bounds y m Hm) as [Hb0 Hb1].
  pose proof (days_in_month_bounds y m Hm) as Hdim.
  pose proof (days_before_year_mono 1 y ltac:(lia)) as H1.
  pose proof (days_before_year_mono (y + 1) 10000 ltac:(lia)) as H2.
  change (days_before_year 1) with 0 in H1.
  change (days_before_year 10000) with 3652059 in H2.
  cbv zeta. split; [lia|]. split; [lia|]. intros Hne.
  destruct (decide (y = 9999)) as [->|Hy'].
  - assert (m = 1 \/ m = 2 \/ m = 3 \/ m = 4 \/ m = 5 \/ m = 6 \/ m = 7
            \/ m = 8 \/ m = 9 \/ m = 10 \/ m = 11) as Hcases by lia.
    repeat (destruct Hcases as [->|Hcases]; [vm_compute; discriminate|]).
    subst m. vm_compute. discriminate.
  - pose proof (days_before_year_mono (y + 1) 9999 ltac:(lia)) as H3.
    change (days_before_year 9999) with 3651694 in H3. lia.
Qed.

Lemma checked_mkdate_eq y m dd :
  MINYEAR <= y <= MAXYEAR -> 1 <= m <= 12 -> 1 <= dd <= days_in_month y m ->
  checked.mkdate y m dd = Returned (mkdate y m dd).
Proof.
  unfold MINYEAR, MAXYEAR. intros Hy Hm Hd.
  pose proof (days_in_month_bounds y m Hm) as Hdim.
  unfold checked.mkdate, checked.fits_int, MINYEAR, MAXYEAR.
  change (2 ^ 31) with 2147483648.
  repeat match goal with
         | |- context [?a <=? ?b] => destruct (Z.leb_spec a b); [|lia]
         | |- context [?a <? ?b] => destruct (Z.ltb_spec a b); try lia
         end.
  reflexivity.
Qed.

(** [date(year, month, 1)] raises for a year outside 1..9999 and for a
    month outside 1..12. *)
Lemma checked_mkdate_Raised y m dd :
  ~ (MINYEAR <= y <= MAXYEAR /\ 1 <= m <= 12) ->
  exists e, checked.mkdate y m dd = Raised e
            /\ (e = OverflowError \/ exists msg, e = ValueError msg).
Proof.
  unfold MINYEAR, MAXYEAR. intros Hn.
  unfold checked.mkdate, MINYEAR, MAXYEAR.
  destruct (negb _); [eauto|].
  destruct (Z.ltb_spec y 1); [cbn; eauto|].
  destruct (Z.ltb_spec 9999 y); [cbn; eauto|].
  destruct (Z.ltb_spec m 1); [cbn; eauto|].
  destruct (Z.ltb_spec 12 m); [cbn; eauto|].
  lia.
Qed.

Lemma checked_ensure_month_loop_eq last_day (variant : nat) :
  forall db monday periods_by_id,
  1 <= monday -> last_day <= MAXORDINAL - 12 ->
  checked.ensure_month_loop variant db last_day monday periods_by_id
  = ensure_month_loop variant db last_day monday periods_by_id.
Proof.
  induction variant as [|variant IH]; intros db monday acc Hm Hl;
    [reflexivity|].
  cbn [checked.ensure_month_loop ensure_month_loop].
  destruct (Z.leb_spec monday last_day) as [Hle|Hlt]; [|reflexivity].
  rewrite checked_ensure_period_eq.
  rewrite decide_True by (unfold whole_week; lia).
  destruct (ensure_period db monday) as [[db1 p]|e]; [|reflexivity].
  cbn. rewrite add_days_Returned by (unfold is_date; lia). cbn.
  apply IH; unfold add_days; lia.
Qed.

(** A loop that reaches the Monday 9999-12-27 raises there. *)
Lemma checked_ensure_month_loop_overflow last_day (variant : nat) :
  forall db monday periods_by_id,
  1 <= monday <= last_day -> monday mod 7 = 1 ->
  MAXORDINAL - 4 <= last_day <= MAXORDINAL ->
  last_day + 1 - monday <= Z.of_nat variant ->
  checked.ensure_month_loop variant db last_day monday periods_by_id
  = Raised OverflowError.
Proof.
  unfold MAXORDINAL.
  induction variant as [|variant IH]; intros db monday acc Hm Hmod Hl Hv;
    [lia|].
  cbn [checked.ensure_month_loop].
  destruct (Z.leb_spec monday last_day) as [Hle|Hlt]; [|lia].
  rewrite checked_ensure_period_eq.
  destruct (decide (whole_week monday)) as [Hw|Hw]; [|reflexivity].
  unfold whole_week, MAXORDINAL in Hw.
  assert (monday <= 3652048) by (Z.to_euclidean_division_equations; lia).
  destruct (ensure_period_returns db monday) as (db1 & p & -> & _).
  cbn. rewrite add_days_Returned by (unfold is_date, MAXORDINAL; lia). cbn.
  apply IH; unfold add_days; try lia; Z.to_euclidean_division_equations; lia.
Qed.

(** [ensure_month_periods] within the range of dates is what the
    arithmetic on ordinals gives. *)
Lemma checked_ensure_month_periods_eq db y m :
  MINYEAR <= y <= MAXYEAR -> 1 <= m <= 12 -> ~ (y = MAXYEAR /\ m = 12) ->
  checked.ensure_month_periods db y m = ensure_month_periods db y m.
Proof.
  intros Hy Hm Hne.
  pose proof (month_in_range y m Hy Hm) as (H1 & H2 & H3).
  specialize (H3 Hne).
  pose proof (month_days y m Hm) as (Hmod & Hmon & Hlen & _).
  pose proof (days_in_month_bounds y m Hm) as Hdim.
  unfold checked.ensure_month_periods, ensure_month_periods.
  rewrite !checked_mkdate_eq by (assumption || lia). cbn.
  destruct (Z.ltb_spec m 1); [lia|]. destruct (Z.ltb_spec 12 m); [lia|]. cbn.
  unfold add_days in *.
  assert (1 <= mkdate y m 1 + - (isoweekday (mkdate y m 1) - 1)) as Hmon1.
  { generalize dependent (mkdate y m 1 + - (isoweekday (mkdate y m 1) - 1)).
    intros monday Hmod Hmon. Z.to_euclidean_division_equations; lia. }
  rewrite add_days_Returned by (unfold is_date; lia). cbn.
  rewrite checked_ensure_month_loop_eq by lia.
  destruct (ensure_month_loop _ _ _ _ _) as [[db1 ps]|e]; reflexivity.
Qed.

(** December 9999 has the Monday 9999-12-27: [ensure_month_periods]
    raises [OverflowError] for it. *)
Lemma checked_ensure_month_periods_last db :
  checked.ensure_month_periods db MAXYEAR 12 = Raised OverflowError.
Proof.
  unfold checked.ensure_month_periods.
  rewrite !checked_mkdate_eq by (vm_compute; split; discriminate).
  change (mkdate MAXYEAR 12 1) with 3652029.
  change (days_in_month MAXYEAR 12) with 31.
  change (mkdate MAXYEAR 12 31) with 3652059.
  cbn -[checked.ensure_month_loop Z.to_nat].
  change (checked.add_days 3652029 (- (isoweekday 3652029 - 1)))
    with (@Returned date 3652027).
  cbn -[checked.ensure_month_loop Z.to_nat].
  rewrite checked_ensure_month_loop_overflow; [reflexivity| | | |].
  - lia.
  - reflexivity.
  - unfold MAXORDINAL. lia.
  - lia.
Qed.

End CheckedMonth.

Ltac in_range :=
  unfold is_date, whole_week; split; vm_compute; discriminate.

(** C2, as stated, fails: the loop of [workdays_in_range] steps to the day
    after [end_date] before it tests it, and 9999-12-31 has no day after
    it; for the range of that one day the call raises [OverflowError] and
    returns no list. *)
Lemma workdays_in_range_every_range_fails :
  is_date (mkdate 9999 12 31)
  /\ checked.workdays_in_range (mkdate 9999 12 31) (mkdate 9999 12 31)
       None None
     = Raised OverflowError
  /\ ~ workdays_in_range_every_range.
Proof.
  split; [in_range|]. split; [vm_compute; reflexivity|].
  intros H.
  destruct (H (mkdate 9999 12 31) (mkdate 9999 12 31) None None)
    as (days & Hd & _); [in_range|in_range|].
  vm_compute in Hd. discriminate Hd.
Qed.

(** C2, amended. For a range of dates that ends before 9999-12-31, or that
    ends before it starts, [workdays_in_range] returns exactly the days of
    [start_date..end_date], in ascending order, that the day-by-day rule
    admits: a day in the workdays override set; or else a day whose ISO
    weekday is at most 5 and that is not in the holidays set.  The override
    is looked at first, so it beats both the holiday set and the weekend. *)
Theorem workdays_in_range_before_date_max (start_date end_date : date)
    (holidays workdays : option (gset date)) :
  is_date start_date -> is_date end_date ->
  end_date < MAXORDINAL \/ end_date < start_date ->
  let H := default ∅ holidays in
  let W := default ∅ workdays in
  exists days,
    checked.workdays_in_range start_date end_date holidays workdays
    = Returned days
    /\ days = filter (effective_workday H W)
                (seqZ start_date (end_date + 1 - start_date))
    /\ (forall d : date,
          d ∈ days <->
          start_date <= d <= end_date /\
          (d ∈ W \/ ((d ∉ W) /\ (isoweekday d <= 5) /\ (d ∉ H))))
    /\ StronglySorted Z.lt days.
Proof.
  intros Hs He Hr H W.
  exists (workdays_in_range start_date end_date holidays workdays).
  rewrite checked_workdays_in_range_eq by assumption.
  rewrite decide_True by lia. split; [reflexivity|].
  exact (workdays_in_range_spec start_date end_date holidays workdays).
Qed.

(** C2 amended, at the range 2024-01-01..2024-01-07 with the holiday
    2024-01-01 and the make-up workday 2024-01-06: Tuesday to Saturday. *)
Lemma workdays_in_range_before_date_max_witness :
  exists days,
    checked.workdays_in_range (mkdate 2024 1 1) (mkdate 2024 1 7)
      (Some {[mkdate 2024 1 1]}) (Some {[mkdate 2024 1 6]})
    = Returned days
    /\ days = filter (effective_workday {[mkdate 2024 1 1]} {[mkdate 2024 1 6]})
                (seqZ (mkdate 2024 1 1) 7)
    /\ StronglySorted Z.lt days.
Proof.
  destruct (workdays_in_range_before_date_max (mkdate 2024 1 1)
              (mkdate 2024 1 7) (Some {[mkdate 2024 1 1]})
              (Some {[mkdate 2024 1 6]}))
    as (days & H1 & H2 & _ & H4); [in_range|in_range| |].
  - left. vm_compute. reflexivity.
  - exists days. split; [exact H1|]. split; [exact H2|exact H4].
Defined.

(** C3, as stated, fails: the ISO week of 9999-12-31 would end on
    10000-01-02, which is no date; [iso_week_period] raises
    [OverflowError] and [ensure_period] returns no period. *)
Lemma ensure_period_twice_every_date_fails :
  is_date (mkdate 9999 12 31)
  /\ checked.ensure_period empty_db (mkdate 9999 12 31) = Raised OverflowError
  /\ ~ ensure_period_twice_every_date.
Proof.
  split; [in_range|]. split; [vm_compute; reflexivity|].
  intros H.
  destruct (H empty_db (mkdate 9999 12 31))
    as (db1 & p & db2 & p' & Hd & _); [in_range|].
  vm_compute in Hd. discriminate Hd.
Qed.

(** C3, amended. For a date up to 9999-12-26, [ensure_period] is
    idempotent: called twice for the date it returns the same period both
    times (the same row, so the same id), and the second call leaves the
    table as the first one left it; when the table satisfies its
    constraint [uq_year_weekno], it still does afterwards, and the
    returned period is the one row of its ISO week. *)
Theorem ensure_period_twice (db : Db) (d : date) :
  whole_week d ->
  exists db1 p,
    checked.ensure_period db d = Returned (db1, p)
    /\ checked.ensure_period db1 d = Returned (db1, p)
    /\ week_key p = key_of_date d
    /\ p ∈ week_period db1
    /\ (uq_year_weekno (week_period db) ->
        uq_year_weekno (week_period db1)
        /\ List.filter (same_week (fst (key_of_date d)) (snd (key_of_date d)))
             (week_period db1) = [p]).
Proof.
  intros Hd.
  destruct (ensure_period_idempotent db d) as (db1 & p & H).
  exists db1, p. rewrite !checked_ensure_period_eq.
  rewrite !decide_True by exact Hd. exact H.
Qed.

(** C3 amended, on the empty database and 2024-01-31: the table satisfies
    its constraint, and both calls return the one row of week 5 of 2024. *)
Lemma ensure_period_twice_witness :
  exists db1 p,
    checked.ensure_period empty_db (mkdate 2024 1 31) = Returned (db1, p)
    /\ checked.ensure_period db1 (mkdate 2024 1 31) = Returned (db1, p)
    /\ uq_year_weekno (week_period db1)
    /\ List.filter (same_week 2024 5) (week_period db1) = [p].
Proof.
  destruct (ensure_period_twice empty_db (mkdate 2024 1 31))
    as (db1 & p & H1 & H2 & _ & _ & H5); [in_range|].
  exists db1, p.
  destruct (H5 (NoDup_nil_2 : uq_year_weekno (week_period empty_db)))
    as [Hu Hf].
  split; [exact H1|]. split; [exact H2|]. split; [exact Hu|]. exact Hf.
Defined.

(** C4, as stated, fails: for the Monday 9999-12-27 [ensure_period]
    raises [OverflowError] in [iso_week_period] and returns no period. *)
Lemma ensure_period_month_every_date_fails :
  is_date (mkdate 9999 12 27)
  /\ checked.ensure_period empty_db (mkdate 9999 12 27) = Raised OverflowError
  /\ ~ ensure_period_month_every_date.
Proof.
  split; [in_range|]. split; [vm_compute; reflexivity|].
  intros H.
  destruct (H empty_db (mkdate 9999 12 27))
    as (db1 & p & Hd & _); [in_range|apply Forall_nil_2|].
  vm_compute in Hd. discriminate Hd.
Qed.

(** C4, amended. For a date up to 9999-12-26, the period [ensure_period]
    returns carries the month of the Thursday of the ISO week, that is of
    Monday + 3 days, whether the row is new or was found: a row found with
    another month is returned, and stored, with the month put right and
    everything else as it was.  On rows written from ISO weeks the Monday
    is the [start_date] of the returned row. *)
Theorem ensure_period_thursday_month (db : Db) (d : date) :
  whole_week d ->
  exists y w monday sunday,
    checked.iso_week_period d = Returned (y, w, monday, sunday)
    /\ let m := datetime.month (add_days monday 3) in
       exists db1 p,
         checked.ensure_period db d = Returned (db1, p)
         /\ WeekPeriod.month p = m
         /\ select_period (week_period db1) y w = Some p
         /\ (forall existing,
               select_period (week_period db) y w = Some existing ->
               p = WeekPeriod.with_month m existing)
         /\ (select_period (week_period db) y w = None ->
             WeekPeriod.start_date p = monday /\ WeekPeriod.end_date p = sunday)
         /\ (Forall iso_week_row (week_period db) ->
             Forall iso_week_row (week_period db1)
             /\ WeekPeriod.month p
                = datetime.month (add_days (WeekPeriod.start_date p) 3)).
Proof.
  intros Hd.
  pose proof (ensure_period_month db d) as H.
  rewrite checked_ensure_period_eq, checked_iso_week_period_eq.
  rewrite !decide_True by exact Hd.
  destruct (iso_week_period d) as [[[y w] monday] sunday].
  exists y, w, monday, sunday. split; [reflexivity|]. exact H.
Qed.

(** C4 amended, on a table that holds week 5 of 2024 (Monday 29 January to
    Sunday 4 February) under the month of its Monday: the call for
    2024-01-31 returns the row with month 2, the month of Thursday
    1 February. *)
Lemma ensure_period_thursday_month_witness :
  let stale := WeekPeriod.mk 1 2024 1 5 (mkdate 2024 1 29) (mkdate 2024 2 4) in
  let db := mkDb [stale] [] [] [] in
  exists db1,
    checked.ensure_period db (mkdate 2024 1 31)
    = Returned (db1, WeekPeriod.with_month 2 stale)
    /\ select_period (week_period db1) 2024 5
       = Some (WeekPeriod.with_month 2 stale)
    /\ Forall iso_week_row (week_period db1).
Proof.
  intros stale db.
  destruct (ensure_period_thursday_month db (mkdate 2024 1 31))
    as (y & w & monday & sunday & Hw & H); [in_range|].
  vm_compute in Hw. injection Hw as <- <- <- <-.
  cbv zeta in H.
  destruct H as (db1 & p & H1 & _ & H3 & H4 & _ & H6).
  assert (p = WeekPeriod.with_month 2 stale) as ->
    by (apply H4; reflexivity).
  exists db1. split; [exact H1|]. split; [exact H3|].
  apply H6. apply Forall_singleton. exists (mkdate 2024 1 29). reflexivity.
Defined.

(** X1. [iso_week_period] on a date: for a date up to 9999-12-26 it returns a
    Monday and the Sunday six days later, both dates, with the date
    between them, and a week number from 1 to 53; for the five dates from
    9999-12-27 on it raises [OverflowError]. *)
Theorem iso_week_period_of_date (for_date : date) :
  is_date for_date ->
  match checked.iso_week_period for_date with
  | Returned (iso_year, iso_week, monday, sunday) =>
      for_date <= MAXORDINAL - 5
      /\ is_date monday /\ is_date sunday
      /\ isoweekday monday = 1 /\ isoweekday sunday = 7
      /\ sunday = monday + 6
      /\ monday <= for_date <= sunday
      /\ 1 <= iso_week <= 53
  | Raised e => e = OverflowError /\ MAXORDINAL - 5 < for_date
  end.
Proof.
  intros Hd. rewrite checked_iso_week_period_eq.
  destruct (decide (whole_week for_date)) as [Hw|Hw].
  - pose proof (whole_week_monday for_date Hw) as H.
    pose proof (iso_week_period_monday_sunday for_date) as H'.
    destruct (iso_week_period for_date) as [[[y w] monday] sunday].
    destruct H as (H1 & H2 & H3 & H4 & H5).
    destruct H' as (G1 & G2 & _ & _ & G5).
    unfold whole_week, is_date in *. repeat split; try assumption; lia.
  - unfold whole_week, is_date in *. split; [reflexivity|lia].
Qed.

(** Wednesday 2024-01-31 lies in week 5 of 2024, and 9999-12-31 in a week
    that has no Sunday. *)
Lemma iso_week_period_of_date_witness :
  checked.iso_week_period (mkdate 2024 1 31)
  = Returned (2024, 5, mkdate 2024 1 29, mkdate 2024 2 4)
  /\ isoweekday (mkdate 2024 1 29) = 1
  /\ checked.iso_week_period (mkdate 9999 12 31) = Raised OverflowError.
Proof.
  pose proof (iso_week_period_of_date (mkdate 2024 1 31)) as H.
  pose proof (iso_week_period_of_date (mkdate 9999 12 31)) as H'.
  change (checked.iso_week_period (mkdate 2024 1 31))
    with (Returned (2024, 5, mkdate 2024 1 29, mkdate 2024 2 4)) in *.
  change (checked.iso_week_period (mkdate 9999 12 31))
    with (@Raised (Z * Z * date * date) OverflowError) in *.
  destruct H as (_ & _ & _ & H & _); [in_range|].
  destruct H' as [_ _]; [in_range|].
  split; [reflexivity|]. split; [exact H|reflexivity].
Defined.

(** X2. The dates for which [iso_week_period] returns the tuple it returns for
    a date are the seven days from that Monday to that Sunday. *)
Theorem iso_week_period_week_dates (d d' : date) (y w : Z)
    (monday sunday : date) :
  checked.iso_week_period d = Returned (y, w, monday, sunday) ->
  checked.iso_week_period d' = Returned (y, w, monday, sunday)
  <-> monday <= d' <= sunday.
Proof.
  intros [Hw E]%checked_iso_week_period_Returned.
  pose proof (whole_week_monday d Hw) as H.
  pose proof (iso_week_period_same_week d d') as Hsame.
  rewrite <- E in H, Hsame. cbn [fst snd] in Hsame.
  destruct H as (H1 & H2 & H3 & H4 & H5).
  rewrite checked_iso_week_period_Returned, E, <- Hsame.
  split; [intros [_ G]; congruence|].
  intros G. split; [|congruence].
  pose proof (iso_week_period_monday d') as G'. rewrite G in G'.
  unfold whole_week in *. lia.
Qed.

(** Sunday 2024-02-04 lies in the week of Wednesday 2024-01-31, Monday
    2024-02-05 does not. *)
Lemma iso_week_period_week_dates_witness :
  checked.iso_week_period (mkdate 2024 2 4)
  = Returned (2024, 5, mkdate 2024 1 29, mkdate 2024 2 4)
  /\ checked.iso_week_period (mkdate 2024 2 5)
     <> Returned (2024, 5, mkdate 2024 1 29, mkdate 2024 2 4).
Proof.
  assert (checked.iso_week_period (mkdate 2024 1 31)
          = Returned (2024, 5, mkdate 2024 1 29, mkdate 2024 2 4)) as E
    by (vm_compute; reflexivity).
  split.
  - apply (iso_week_period_week_dates _ _ _ _ _ _ E). in_range.
  - intros G.
    apply (iso_week_period_week_dates _ _ _ _ _ _ E) in G.
    destruct G as [_ G]. vm_compute in G. apply G. reflexivity.
Defined.

(** X6. When [workdays_in_range] returns over a range, it returns over the
    first part of the range and over the rest, which starts one day after
    the end of the first part, and the list over the range is the first
    list followed by the second. *)
Theorem workdays_in_range_parts (start_date mid end_date : date)
    (holidays workdays : option (gset date)) (days : list date) :
  is_date start_date -> is_date mid -> is_date end_date ->
  start_date <= mid + 1 -> mid <= end_date ->
  checked.workdays_in_range start_date end_date holidays workdays
  = Returned days ->
  exists next days1 days2,
    checked.add_days mid 1 = Returned next
    /\ checked.workdays_in_range start_date mid holidays workdays
       = Returned days1
    /\ checked.workdays_in_range next end_date holidays workdays
       = Returned days2
    /\ days = days1 ++ days2.
Proof.
  intros Hs Hm He H1 H2.
  rewrite checked_workdays_in_range_eq by assumption.
  destruct (decide _) as [Hr|]; [|discriminate]. intros [= <-].
  unfold is_date in *.
  destruct (decide (mid = end_date)) as [->|Hne].
  - destruct (decide (end_date < MAXORDINAL)) as [Hlt|Hge].
    + exists (end_date + 1), (workdays_in_range start_date end_date holidays workdays), [].
      rewrite add_days_Returned by (unfold is_date; lia).
      rewrite !checked_workdays_in_range_eq by (unfold is_date; lia).
      rewrite !decide_True by lia.
      split; [reflexivity|]. split; [reflexivity|].
      split; [|rewrite app_nil_r; reflexivity].
      rewrite workdays_in_range_filter.
      replace (end_date + 1 - (end_date + 1)) with 0 by lia. reflexivity.
    + lia.
  - exists (mid + 1), (workdays_in_range start_date mid holidays workdays),
      (workdays_in_range (mid + 1) end_date holidays workdays).
    rewrite add_days_Returned by (unfold is_date; lia).
    rewrite !checked_workdays_in_range_eq by (unfold is_date; lia).
    rewrite !decide_True by lia.
    split; [reflexivity|]. split; [reflexivity|]. split; [reflexivity|].
    apply (workdays_in_range_split start_date mid end_date); assumption.
Qed.

(** The two weeks from 2024-01-01, cut after the first Sunday. *)
Lemma workdays_in_range_parts_witness :
  exists days1 days2,
    checked.workdays_in_range (mkdate 2024 1 1) (mkdate 2024 1 7) None None
    = Returned days1
    /\ checked.workdays_in_range (mkdate 2024 1 8) (mkdate 2024 1 14) None None
       = Returned days2
    /\ checked.workdays_in_range (mkdate 2024 1 1) (mkdate 2024 1 14) None None
       = Returned (days1 ++ days2).
Proof.
  destruct (workdays_in_range_parts (mkdate 2024 1 1) (mkdate 2024 1 7)
              (mkdate 2024 1 14) None None
              (workdays_in_range (mkdate 2024 1 1) (mkdate 2024 1 14) None None))
    as (next & days1 & days2 & Hn & H1 & H2 & H3);
    [in_range|in_range|in_range|vm_compute; discriminate
    |vm_compute; discriminate|vm_compute; reflexivity|].
  vm_compute in Hn. injection Hn as <-.
  exists days1, days2. split; [exact H1|]. split; [exact H2|].
  rewrite <- H3. vm_compute. reflexivity.
Defined.

(** X7. [workday_range] on dates: a range that ends before it starts has no
    workday, whatever the overrides say; no range has more workdays than
    days; and the call raises, with [OverflowError], exactly for the
    ranges that are not empty and end on 9999-12-31. *)
Theorem workday_range_of_dates (start_date end_date : date)
    (holidays workdays : option (gset date)) :
  is_date start_date -> is_date end_date ->
  match checked.workday_range start_date end_date holidays workdays with
  | Returned (first, last, count) =>
      (end_date < start_date \/ end_date < MAXORDINAL)
      /\ 0 <= count <= Z.max 0 (end_date + 1 - start_date)
      /\ (end_date < start_date -> (first, last, count) = (None, None, 0))
  | Raised e =>
      e = OverflowError /\ start_date <= end_date /\ end_date = MAXORDINAL
  end.
Proof.
  intros Hs He. rewrite checked_workday_range_eq by assumption.
  destruct (decide _) as [Hr|Hr].
  - pose proof (workday_range_count start_date end_date holidays workdays)
      as [H1 H2].
    destruct (workday_range start_date end_date holidays workdays)
      as [[first last] count].
    cbn [snd] in H1. auto.
  - unfold is_date in *. split; [reflexivity|lia].
Qed.

(** A range that ends before it starts, with a make-up workday in it, and
    the last five days of the year 9999. *)
Lemma workday_range_of_dates_witness :
  checked.workday_range (mkdate 2024 1 7) (mkdate 2024 1 1)
    None (Some {[mkdate 2024 1 6]})
  = Returned (None, None, 0)
  /\ checked.workday_range (mkdate 9999 12 27) (mkdate 9999 12 31) None None
     = Raised OverflowError.
Proof.
  pose proof (workday_range_of_dates (mkdate 2024 1 7) (mkdate 2024 1 1)
                None (Some {[mkdate 2024 1 6]})) as H.
  pose proof (workday_range_of_dates (mkdate 9999 12 27) (mkdate 9999 12 31)
                None None) as H'.
  destruct (checked.workday_range (mkdate 2024 1 7) (mkdate 2024 1 1) _ _)
    as [[[first last] count]|e] eqn:E; [|vm_compute in E; discriminate E].
  destruct H as (_ & _ & H); [in_range|in_range|].
  destruct (checked.workday_range (mkdate 9999 12 27) (mkdate 9999 12 31) _ _)
    as [r|e'] eqn:E'; [vm_compute in E'; discriminate E'|].
  destruct H' as (-> & _); [in_range|in_range|].
  split; [|reflexivity]. rewrite H; [reflexivity|]. vm_compute. reflexivity.
Defined.

(** X8. With no override dates, the workdays of a week [iso_week_period]
    returns are its Monday to its Friday. *)
Theorem workday_range_of_week (for_date : date) (y w : Z)
    (monday sunday : date) :
  checked.iso_week_period for_date = Returned (y, w, monday, sunday) ->
  checked.workdays_in_range monday sunday None None
  = Returned [monday; monday + 1; monday + 2; monday + 3; monday + 4]
  /\ checked.workday_range monday sunday None None
     = Returned (Some monday, Some (monday + 4), 5).
Proof.
  intros [Hw E]%checked_iso_week_period_Returned.
  pose proof (whole_week_monday for_date Hw) as H.
  pose proof (workday_range_iso_week for_date) as G.
  rewrite <- E in H, G. destruct H as (H1 & H2 & H3 & H4 & H5).
  destruct G as [G1 G2]. unfold add_days in *.
  rewrite checked_workday_range_eq, checked_workdays_in_range_eq
    by (unfold is_date; lia).
  rewrite !decide_True by lia. rewrite G1, G2. split; reflexivity.
Qed.

(** Week 5 of 2024, from Monday 29 January: the last workday is Friday
    2 February. *)
Lemma workday_range_of_week_witness :
  checked.workday_range (mkdate 2024 1 29) (mkdate 2024 2 4) None None
  = Returned (Some (mkdate 2024 1 29), Some (mkdate 2024 2 2), 5).
Proof.
  assert (checked.iso_week_period (mkdate 2024 1 31)
          = Returned (2024, 5, mkdate 2024 1 29, mkdate 2024 2 4)) as E
    by (vm_compute; reflexivity).
  exact (proj2 (workday_range_of_week _ _ _ _ _ E)).
Defined.

(** X9. [ensure_period] on a date.  For a date up to 9999-12-26 it returns and
    writes to the table [week_period] only: it deletes no row, keeps the
    order, the id, the year, the week and the dates of every row, adds at
    most one row, and keeps the primary key.  For a later date it raises
    [OverflowError]. *)
Theorem ensure_period_of_date (db : Db) (for_date : date) :
  is_date for_date ->
  match checked.ensure_period db for_date with
  | Returned (db1, p) =>
      for_date <= MAXORDINAL - 5
      /\ weekly_plan db1 = weekly_plan db
      /\ plan_item db1 = plan_item db
      /\ operation_log db1 = operation_log db
      /\ (exists new,
            WeekPeriod.with_month 0 <$> week_period db1
            = (WeekPeriod.with_month 0 <$> week_period db) ++ new
            /\ (length new <= 1)%nat)
      /\ (pk_week_period (week_period db) -> pk_week_period (week_period db1))
  | Raised e => e = OverflowError /\ MAXORDINAL - 5 < for_date
  end.
Proof.
  intros Hd. rewrite checked_ensure_period_eq.
  destruct (decide (whole_week for_date)) as [Hw|Hw].
  - destruct (ensure_period_keeps_rows db for_date)
      as (db1 & p & new & -> & H1 & H2 & H3 & H4 & H5 & H6).
    unfold whole_week in Hw. repeat split; try assumption; [lia|].
    exists new. split; assumption.
  - unfold whole_week, is_date in *. split; [reflexivity|lia].
Qed.

(** On the empty database: 2024-01-31 gives a table of one row, 9999-12-28
    raises. *)
Lemma ensure_period_of_date_witness :
  (exists db1 p,
     checked.ensure_period empty_db (mkdate 2024 1 31) = Returned (db1, p)
     /\ length (week_period db1) = 1%nat)
  /\ checked.ensure_period empty_db (mkdate 9999 12 28) = Raised OverflowError.
Proof.
  pose proof (ensure_period_of_date empty_db (mkdate 2024 1 31)) as H.
  pose proof (ensure_period_of_date empty_db (mkdate 9999 12 28)) as H'.
  destruct (checked.ensure_period empty_db (mkdate 2024 1 31))
    as [[db1 p]|e] eqn:E; [|vm_compute in E; discriminate E].
  destruct (checked.ensure_period empty_db (mkdate 9999 12 28))
    as [r|e'] eqn:E'; [vm_compute in E'; discriminate E'|].
  destruct H as (_ & _ & _ & _ & _ & _); [in_range|].
  destruct H' as [-> _]; [in_range|].
  split; [|reflexivity]. exists db1, p. split; [reflexivity|].
  vm_compute in E. injection E as <- _. reflexivity.
Defined.

(** X12. After [_migrate_week_period_month], on rows written from ISO weeks
    under the primary key, [ensure_period] for a date up to 9999-12-26
    corrects no month any more: it leaves the table as it is, or adds the
    row it returns at the end. *)
Theorem ensure_period_of_migrated (db : Db) (for_date : date) :
  whole_week for_date ->
  pk_week_period (week_period db) -> Forall iso_week_row (week_period db) ->
  let db1 := migrate_week_period_month db in
  exists db2 p,
    checked.ensure_period db1 for_date = Returned (db2, p)
    /\ (db2 = db1 \/ week_period db2 = week_period db1 ++ [p])
    /\ Forall month_of_thursday (week_period db2).
Proof.
  intros Hw Hpk Hiso db1. rewrite checked_ensure_period_eq.
  rewrite decide_True by exact Hw.
  exact (ensure_period_after_migration db for_date Hpk Hiso).
Qed.

(** A table that holds week 5 of 2024 under the month of its Monday, after
    the migration, and the call for 2024-01-31. *)
Lemma ensure_period_of_migrated_witness :
  let db :=
    mkDb [WeekPeriod.mk 1 2024 1 5 (mkdate 2024 1 29) (mkdate 2024 2 4)]
      [] [] [] in
  exists db2 p,
    checked.ensure_period (migrate_week_period_month db) (mkdate 2024 1 31)
    = Returned (db2, p)
    /\ (db2 = migrate_week_period_month db
        \/ week_period db2 = week_period (migrate_week_period_month db) ++ [p])
    /\ Forall month_of_thursday (week_period db2).
Proof.
  intros db. apply (ensure_period_of_migrated db (mkdate 2024 1 31)).
  - in_range.
  - apply NoDup_singleton.
  - apply Forall_singleton. exists (mkdate 2024 1 29). reflexivity.
Defined.

Ltac month_in_range :=
  unfold MINYEAR, MAXYEAR; lia.

(** X13. [ensure_month_periods] for a month of the years 1 to 9999 but December
    9999, on a table under its primary key whose rows were written from
    ISO weeks, returns the rows of consecutive weeks in the order of their
    Mondays: four to six rows, each from a Monday to the Sunday after it
    and with the month of its Thursday, and every day of the month lies in
    one of them; only the table [week_period] is written. *)
Theorem ensure_month_periods_of_month (db : Db) (year month : Z) :
  MINYEAR <= year <= MAXYEAR -> 1 <= month <= 12 ->
  ~ (year = MAXYEAR /\ month = 12) ->
  pk_week_period (week_period db) -> Forall iso_week_row (week_period db) ->
  exists db1 periods,
    checked.ensure_month_periods db year month = Returned (db1, periods)
    /\ StronglySorted Z.lt (WeekPeriod.start_date <$> periods)
    /\ Forall (fun p =>
                 (p ∈ week_period db1)
                 /\ isoweekday (WeekPeriod.start_date p) = 1
                 /\ WeekPeriod.end_date p = WeekPeriod.start_date p + 6
                 /\ is_date (WeekPeriod.start_date p)
                 /\ is_date (WeekPeriod.end_date p)
                 /\ month_of_thursday p
                 /\ week_key p = key_of_date (WeekPeriod.start_date p)
                 /\ WeekPeriod.start_date p
                    <= mkdate year month (days_in_month year month)
                 /\ mkdate year month 1 <= WeekPeriod.end_date p) periods
    /\ (forall d, datetime.year d = year -> datetime.month d = month ->
          exists p, (p ∈ periods)
                    /\ WeekPeriod.start_date p <= d <= WeekPeriod.end_date p)
    /\ (4 <= length periods <= 6)%nat
    /\ weekly_plan db1 = weekly_plan db
    /\ plan_item db1 = plan_item db
    /\ operation_log db1 = operation_log db.
Proof.
  intros Hy Hm Hne Hpk Hiso.
  rewrite checked_ensure_month_periods_eq by assumption.
  destruct (ensure_month_periods_weeks db year month Hm Hpk Hiso)
    as (db1 & periods & H1 & H2 & H3 & H4 & H5 & H6).
  exists db1, periods. split; [exact H1|]. split; [exact H2|].
  split; [|split; [exact H4|split; [exact H5|exact H6]]].
  pose proof (month_in_range year month Hy Hm) as (R1 & R2 & R3).
  specialize (R3 Hne).
  eapply Forall_impl; [exact H3|]. cbv beta.
  intros p (G1 & G2 & G3 & G4 & G5 & G6 & G7).
  unfold add_days in G3.
  assert (WeekPeriod.start_date p mod 7 = 1) as Hmod.
  { revert G2. unfold isoweekday.
    destruct (Z.eqb_spec (WeekPeriod.start_date p mod 7) 0); [lia|auto]. }
  assert (1 <= WeekPeriod.start_date p) as Hlo.
  { generalize dependent (mkdate year month 1).
    generalize dependent (WeekPeriod.end_date p).
    generalize dependent (WeekPeriod.start_date p).
    intros. Z.to_euclidean_division_equations; lia. }
  unfold is_date. repeat split; try assumption; lia.
Qed.

(** January 2024 on the empty database: five weeks, from Monday 1 January
    to Sunday 4 February. *)
Lemma ensure_month_periods_of_month_witness :
  exists db1 periods,
    checked.ensure_month_periods empty_db 2024 1 = Returned (db1, periods)
    /\ StronglySorted Z.lt (WeekPeriod.start_date <$> periods)
    /\ (forall d, datetime.year d = 2024 -> datetime.month d = 1 ->
          exists p, (p ∈ periods)
                    /\ WeekPeriod.start_date p <= d <= WeekPeriod.end_date p)
    /\ (4 <= length periods <= 6)%nat.
Proof.
  destruct (ensure_month_periods_of_month empty_db 2024 1)
    as (db1 & periods & H1 & H2 & _ & H4 & H5 & _).
  - month_in_range.
  - lia.
  - intros [? _]. discriminate.
  - apply NoDup_nil_2.
  - apply Forall_nil_2.
  - exists db1, periods. auto.
Defined.

(** X14. A second call of [ensure_month_periods] for the month returns the rows
    of the first and writes nothing. *)
Theorem ensure_month_periods_twice (db : Db) (year month : Z) :
  MINYEAR <= year <= MAXYEAR -> 1 <= month <= 12 ->
  ~ (year = MAXYEAR /\ month = 12) ->
  pk_week_period (week_period db) -> Forall iso_week_row (week_period db) ->
  exists db1 periods,
    checked.ensure_month_periods db year month = Returned (db1, periods)
    /\ checked.ensure_month_periods db1 year month = Returned (db1, periods).
Proof.
  intros Hy Hm Hne Hpk Hiso.
  rewrite checked_ensure_month_periods_eq by assumption.
  destruct (ensure_month_periods_idempotent db year month Hm Hpk Hiso)
    as (db1 & periods & H1 & H2).
  exists db1, periods.
  rewrite checked_ensure_month_periods_eq by assumption. auto.
Qed.

(** January 2024 on a database that holds two of its weeks. *)
Lemma ensure_month_periods_twice_witness :
  exists db1 periods,
    checked.ensure_month_periods db_january 2024 1 = Returned (db1, periods)
    /\ checked.ensure_month_periods db1 2024 1 = Returned (db1, periods).
Proof.
  apply ensure_month_periods_twice.
  - month_in_range.
  - lia.
  - intros [? _]. discriminate.
  - apply (bool_decide_unpack _). vm_compute. exact I.
  - vm_compute week_period.
    repeat constructor;
      [exists (mkdate 2024 1 17)|exists (mkdate 2024 1 10)]; reflexivity.
Defined.

Lemma ensure_month_loop_returns last_day (variant : nat) :
  forall db monday periods_by_id,
  exists r,
    ensure_month_loop variant db last_day monday periods_by_id = Returned r.
Proof.
  induction variant as [|variant IH]; intros db monday acc; cbn; [eauto|].
  destruct (monday <=? last_day); [|eauto].
  destruct (ensure_period_returns db monday) as (db1 & p & -> & _).
  apply IH.
Qed.

(** X28. Where [ensure_month_periods] returns: for the months of the years 1 to
    9999 but December 9999.  For another year or month [date(year, month,
    1)] raises before the table is read, and for December 9999 the loop
    reaches the Monday 9999-12-27, whose week has no Sunday. *)
Theorem ensure_month_periods_returns (db : Db) (year month : Z) :
  ((exists r, checked.ensure_month_periods db year month = Returned r)
   <-> (MINYEAR <= year <= MAXYEAR) /\ (1 <= month <= 12)
       /\ ~ (year = MAXYEAR /\ month = 12))
  /\ (~ (MINYEAR <= year <= MAXYEAR /\ 1 <= month <= 12) ->
      exists e,
        checked.ensure_month_periods db year month = Raised e
        /\ (e = OverflowError \/ exists msg, e = ValueError msg))
  /\ (year = MAXYEAR -> month = 12 ->
      checked.ensure_month_periods db year month = Raised OverflowError).
Proof.
  assert (~ (MINYEAR <= year <= MAXYEAR /\ 1 <= month <= 12) ->
          exists e,
            checked.ensure_month_periods db year month = Raised e
            /\ (e = OverflowError \/ exists msg, e = ValueError msg)) as Hbad.
  { intros Hn. unfold checked.ensure_month_periods.
    destruct (checked_mkdate_Raised year month 1 Hn) as (e & -> & He).
    exists e. split; [reflexivity|exact He]. }
  split; [|split; [exact Hbad|]].
  - split.
    + intros [r Hr].
      destruct (decide (MINYEAR <= year <= MAXYEAR /\ 1 <= month <= 12))
        as [[Hy Hm]|Hn].
      * split; [exact Hy|]. split; [exact Hm|]. intros [-> ->].
        rewrite checked_ensure_month_periods_last in Hr. discriminate Hr.
      * destruct (Hbad Hn) as (e & He & _). congruence.
    + intros (Hy & Hm & Hne).
      rewrite checked_ensure_month_periods_eq by assumption.
      unfold ensure_month_periods.
      destruct (Z.ltb_spec month 1); [lia|].
      destruct (Z.ltb_spec 12 month); [lia|]. cbn.
      match goal with
      | |- context [ensure_month_loop ?v ?d ?l ?m ?a] =>
          destruct (ensure_month_loop_returns l v d m a) as [[db1 ps] ->]
      end.
      eauto.
  - intros -> ->. apply checked_ensure_month_periods_last.
Qed.

Lemma fold_checked_after_ensure_period (dates : list date) : forall db,
  fold_left checked.after_ensure_period dates db
  = fold_left after_ensure_period (filter whole_week dates) db.
Proof.
  induction dates as [|d dates IH]; intros db; [reflexivity|].
  cbn [fold_left]. rewrite IH, checked_after_ensure_period_eq, filter_cons.
  destruct (decide (whole_week d)); reflexivity.
Qed.

Lemma first_occurrences_elem_of (keys : list (Z * Z)) : forall seen k,
  k ∈ first_occurrences keys seen -> k ∈ keys.
Proof.
  induction keys as [|k0 keys IH]; intros seen k; cbn [first_occurrences];
    [intros []%elem_of_nil|].
  destruct (bool_decide (k0 ∈ seen)).
  - intros G. right. exact (IH _ _ G).
  - intros [->|G]%elem_of_cons; [left|right; exact (IH _ _ G)].
Qed.

(** X15. A table [week_period] filled by calls of [ensure_period] alone, of
    which those for a date after 9999-12-26 raise and write nothing, holds
    one row for each ISO week asked for, in the order in which the weeks
    were first asked for and with the ids 1, 2, 3, ...; every row is a
    Monday-to-Sunday ISO week of dates with the month of its Thursday, and
    the primary key and the constraint [uq_year_weekno] hold. *)
Theorem ensure_period_from_empty_table (dates : list date) :
  let rows :=
    week_period (fold_left checked.after_ensure_period dates empty_db) in
  week_key <$> rows
  = first_occurrences (key_of_date <$> filter whole_week dates) []
  /\ WeekPeriod.id <$> rows = seqZ 1 (Z.of_nat (length rows))
  /\ Forall iso_week_row rows /\ Forall month_of_thursday rows
  /\ Forall (fun p => is_date (WeekPeriod.start_date p)
                      /\ WeekPeriod.end_date p = WeekPeriod.start_date p + 6
                      /\ is_date (WeekPeriod.end_date p)) rows
  /\ pk_week_period rows /\ uq_year_weekno rows.
Proof.
  cbv zeta. rewrite fold_checked_after_ensure_period.
  pose proof (ensure_period_from_empty (filter whole_week dates))
    as (H1 & H2 & H3 & H4 & H5 & H6).
  split; [exact H1|]. split; [exact H2|]. split; [exact H3|].
  split; [exact H4|]. split; [|split; [exact H5|exact H6]].
  apply Forall_forall. intros p Hp.
  assert (week_key p ∈ key_of_date <$> filter whole_week dates) as Hk.
  { assert (week_key p
            ∈ week_key
                <$> week_period
                      (fold_left after_ensure_period (filter whole_week dates)
                         empty_db)) as Hin
      by (apply list_elem_of_fmap; eauto).
    rewrite H1 in Hin. exact (first_occurrences_elem_of _ _ _ Hin). }
  apply list_elem_of_fmap in Hk as (d & Hkd & Hd).
  apply list_elem_of_filter in Hd as [Hw _].
  rewrite Forall_forall in H3. specialize (H3 p Hp).
  pose proof (iso_week_row_dates p d H3 Hkd) as E.
  pose proof (whole_week_monday d Hw) as G. rewrite E in G.
  destruct G as (G1 & G2 & G3 & G4 & G5).
  unfold is_date. repeat split; try assumption; lia.
Qed.



(* ===================================================================== *)
(** * Properties: the two aggregation paths, regrouped *)
(* ===================================================================== *)

Section Regrouping.

(** The first item: the total is still [0.0], and adding the hours of the
    item to it one by one is adding its subtotal. *)
Lemma item_step_first it :
  item_ok it = true ->
  (if has_details it then add_detail_hours zero (PlanItem.details it)
   else add zero (estimated_or_0 it))
  = add zero (item_actual it)
  /\ accumulator (add zero (item_actual it)).
Proof.
  intros Hok.
  assert (accumulator (item_actual it)) as Hacc.
  { unfold item_actual. destruct (has_details it).
    - rewrite add_detail_hours_fold. fold (detail_hours it).
      pose proof (fun h => detail_hours_float it h Hok) as Hfl.
      generalize accumulator_zero. generalize zero as total.
      induction (detail_hours it) as [|h hs IH]; intros total Hacc;
        cbn [fold_left]; [exact Hacc|].
      apply IH.
      + intros h' Hh'. apply Hfl. right. exact Hh'.
      + apply accumulator_add; [exact Hacc|].
        apply is_float_fine, Hfl. left.
    - split; [apply estimated_or_0_fine, Hok|].
      unfold estimated_or_0.
      destruct (PlanItem.estimated_hours it) as [h|]; [|discriminate].
      destruct h as [s| | |]; cbn [truthy]; discriminate. }
  rewrite (add_zero_l (item_actual it)) by apply Hacc.
  split; [|exact Hacc].
  unfold item_actual in *. destruct (has_details it); [reflexivity|].
  apply add_zero_l. apply Hacc.
Qed.

(** When no item after the first has more than one detail that carries
    hours, adding the hours one by one is adding the subtotals. *)
Lemma items_regroup_first its :
  Forall (fun it => item_ok it = true) its ->
  Forall (fun it => (length (detail_hours it) <= 1)%nat) (tail its) ->
  fold_left (fun total item =>
               if has_details item
               then add_detail_hours total (PlanItem.details item)
               else add total (estimated_or_0 item)) its zero
  = fold_left add (item_actual <$> its) zero.
Proof.
  destruct its as [|it its]; [reflexivity|].
  intros [Hok Hoks]%Forall_cons Hlen. cbn [tail] in Hlen.
  cbn [fold_left fmap list_fmap].
  destruct (item_step_first it Hok) as [-> Hacc].
  apply items_regroup; [exact Hacc|].
  apply Forall_forall. intros it' Hit'. rewrite Forall_forall in Hoks, Hlen.
  split; [apply Hoks|apply Hlen]; exact Hit'.
Qed.

End Regrouping.

(** C10, amended. For a plan present in the store, [get_plan_item_stats]
    reports as [actual] the sum of the subtotals of the items, rounded to
    one decimal, and [sum_plan_hours] is the sum of the same hours taken
    one by one: the two paths add the same hours and differ by the
    grouping of the float additions and by the final rounding.  So
    [actual] is [sum_plan_hours] rounded to one decimal exactly when the
    grouping does not change the rounded sum; it does not when the hours
    entries are floats and no item after the first has more than one
    detail that carries hours. *)
Theorem actual_and_sum_plan_hours (db : Db) (p : WeeklyPlan.t) :
  get_plan db (WeeklyPlan.id p) = Some p ->
  let its := plan_items db (WeeklyPlan.id p) in
  let reported :=
    actual <$> (get_plan_item_stats db [WeeklyPlan.id p] !! WeeklyPlan.id p) in
  let subtotals := (fun it => fold_left add (item_terms it) zero) <$> its in
  let grouped := fold_left add subtotals zero in
  let one_by_one := fold_left add (concat (item_terms <$> its)) zero in
  reported = Some (round1 grouped)
  /\ sum_plan_hours db (WeeklyPlan.id p) = one_by_one
  /\ (reported = Some (round1 (sum_plan_hours db (WeeklyPlan.id p)))
      <-> round1 grouped = round1 one_by_one)
  /\ (Forall (fun it => item_ok it = true) its ->
      Forall (fun it => (length (detail_hours it) <= 1)%nat) (tail its) ->
      grouped = one_by_one
      /\ reported = Some (round1 (sum_plan_hours db (WeeklyPlan.id p)))).
Proof.
  intros Hp its reported subtotals grouped one_by_one.
  assert (reported = Some (round1 grouped)) as Hrep.
  { unfold reported. rewrite get_plan_item_stats_lookup by discriminate.
    rewrite bool_decide_eq_true_2 by left. cbv zeta.
    cbn [fmap option_fmap option_map actual]. do 3 f_equal.
    unfold subtotals. apply list_fmap_ext. intros _ it _.
    apply item_actual_subtotal. }
  pose proof (sum_plan_hours_flat db p Hp) as Hsum. fold its in Hsum.
  fold one_by_one in Hsum.
  split; [exact Hrep|]. split; [exact Hsum|]. split.
  - rewrite Hrep, Hsum. split; [intros [= E]; exact E|intros ->; reflexivity].
  - intros Hok Hlen.
    assert (grouped = one_by_one) as E.
    { rewrite <- Hsum. unfold sum_plan_hours. unfold get_plan in Hp.
      rewrite Hp. fold its. rewrite (items_regroup_first its Hok Hlen).
      unfold grouped, subtotals. f_equal. apply list_fmap_ext.
      intros _ it _. symmetry. apply item_actual_subtotal. }
    split; [exact E|]. rewrite Hrep, Hsum, E. reflexivity.
Qed.

(** C10 amended, on a plan whose first item has two details with hours,
    where no later item has (both paths give 5.0), and on a plan with two
    such items after the first, where the grouping does not change the
    sum (both paths give 5.0). *)
Lemma actual_and_sum_plan_hours_witness :
  actual <$> (get_plan_item_stats db_details_first [1] !! 1)
  = Some (round1 (sum_plan_hours db_details_first 1))
  /\ round1 (sum_plan_hours db_details_first 1) = decimal 5 1
  /\ actual <$> (get_plan_item_stats db_details_later [1] !! 1)
     = Some (round1 (sum_plan_hours db_details_later 1))
  /\ round1 (sum_plan_hours db_details_later 1) = decimal 5 1.
Proof.
  split; [|split; [vm_compute; reflexivity|split; [|vm_compute; reflexivity]]].
  - pose proof (actual_and_sum_plan_hours db_details_first
                  (WeeklyPlan.mk 1 1 1 "draft") eq_refl) as H.
    cbv zeta in H. destruct H as (_ & _ & _ & H).
    apply H; repeat constructor.
  - pose proof (actual_and_sum_plan_hours db_details_later
                  (WeeklyPlan.mk 1 1 1 "draft") eq_refl) as H.
    cbv zeta in H. destruct H as (_ & _ & H & _).
    apply H. vm_compute. reflexivity.
Defined.
